(** * HEM4V project starter: a model of [Hem4V_Version12.py]

    The script takes the URL of a repository, prepares a working folder,
    makes sure Git is there, clones the repository, installs the
    dependencies of the project and launches it.  This file embeds the
    functions of the script as Rocq functions over an explicit state (the
    history of the interactions with the outside world, the pending lines
    of standard input and the step counter of [do_workflow]) and proves
    properties of them. *)

From Stdlib Require Import String Ascii List ZArith Lia Bool Arith.
From Stdlib Require Import DecimalString.
Import ListNotations.

Open Scope string_scope.
Open Scope list_scope.

Infix "+++" := String.append (right associativity, at level 60).

(* ================================================================== *)
(** ** Python strings

    A Python [str] is modelled as a [string]; its characters stand for the
    code points below 256.  The message literals of the script are kept
    as they are in the source file. *)
(* ================================================================== *)

Definition slash : ascii := "/"%char.
Definition backslash : ascii := ascii_of_nat 92.

(** [str.isspace] on one character: the code points 9-13, 28-32, 133, 160. *)
Definition py_isspace (c : ascii) : bool :=
  let n := nat_of_ascii c in
  (((9 <=? n) && (n <=? 13)) || ((28 <=? n) && (n <=? 32))
   || (n =? 133) || (n =? 160))%nat.

(** [s.lstrip(...)]: drop the leading characters that satisfy [p]. *)
Fixpoint lstrip (p : ascii -> bool) (s : string) : string :=
  match s with
  | EmptyString => EmptyString
  | String c s' => if p c then lstrip p s' else s
  end.

(** [s.rstrip(...)]: drop the trailing characters that satisfy [p]. *)
Fixpoint rstrip (p : ascii -> bool) (s : string) : string :=
  match s with
  | EmptyString => EmptyString
  | String c s' =>
      match rstrip p s' with
      | EmptyString => if p c then EmptyString else String c EmptyString
      | r => String c r
      end
  end.

(** [s.strip()] and [s.rstrip()] with no argument strip white space. *)
Definition strip (s : string) : string := rstrip py_isspace (lstrip py_isspace s).
Definition rstrip_ws (s : string) : string := rstrip py_isspace s.

(** [s.split(sep)] for a one-character separator. *)
Fixpoint split (sep : ascii) (s : string) : list string :=
  match s with
  | EmptyString => [EmptyString]
  | String c s' =>
      if Ascii.eqb c sep then EmptyString :: split sep s'
      else match split sep s' with
           | [] => [String c EmptyString]
           | hd :: tl => String c hd :: tl
           end
  end.

(** [l[-1]] on a list of strings ([split] never returns an empty list). *)
Definition last_item (l : list string) : string := last l EmptyString.

(** [s.endswith(suf)]. *)
Definition endswith (s suf : string) : bool :=
  (String.length suf <=? String.length s)%nat
  && String.eqb (substring (String.length s - String.length suf) (String.length suf) s) suf.

(** [s.startswith(pre)]. *)
Definition startswith (s pre : string) : bool := String.prefix pre s.

(** [s[:-n]] for [n > 0]. *)
Definition drop_end (n : nat) (s : string) : string :=
  substring 0 (String.length s - n) s.

(** [' '.join(l)]. *)
Definition join_space (l : list string) : string := String.concat " " l.

(** [str(z)] for an integer. *)
Definition str_of_Z (z : Z) : string := NilZero.string_of_int (Z.to_int z).
Definition str_of_nat (n : nat) : string := str_of_Z (Z.of_nat n).

(** [parse_repo_name(repo_url)], lines 134-138. *)
Definition parse_repo_name (repo_url : string) : string :=
  let name := last_item (split slash (rstrip (Ascii.eqb slash) repo_url)) in
  if endswith name ".git" then drop_end 4 name else name.

Example parse_repo_name_sample :
  parse_repo_name "https://host/org/sample-app.git" = "sample-app".
Proof. reflexivity. Qed.

(* ================================================================== *)
(** ** The outside world

    Every call of the script that reaches outside it (the file system, the
    search path, the network, child processes, the console) is recorded as
    an [event] together with the answer it got.  The answers come from a
    [World]: each of its oracles sees the history so far, so an answer may
    depend on anything that happened before. *)
(* ================================================================== *)

(** A caught Python exception: [str(e)] and [traceback.format_exc()]. *)
Record exn : Type := { exn_str : string; exn_tb : string }.

(** What one [subprocess.Popen] attempt of [run_cmd] leads to: the process
    ran to its end, or an exception came out of the launch, of reading
    its output or of waiting for it (after [lines] had been read). *)
Inductive proc_outcome : Type :=
| Exited (lines : list string) (returncode : Z)
| Crashed (lines : list string) (e : exn).

(** The [CompletedProcess] of [subprocess.run(..., capture_output=True)]. *)
Record completed : Type := { returncode : Z; stdout : string; stderr : string }.

Inductive event : Type :=
| EPrint (s : string)
| ELog (msg : string)
| ELogError (msg : string)
| EProgress (idx : nat) (label : string)
| EWhich (cmd : string) (found : bool)
| EMakedirs (path : string) (r : option exn)
| EExists (path : string) (b : bool)
| EIsFile (path : string) (b : bool)
| EGlob (pattern : string) (found : list string)
| ERmtree (path : string) (r : option exn)
| EUrlRetrieve (url path : string) (r : option exn)
| ESubprocessRun (cmd : list string) (r : completed + exn)
| EPopen (cmd : list string) (cwd : option string) (shell : bool) (r : proc_outcome)
| ERemove (path : string) (r : option exn)
| EInput (prompt : string) (line : option string).

Definition history := list event.

Record World : Type := {
  (* library functions of the platform *)
  path_join : string -> string -> string;          (* os.path.join *)
  basename : string -> string;                     (* os.path.basename *)
  py_int : string -> option Z;                     (* int(s); None: ValueError *)
  sys_executable : string;                         (* sys.executable *)
  gettempdir : string;                             (* tempfile.gettempdir() *)
  (* the environment, asked after a given history; None: no exception *)
  which : history -> string -> bool;               (* shutil.which(cmd) is not None *)
  makedirs : history -> string -> option exn;      (* os.makedirs(p, exist_ok=True) *)
  path_exists : history -> string -> bool;         (* os.path.exists *)
  isfile : history -> string -> bool;              (* os.path.isfile *)
  glob : history -> string -> list string;         (* glob.glob *)
  rmtree : history -> string -> option exn;        (* shutil.rmtree *)
  urlretrieve : history -> string -> string -> option exn;
  subprocess_run : history -> list string -> completed + exn;
  popen : history -> list string -> option string -> bool -> proc_outcome;
  os_remove : history -> string -> option exn
}.

(** The state threaded through the script: the history, the lines still
    to be read from standard input, and the local [step_idx] of
    [do_workflow]. *)
Record State : Type := {
  hist : history;
  stdin : list string;
  step_idx : nat
}.

Definition record (e : event) (s : State) : State :=
  {| hist := hist s ++ [e]; stdin := stdin s; step_idx := step_idx s |}.

(* ================================================================== *)
(** ** Control flow

    A statement ends normally, leaves the enclosing function with
    [return], ends the current loop iteration with [continue], raises an
    exception, or never ends. *)
(* ================================================================== *)

Inductive signal (R A : Type) : Type :=
| Normal (a : A)
| Return (r : R)
| Continue
| Raise (e : exn)
| Diverge.

Arguments Normal {R A} a.
Arguments Return {R A} r.
Arguments Continue {R A}.
Arguments Raise {R A} e.
Arguments Diverge {R A}.

(** A statement inside a function that returns an [R]. *)
Definition M (R A : Type) : Type := State -> signal R A * State.

Definition ret {R A} (a : A) : M R A := fun s => (Normal a, s).

Definition bind {R A B} (m : M R A) (k : A -> M R B) : M R B := fun s =>
  match m s with
  | (Normal a, s') => k a s'
  | (Return r, s') => (Return r, s')
  | (Continue, s') => (Continue, s')
  | (Raise e, s') => (Raise e, s')
  | (Diverge, s') => (Diverge, s')
  end.

Notation "x <- m ;; k" := (bind m (fun x => k))
  (at level 61, m at next level, right associativity).
Notation "m ;; k" := (bind m (fun _ => k))
  (at level 61, right associativity).

Definition return_ {R A} (r : R) : M R A := fun s => (Return r, s).
Definition continue_ {R A} : M R A := fun s => (Continue, s).
Definition raise {R A} (e : exn) : M R A := fun s => (Raise e, s).
Definition diverge {R A} : M R A := fun s => (Diverge, s).

Definition when {R} (c : bool) (m : M R unit) : M R unit :=
  if c then m else ret tt.

(** [try: m except Exception as e: h e]. *)
Definition try_except {R A} (m : M R A) (h : exn -> M R A) : M R A := fun s =>
  match m s with
  | (Raise e, s') => h e s'
  | other => other
  end.

(** [for x in xs: body x]. *)
Fixpoint for_ {R X} (xs : list X) (body : X -> M R unit) (s : State)
  : signal R unit * State :=
  match xs with
  | [] => (Normal tt, s)
  | x :: rest =>
      match body x s with
      | (Normal _, s') => for_ rest body s'
      | (Continue, s') => for_ rest body s'
      | other => other
      end
  end.

(** [range(a, b)]. *)
Definition range (a b : nat) : list nat := seq a (b - a).

(** [enumerate(l)]. *)
Definition enumerate {X} (l : list X) : list (nat * X) :=
  combine (seq 0 (length l)) l.

Definition stray_continue : exn :=
  {| exn_str := "'continue' not properly in loop"; exn_tb := "" |}.

(** Calling a function: the value is the one of its [return], or the one
    its body ends with. *)
Definition call {R R'} (body : M R' R') : M R R' := fun s =>
  match body s with
  | (Normal r, s') => (Normal r, s')
  | (Return r, s') => (Normal r, s')
  | (Continue, s') => (Raise stray_continue, s')
  | (Raise e, s') => (Raise e, s')
  | (Diverge, s') => (Diverge, s')
  end.

(* ================================================================== *)
(** ** The script *)
(* ================================================================== *)

Definition nl : string := String (ascii_of_nat 10) EmptyString.

Definition WORKDIR : string := "C:\Hem4V".

Definition WORKFLOW_STEPS : list string :=
  [ "Tworzenie folderu roboczego";
    "Sprawdzanie/zainstalowanie Gita";
    "Klonowanie repozytorium";
    "Instalacja zależności";
    "Uruchomienie projektu" ].

Definition MAX_ATTEMPTS : nat := 2.

Definition eof_error : exn :=
  {| exn_str := "EOF when reading a line"; exn_tb := "" |}.

Definition value_error (s : string) : exn :=
  {| exn_str := "invalid literal for int() with base 10: " +++ s; exn_tb := "" |}.

(** Truth value of [None], of a string and of an optional string. *)
Definition nonempty (s : string) : bool :=
  match s with EmptyString => false | String _ _ => true end.

Definition truthy (o : option string) : bool :=
  match o with Some s => nonempty s | None => false end.

Section Script.

Variable w : World.

Section Primitives.

Context {R : Type}.

Definition emit (e : event) : M R unit := fun s => (Normal tt, record e s).

(** [print(s)]. *)
Definition print (s : string) : M R unit := emit (EPrint s).

(** [log(msg)], lines 32-36: the line goes to the console and to the
    log file, with a time stamp in front that the model leaves out;
    [write_logfile] swallows its own failures. *)
Definition log (msg : string) : M R unit := emit (ELog msg).

(** [log_error(msg)], lines 38-44. *)
Definition log_error (msg : string) : M R unit := emit (ELogError msg).

(** A call that asks the world and cannot raise. *)
Definition ask {A} (oracle : history -> A) (ev : A -> event) : M R A :=
  fun s => let a := oracle (hist s) in (Normal a, record (ev a) s).

(** A call that changes the world and may raise. *)
Definition act (oracle : history -> option exn) (ev : option exn -> event)
  : M R unit :=
  fun s =>
    let r := oracle (hist s) in
    match r with
    | None => (Normal tt, record (ev r) s)
    | Some e => (Raise e, record (ev r) s)
    end.

Definition shutil_which (cmd : string) : M R bool :=
  ask (fun h => which w h cmd) (EWhich cmd).

Definition os_makedirs (path : string) : M R unit :=
  act (fun h => makedirs w h path) (EMakedirs path).

Definition os_path_exists (path : string) : M R bool :=
  ask (fun h => path_exists w h path) (EExists path).

Definition os_path_isfile (path : string) : M R bool :=
  ask (fun h => isfile w h path) (EIsFile path).

Definition glob_glob (pattern : string) : M R (list string) :=
  ask (fun h => glob w h pattern) (EGlob pattern).

Definition shutil_rmtree (path : string) : M R unit :=
  act (fun h => rmtree w h path) (ERmtree path).

Definition urllib_urlretrieve (url path : string) : M R unit :=
  act (fun h => urlretrieve w h url path) (EUrlRetrieve url path).

Definition os_remove_ (path : string) : M R unit :=
  act (fun h => os_remove w h path) (ERemove path).

(** [subprocess.run(cmd, check=False, capture_output=True, text=True)]. *)
Definition subprocess_run_ (cmd : list string) : M R completed :=
  fun s =>
    let r := subprocess_run w (hist s) cmd in
    match r with
    | inl p => (Normal p, record (ESubprocessRun cmd r) s)
    | inr e => (Raise e, record (ESubprocessRun cmd r) s)
    end.

(** [input(prompt)]: the next line of standard input, [EOFError] at
    its end. *)
Definition input_ (prompt : string) : M R string := fun s =>
  match stdin s with
  | [] => (Raise eof_error, record (EInput prompt None) s)
  | line :: rest =>
      (Normal line,
       {| hist := hist s ++ [EInput prompt (Some line)];
          stdin := rest; step_idx := step_idx s |})
  end.

(** [int(s)]. *)
Definition int_ (s : string) : M R Z :=
  match py_int w s with
  | Some z => ret z
  | None => raise (value_error s)
  end.

End Primitives.

(** [check_exe(cmd)], lines 46-47. *)
Definition check_exe {R} (cmd : string) : M R bool :=
  call (b <- shutil_which cmd ;; return_ b).

(** The body of the loop of [install_git], lines 53-81. *)
Definition install_git_attempt (git_url temp_path : string) (attempt : nat)
  : M bool unit :=
  try_except
    (log ("Próbuję pobrać Git (próba " +++ str_of_nat attempt +++ "/"
          +++ str_of_nat MAX_ATTEMPTS +++ "): " +++ git_url) ;;
     urllib_urlretrieve git_url temp_path ;;
     log ("Pobrano instalator do: " +++ temp_path) ;;
     log "Instaluję Git (tryb cichy)..." ;;
     proc <- subprocess_run_ [temp_path; "/VERYSILENT"; "/NORESTART"] ;;
     when (negb (returncode proc =? 0)%Z)
       (let error_msg :=
          "Błąd podczas instalacji Git! Kod wyjścia: "
          +++ str_of_Z (returncode proc) +++ nl
          +++ "stdout: " +++ strip (stdout proc) +++ nl
          +++ "stderr: " +++ strip (stderr proc) +++ nl in
        log_error error_msg ;;
        if (attempt =? MAX_ATTEMPTS)%nat then return_ false else continue_) ;;
     log "Git został zainstalowany." ;;
     os_remove_ temp_path ;;
     return_ true)
    (fun e =>
       let error_msg :=
         "Błąd podczas pobierania/instalacji Git: " +++ exn_str e +++ nl
         +++ "Szczegóły błędu:" +++ nl +++ exn_tb e in
       log_error error_msg ;;
       when (attempt =? MAX_ATTEMPTS)%nat (return_ false)).

(** [install_git()], lines 49-82. *)
Definition install_git {R} : M R bool :=
  call
    (let git_url :=
       "https://github.com/git-for-windows/git/releases/latest/download/Git-64-bit.exe" in
     let temp_path := path_join w (gettempdir w) "Git-64-bit.exe" in
     for_ (range 1 (MAX_ATTEMPTS + 1)) (install_git_attempt git_url temp_path) ;;
     return_ false).

(** [ensure_git()], lines 84-89. *)
Definition ensure_git {R} : M R bool :=
  call
    (found <- check_exe "git" ;;
     if found then log "Git jest zainstalowany." ;; return_ true
     else (b <- install_git ;; return_ b)).

(** [ensure_python()], lines 91-98. *)
Definition ensure_python {R} : M R bool :=
  call
    (found <- check_exe "python" ;;
     if found then log "Python jest zainstalowany." ;; return_ true
     else
       let msg := "Python nie jest zainstalowany! Przerwij i doinstaluj Pythona." in
       log_error msg ;;
       return_ false).

(** [ensure_npm()], lines 100-107. *)
Definition ensure_npm {R} : M R bool :=
  call
    (found <- check_exe "npm" ;;
     if found then log "Node.js (npm) jest zainstalowany." ;; return_ true
     else
       let msg := "Node.js / npm nie jest zainstalowany! Przerwij i doinstaluj Node.js." in
       log_error msg ;;
       return_ false).

(** Lines 113-116 of [run_cmd]: launch the process, log each line of its
    output as it comes, wait for its end.  The value is
    [proc.returncode]. *)
Definition popen_wait {R} (cmd : list string) (cwd : option string)
  (shell : bool) : M R Z := fun s =>
  let r := popen w (hist s) cmd cwd shell in
  let s1 := record (EPopen cmd cwd shell r) s in
  match r with
  | Exited lines rc =>
      (for_ lines (fun line => log (rstrip_ws line)) ;; ret rc) s1
  | Crashed lines e =>
      (for_ lines (fun line => log (rstrip_ws line)) ;; raise e) s1
  end.

(** The body of the loop of [run_cmd], lines 112-131. *)
Definition run_cmd_attempt (cmd : list string) (cwd : option string)
  (shell : bool) (attempt : nat) : M Z unit :=
  try_except
    (rc <- popen_wait cmd cwd shell ;;
     when (negb (rc =? 0)%Z)
       (let error_msg := "Błąd! Kod wyjścia: " +++ str_of_Z rc in
        log_error error_msg ;;
        if (attempt =? MAX_ATTEMPTS)%nat then return_ rc
        else
          log ("Ponawiam próbę (" +++ str_of_nat (attempt + 1) +++ "/"
               +++ str_of_nat MAX_ATTEMPTS +++ ") ...") ;;
          continue_) ;;
     return_ 0%Z)
    (fun e =>
       let error_msg :=
         "Błąd podczas uruchamiania polecenia: " +++ exn_str e +++ nl
         +++ "Szczegóły błędu:" +++ nl +++ exn_tb e in
       log_error error_msg ;;
       when (attempt =? MAX_ATTEMPTS)%nat (return_ (-1)%Z)).

(** [run_cmd(cmd, cwd=None, shell=False)], lines 109-132. *)
Definition run_cmd {R} (cmd : list string) (cwd : option string)
  (shell : bool) : M R Z :=
  call
    (log ("Uruchamiam: " +++ join_space cmd) ;;
     for_ (range 1 (MAX_ATTEMPTS + 1)) (run_cmd_attempt cmd cwd shell) ;;
     return_ (-1)%Z).

(** The body of the [while True] loop of [find_python_entrypoint],
    lines 154-160. *)
Definition ask_choice (pyfiles : list string) : M (option string) unit :=
  try_except
    (line <- input_ "Podaj numer pliku do uruchomienia: " ;;
     choice <- int_ line ;;
     when ((1 <=? choice)%Z && (choice <=? Z.of_nat (length pyfiles))%Z)
       (return_ (Some (nth (Z.to_nat (choice - 1)) pyfiles EmptyString))))
    (fun _ => ret tt) ;;
  print "Nieprawidłowy wybór.".

(** [while True: ask_choice].  At the end of standard input [input]
    raises [EOFError], which the loop swallows like any other
    exception: from there on every iteration fails the same way and the
    loop never ends.  So the loop is unrolled [n] times, and
    [find_python_entrypoint] takes for [n] the number of pending lines
    plus one. *)
Fixpoint choice_loop {A} (pyfiles : list string) (n : nat)
  : M (option string) A :=
  match n with
  | O => diverge
  | S n' => ask_choice pyfiles ;; choice_loop pyfiles n'
  end.

(** [find_python_entrypoint(target_dir)], lines 140-162. *)
Definition find_python_entrypoint {R} (target_dir : string)
  : M R (option string) :=
  call
    (let candidates := ["main.py"; "app.py"; "index.py"] in
     for_ candidates
       (fun fname =>
          let path := path_join w target_dir fname in
          found <- os_path_isfile path ;;
          when found (return_ (Some fname))) ;;
     found <- glob_glob (path_join w target_dir "*.py") ;;
     let pyfiles := map (basename w) found in
     if (length pyfiles =? 1)%nat then return_ (Some (nth 0 pyfiles EmptyString))
     else if (1 <? length pyfiles)%nat then
       print "Nie znaleziono jednoznacznego pliku startowego. Możliwe pliki:" ;;
       for_ (enumerate pyfiles)
         (fun p => print (str_of_nat (fst p + 1) +++ ". " +++ snd p)) ;;
       (fun s => choice_loop pyfiles (S (length (stdin s))) s)
     else return_ None).

(** The nested [progress()] of [do_workflow], lines 167-169.  The
    percentage it prints is a function of [step_idx] and is left out. *)
Definition progress {R} : M R unit := fun s =>
  let label :=
    if (0 <? step_idx s)%nat then nth (step_idx s - 1) WORKFLOW_STEPS EmptyString
    else EmptyString in
  emit (EProgress (step_idx s) label) s.

Definition set_step_idx {R} (n : nat) : M R unit := fun s =>
  (Normal tt, {| hist := hist s; stdin := stdin s; step_idx := n |}).

(** [step_idx += 1]. *)
Definition incr_step_idx {R} : M R unit := fun s =>
  set_step_idx (step_idx s + 1) s.

(** Step 1 of [do_workflow], lines 174-175. *)
Definition step_workdir : M unit unit :=
  log ("Tworzę folder roboczy: " +++ WORKDIR) ;;
  os_makedirs WORKDIR.

(** Step 2, lines 180-183. *)
Definition step_git : M unit unit :=
  log "Sprawdzam/zainstaluję Git..." ;;
  ok <- ensure_git ;;
  when (negb ok)
    (log_error "Nie udało się zainstalować Git! Przerwij i popraw środowisko." ;;
     return_ tt).

(** Step 3, lines 190-203. *)
Definition step_clone (repo_url target_dir : string) : M unit unit :=
  there <- os_path_exists target_dir ;;
  when there
    (log ("Usuwam istniejący folder " +++ target_dir +++ " ...") ;;
     try_except
       (shutil_rmtree target_dir)
       (fun e =>
          let error_msg := "Nie mogę usunąć folderu: " +++ exn_str e in
          log_error error_msg ;;
          return_ tt)) ;;
  log "Klonuję repozytorium..." ;;
  exit_code <- run_cmd ["git"; "clone"; repo_url] (Some WORKDIR) false ;;
  when (negb (exit_code =? 0)%Z)
    (log_error "Błąd podczas klonowania repozytorium!" ;;
     return_ tt) ;;
  log ("Sklonowano do " +++ target_dir).

(** Step 4, lines 210-231. *)
Definition step_install (target_dir req_path pkg_path : string) : M unit unit :=
  is_req <- os_path_isfile req_path ;;
  if is_req then
    log "Wykryto projekt Python (requirements.txt)." ;;
    ok <- ensure_python ;;
    when (negb ok) (return_ tt) ;;
    log "Instaluję zależności: pip install -r requirements.txt" ;;
    exit_code <- run_cmd [sys_executable w; "-m"; "pip"; "install"; "-r"; "requirements.txt"]
                   (Some target_dir) false ;;
    when (negb (exit_code =? 0)%Z)
      (log_error "Błąd podczas instalowania zależności pip!" ;;
       return_ tt)
  else
    is_pkg <- os_path_isfile pkg_path ;;
    if is_pkg then
      log "Wykryto projekt Node.js (package.json)." ;;
      ok <- ensure_npm ;;
      when (negb ok) (return_ tt) ;;
      log "Instaluję zależności npm ..." ;;
      exit_code <- run_cmd ["npm"; "install"] (Some target_dir) false ;;
      when (negb (exit_code =? 0)%Z)
        (log_error "Błąd podczas npm install!" ;;
         return_ tt)
    else
      let msg := "Nie wykryto obsługiwanej technologii (brak requirements.txt / package.json)!" in
      log_error msg ;;
      return_ tt.

(** Step 5, lines 236-246. *)
Definition step_run (target_dir req_path pkg_path : string) : M unit unit :=
  is_req <- os_path_isfile req_path ;;
  if is_req then
    entry_py <- find_python_entrypoint target_dir ;;
    if truthy entry_py then
      let entry := match entry_py with Some f => f | None => EmptyString end in
      log ("Uruchamiam " +++ entry +++ " ...") ;;
      run_cmd [sys_executable w; entry] (Some target_dir) false ;;
      ret tt
    else
      let msg := "Nie znaleziono pliku startowego Python – projekt nie został uruchomiony." in
      log_error msg
  else
    is_pkg <- os_path_isfile pkg_path ;;
    when is_pkg
      (log "Uruchamiam npm start ..." ;;
       run_cmd ["npm"; "start"] (Some target_dir) true ;;
       ret tt).

(** [do_workflow(repo_url)], lines 164-253. *)
Definition do_workflow {R} (repo_url : string) : M R unit :=
  call
    (set_step_idx 0 ;;
     try_except
       (progress ;;
        step_workdir ;;
        incr_step_idx ;;
        progress ;;
        step_git ;;
        incr_step_idx ;;
        progress ;;
        let repo_name := parse_repo_name repo_url in
        let target_dir := path_join w WORKDIR repo_name in
        step_clone repo_url target_dir ;;
        incr_step_idx ;;
        progress ;;
        let req_path := path_join w target_dir "requirements.txt" in
        let pkg_path := path_join w target_dir "package.json" in
        step_install target_dir req_path pkg_path ;;
        incr_step_idx ;;
        progress ;;
        step_run target_dir req_path pkg_path ;;
        incr_step_idx ;;
        progress ;;
        log "Gotowe!")
       (fun e =>
          log_error ("Wyjątek krytyczny: " +++ exn_str e +++ nl +++ exn_tb e))).

(** [main()], lines 255-264, with [sys.argv] as its argument. *)
Definition main {R} (argv : list string) : M R unit :=
  call
    (print "HEM4V – Rozrusznik projektów (wersja terminalowa)" ;;
     repo_url <-
       (if (1 <? length argv)%nat then ret (strip (nth 1 argv EmptyString))
        else
          line <- input_ "Podaj link do repozytorium GitHub: " ;;
          ret (strip line)) ;;
     when (negb (nonempty repo_url) || negb (startswith repo_url "http"))
       (log_error "Podaj poprawny link do repozytorium GitHub (https://...)" ;;
        return_ tt) ;;
     do_workflow repo_url).

End Script.

(* ================================================================== *)
(** ** Sample worlds

    A world that follows a script: which tools are on the path, which
    files the clone has, what the [n]-th process launch, download,
    installer run and file removal lead to. *)
(* ================================================================== *)

Definition is_popen (e : event) : bool :=
  match e with EPopen _ _ _ _ => true | _ => false end.
Definition is_download (e : event) : bool :=
  match e with EUrlRetrieve _ _ _ => true | _ => false end.
Definition is_install (e : event) : bool :=
  match e with ESubprocessRun _ _ => true | _ => false end.
Definition is_remove (e : event) : bool :=
  match e with ERemove _ _ => true | _ => false end.

Definition count (p : event -> bool) (h : history) : nat := length (filter p h).

Definition mem (x : string) (l : list string) : bool := existsb (String.eqb x) l.

Definition digit_value (c : ascii) : option Z :=
  let n := nat_of_ascii c in
  if ((48 <=? n) && (n <=? 57))%nat then Some (Z.of_nat (n - 48)) else None.

Fixpoint digits_value (acc : Z) (s : string) : option Z :=
  match s with
  | EmptyString => Some acc
  | String c s' =>
      match digit_value c with
      | Some d => digits_value (10 * acc + d) s'
      | None => None
      end
  end.

(** [int] on plain decimal numerals. *)
Definition sample_int (s : string) : option Z :=
  match s with
  | EmptyString => None
  | _ => digits_value 0 s
  end.

Definition ok_process : proc_outcome := Exited [] 0.
Definition failing_process (rc : Z) : proc_outcome := Exited [] rc.
Definition ok_install : completed + exn :=
  inl {| returncode := 0; stdout := ""; stderr := "" |}.
Definition failing_install (rc : Z) : completed + exn :=
  inl {| returncode := rc; stdout := ""; stderr := "" |}.
Definition some_error (msg : string) : exn := {| exn_str := msg; exn_tb := "" |}.

Record Scenario : Type := {
  tools : list string;
  files : list string;
  py_files : list string;
  launches : list proc_outcome;
  downloads : list (option exn);
  installs : list (completed + exn);
  removals : list (option exn)
}.

Definition scripted (sc : Scenario) : World :=
  {| path_join := fun a b => a +++ "\" +++ b;
     basename := fun p => last_item (split "\"%char p);
     py_int := sample_int;
     sys_executable := "python.exe";
     gettempdir := "C:\Temp";
     which := fun _ cmd => mem cmd (tools sc);
     makedirs := fun _ _ => None;
     path_exists := fun _ _ => false;
     isfile := fun _ p => mem p (files sc);
     glob := fun _ _ => py_files sc;
     rmtree := fun _ _ => None;
     urlretrieve := fun h _ _ => nth (count is_download h) (downloads sc) None;
     subprocess_run := fun h _ => nth (count is_install h) (installs sc) ok_install;
     popen := fun h _ _ _ => nth (count is_popen h) (launches sc) ok_process;
     os_remove := fun h _ => nth (count is_remove h) (removals sc) None |}.

Definition start (lines : list string) : State :=
  {| hist := []; stdin := lines; step_idx := 0 |}.

(* ================================================================== *)
(** ** Vocabulary of the statements *)
(* ================================================================== *)

(** The state after some more events. *)
Definition extend (s : State) (evs : list event) : State :=
  {| hist := hist s ++ evs; stdin := stdin s; step_idx := step_idx s |}.

(** Every character of [s] satisfies [p]. *)
Fixpoint all_chars (p : ascii -> bool) (s : string) : bool :=
  match s with
  | EmptyString => true
  | String c s' => p c && all_chars p s'
  end.

(** [c] occurs in [s]. *)
Fixpoint has_char (c : ascii) (s : string) : bool :=
  match s with
  | EmptyString => false
  | String a s' => Ascii.eqb a c || has_char c s'
  end.

(** What [main] prints first, and its answer to a text it does not take
    for a URL. *)
Definition banner : event :=
  EPrint "HEM4V – Rozrusznik projektów (wersja terminalowa)".

Definition bad_url : event :=
  ELogError "Podaj poprawny link do repozytorium GitHub (https://...)".

(** Events that only write to the console and the log file. *)
Definition is_console (e : event) : bool :=
  match e with
  | EPrint _ | ELog _ | ELogError _ => true
  | _ => false
  end.

(** The outcomes of the process launches among some events, in order. *)
Fixpoint launched (evs : list event) : list proc_outcome :=
  match evs with
  | [] => []
  | EPopen _ _ _ o :: rest => o :: launched rest
  | _ :: rest => launched rest
  end.

Definition exits_zero (o : proc_outcome) : bool :=
  match o with
  | Exited _ rc => (rc =? 0)%Z
  | Crashed _ _ => false
  end.

Definition exits_nonzero (o : proc_outcome) : bool :=
  match o with
  | Exited _ rc => negb (rc =? 0)%Z
  | Crashed _ _ => false
  end.

Definition crashed (o : proc_outcome) : bool :=
  match o with
  | Exited _ _ => false
  | Crashed _ _ => true
  end.

(** The lines a process wrote, as [run_cmd] logs them. *)
Definition logged_lines (o : proc_outcome) : list event :=
  match o with
  | Exited lines _ | Crashed lines _ => map (fun line => ELog (rstrip_ws line)) lines
  end.

(** An event of [run_cmd cmd cwd shell]. *)
Definition run_cmd_event (cmd : list string) (cwd : option string) (shell : bool)
  (e : event) : Prop :=
  is_console e = true \/ exists o, e = EPopen cmd cwd shell o.

(** What [run_cmd] returns when [o] is the outcome of its last attempt. *)
Definition status (o : proc_outcome) : Z :=
  match o with
  | Exited _ rc => rc
  | Crashed _ _ => (-1)%Z
  end.

(** Three worlds for the value [-1] of [run_cmd].  In the first the
    executable cannot be launched.  In the second the process is launched
    and writes a line, and reading its output then raises.  In the third
    nothing raises: the process runs to its end and reports the return
    code [-1], as [Popen.returncode] does for a child that a POSIX system
    ended with signal 1. *)
Definition cannot_launch : World :=
  scripted {| tools := ["git"]; files := []; py_files := [];
              launches := [Crashed [] (some_error "[WinError 2]");
                           Crashed [] (some_error "[WinError 2]")];
              downloads := []; installs := []; removals := [] |}.

Definition breaks_while_reading : World :=
  scripted {| tools := ["git"]; files := []; py_files := [];
              launches := [Crashed ["Cloning into app..."] (some_error "codec can't decode");
                           Crashed ["Cloning into app..."] (some_error "codec can't decode")];
              downloads := []; installs := []; removals := [] |}.

Definition ended_by_signal : World :=
  scripted {| tools := ["git"]; files := []; py_files := [];
              launches := [Exited [] (-1); Exited [] (-1)];
              downloads := []; installs := []; removals := [] |}.

(** Cloning a sample repository in a fresh state. *)
Definition sample_clone (w : World) : signal unit Z * State :=
  run_cmd w ["git"; "clone"; "https://host/org/app.git"] (Some WORKDIR) false
    (start []).

(** *** Installing Git *)

(** The local names of [install_git]. *)
Definition git_url : string :=
  "https://github.com/git-for-windows/git/releases/latest/download/Git-64-bit.exe".

Definition temp_path (w : World) : string :=
  path_join w (gettempdir w) "Git-64-bit.exe".

Definition installer_cmd (w : World) : list string :=
  [temp_path w; "/VERYSILENT"; "/NORESTART"].

(** Its messages. *)
Definition trying_msg (attempt : nat) : string :=
  "Próbuję pobrać Git (próba " +++ str_of_nat attempt +++ "/"
  +++ str_of_nat MAX_ATTEMPTS +++ "): " +++ git_url.

Definition downloaded_msg (w : World) : string :=
  "Pobrano instalator do: " +++ temp_path w.

Definition exit_code_msg (proc : completed) : string :=
  "Błąd podczas instalacji Git! Kod wyjścia: "
  +++ str_of_Z (returncode proc) +++ nl
  +++ "stdout: " +++ strip (stdout proc) +++ nl
  +++ "stderr: " +++ strip (stderr proc) +++ nl.

Definition exception_msg (e : exn) : string :=
  "Błąd podczas pobierania/instalacji Git: " +++ exn_str e +++ nl
  +++ "Szczegóły błędu:" +++ nl +++ exn_tb e.

(** The events of an attempt up to the launch of the installer. *)
Definition fetched (w : World) (attempt : nat) : list event :=
  [ELog (trying_msg attempt);
   EUrlRetrieve git_url (temp_path w) None;
   ELog (downloaded_msg w);
   ELog "Instaluję Git (tryb cichy)..."].

(** How an attempt that did not install Git ends: [install_git] gives up
    after the last one and goes on otherwise. *)
Definition give_up_or_go_on (attempt : nat) : signal bool unit :=
  if (attempt =? MAX_ATTEMPTS)%nat then Return false else Normal tt.

(** One turn of the loop of [install_git]: the five ways it can go, with
    the events it adds and the way it ends. *)
Inductive attempt_shape (w : World) (attempt : nat)
  : signal bool unit -> list event -> Prop :=
| download_failed (e : exn) :
    attempt_shape w attempt (give_up_or_go_on attempt)
      [ELog (trying_msg attempt);
       EUrlRetrieve git_url (temp_path w) (Some e);
       ELogError (exception_msg e)]
| installer_raised (e : exn) :
    attempt_shape w attempt (give_up_or_go_on attempt)
      (fetched w attempt ++
       [ESubprocessRun (installer_cmd w) (inr e);
        ELogError (exception_msg e)])
| installer_failed (proc : completed) :
    returncode proc <> 0%Z ->
    attempt_shape w attempt
      (if (attempt =? MAX_ATTEMPTS)%nat then Return false else Continue)
      (fetched w attempt ++
       [ESubprocessRun (installer_cmd w) (inl proc);
        ELogError (exit_code_msg proc)])
| removal_failed (proc : completed) (e : exn) :
    returncode proc = 0%Z ->
    attempt_shape w attempt (give_up_or_go_on attempt)
      (fetched w attempt ++
       [ESubprocessRun (installer_cmd w) (inl proc);
        ELog "Git został zainstalowany.";
        ERemove (temp_path w) (Some e);
        ELogError (exception_msg e)])
| installed (proc : completed) :
    returncode proc = 0%Z ->
    attempt_shape w attempt (Return true)
      (fetched w attempt ++
       [ESubprocessRun (installer_cmd w) (inl proc);
        ELog "Git został zainstalowany.";
        ERemove (temp_path w) None]).

(** [install_git] from its attempt number [attempt] on. *)
Definition install_git_from (w : World) {R} (attempt : nat) : M R bool :=
  call
    (for_ (range attempt (MAX_ATTEMPTS + 1)) (install_git_attempt w git_url (temp_path w)) ;;
     return_ false).

(** The downloads, installer runs and removals among some events. *)
Fixpoint downloads_of (evs : list event) : list (option exn) :=
  match evs with
  | [] => []
  | EUrlRetrieve _ _ r :: rest => r :: downloads_of rest
  | _ :: rest => downloads_of rest
  end.

Fixpoint installs_of (evs : list event) : list (completed + exn) :=
  match evs with
  | [] => []
  | ESubprocessRun _ r :: rest => r :: installs_of rest
  | _ :: rest => installs_of rest
  end.

Fixpoint removals_of (evs : list event) : list (option exn) :=
  match evs with
  | [] => []
  | ERemove _ r :: rest => r :: removals_of rest
  | _ :: rest => removals_of rest
  end.

Definition succeeded (r : option exn) : bool :=
  match r with None => true | Some _ => false end.

Definition exited_zero (r : completed + exn) : bool :=
  match r with inl proc => (returncode proc =? 0)%Z | inr _ => false end.

(** An event of [install_git]: console output, the download of the
    installer to its temporary place, a direct run of the installer with
    the silent flags, the removal of the temporary file. *)
Definition install_git_event (w : World) (e : event) : Prop :=
  is_console e = true
  \/ (exists r, e = EUrlRetrieve git_url (temp_path w) r)
  \/ (exists r, e = ESubprocessRun (installer_cmd w) r)
  \/ (exists r, e = ERemove (temp_path w) r).

(** [install_git] as a whole: Git is installed by the first attempt, or
    the first attempt fails and the second one decides. *)
Inductive install_shape (w : World) : bool -> list event -> Prop :=
| first_attempt (evs : list event) :
    attempt_shape w 1 (Return true) evs ->
    install_shape w true evs
| second_attempt (sig : signal bool unit) (evs1 evs2 : list event) (b : bool) :
    attempt_shape w 1 sig evs1 ->
    sig <> Return true ->
    attempt_shape w 2 (Return b) evs2 ->
    install_shape w b (evs1 ++ evs2).

(** A world without Git where the installer works and the temporary file
    cannot be removed the first time (it is still in use). *)
Definition file_in_use : World :=
  scripted {| tools := []; files := []; py_files := []; launches := [];
              downloads := []; installs := [];
              removals := [Some (some_error "[WinError 32]")] |}.

(** The same when the file can never be removed. *)
Definition file_stays_in_use : World :=
  scripted {| tools := []; files := []; py_files := []; launches := [];
              downloads := []; installs := [];
              removals := [Some (some_error "[WinError 32]");
                           Some (some_error "[WinError 32]")] |}.

(** *** [ensure_git] as the specification words it

    Section 4.2: the installer is downloaded to a temporary place, the
    download being retried up to [MAX_ATTEMPTS] times; then it is run
    through the retry policy of [run_cmd] with the silent flags; then the
    temporary file is removed. *)

Definition download_as_specified (w : World) {R} : M R bool :=
  call
    (for_ (range 1 (MAX_ATTEMPTS + 1))
       (fun attempt =>
          try_except
            (log (trying_msg attempt) ;;
             urllib_urlretrieve w git_url (temp_path w) ;;
             log (downloaded_msg w) ;;
             return_ true)
            (fun e => log_error (exception_msg e))) ;;
     return_ false).

Definition install_git_as_specified (w : World) {R} : M R bool :=
  call
    (fetched_ok <- download_as_specified w ;;
     when (negb fetched_ok) (return_ false) ;;
     log "Instaluję Git (tryb cichy)..." ;;
     exit_code <- run_cmd w (installer_cmd w) None false ;;
     when (negb (exit_code =? 0)%Z) (return_ false) ;;
     log "Git został zainstalowany." ;;
     os_remove_ w (temp_path w) ;;
     return_ true).

Definition ensure_git_as_specified (w : World) {R} : M R bool :=
  call
    (found <- check_exe w "git" ;;
     if found then log "Git jest zainstalowany." ;; return_ true
     else (b <- install_git_as_specified w ;; return_ b)).

(** A world without Git where the first download fails, and where the
    installer exits with status 1 the first time it is run and with zero
    the second time, however it is launched. *)
Definition flaky_network : World :=
  scripted {| tools := []; files := []; py_files := [];
              launches := [failing_process 1; ok_process];
              downloads := [Some (some_error "timed out"); None];
              installs := [failing_install 1; ok_install];
              removals := [] |}.

(** *** Choosing the start file *)

Definition choice_prompt : string := "Podaj numer pliku do uruchomienia: ".

(** What [find_python_entrypoint] prints before it asks: the header and
    the numbered list of the files. *)
Definition listing (pyfiles : list string) : list event :=
  EPrint "Nie znaleziono jednoznacznego pliku startowego. Możliwe pliki:"
  :: map (fun p => EPrint (str_of_nat (fst p + 1) +++ ". " +++ snd p))
       (enumerate pyfiles).

(** A line that names one of the files by its number. *)
Definition valid_choice (w : World) (pyfiles : list string) (line : string) : bool :=
  match py_int w line with
  | Some choice => ((1 <=? choice) && (choice <=? Z.of_nat (length pyfiles)))%Z
  | None => false
  end.

(** The events of a line that is turned down. *)
Definition turned_down (line : string) : list event :=
  [EInput choice_prompt (Some line); EPrint "Nieprawidłowy wybór."].

(** The state after some events and after reading lines up to [rest]. *)
Definition advance (s : State) (evs : list event) (rest : list string) : State :=
  {| hist := hist s ++ evs; stdin := rest; step_idx := step_idx s |}.

Definition no_entry_msg : string :=
  "Nie znaleziono pliku startowego Python – projekt nie został uruchomiony.".

(** A project with three Python files, none of them with a usual name. *)
Definition three_scripts : World :=
  scripted {| tools := ["git"; "python"];
              files := ["C:\Hem4V\app\requirements.txt"];
              py_files := ["C:\Hem4V\app\fetch.py"; "C:\Hem4V\app\train.py";
                           "C:\Hem4V\app\report.py"];
              launches := []; downloads := []; installs := []; removals := [] |}.

(** *** The steps of the workflow *)

Definition is_progress (e : event) : bool :=
  match e with EProgress _ _ => true | _ => false end.

(** The local names of [do_workflow]. *)
Definition target_dir (w : World) (repo_url : string) : string :=
  path_join w WORKDIR (parse_repo_name repo_url).
Definition req_path (w : World) (repo_url : string) : string :=
  path_join w (target_dir w repo_url) "requirements.txt".
Definition pkg_path (w : World) (repo_url : string) : string :=
  path_join w (target_dir w repo_url) "package.json".

Definition clone_cmd (repo_url : string) : list string := ["git"; "clone"; repo_url].
Definition pip_cmd (w : World) : list string :=
  [sys_executable w; "-m"; "pip"; "install"; "-r"; "requirements.txt"].

(** The [n]-th step of [do_workflow], from 1 to 5. *)
Definition nth_step (w : World) (repo_url : string) (n : nat) : M unit unit :=
  match n with
  | 1 => step_workdir w
  | 2 => step_git w
  | 3 => step_clone w repo_url (target_dir w repo_url)
  | 4 => step_install w (target_dir w repo_url) (req_path w repo_url) (pkg_path w repo_url)
  | _ => step_run w (target_dir w repo_url) (req_path w repo_url) (pkg_path w repo_url)
  end.

(** [progress()] in a given state, and [step_idx += 1; progress()]. *)
Definition report (s : State) : State :=
  record (EProgress (step_idx s)
            (if (0 <? step_idx s)%nat
             then nth (step_idx s - 1) WORKFLOW_STEPS EmptyString
             else EmptyString)) s.

Definition count_step (s : State) : State :=
  report {| hist := hist s; stdin := stdin s; step_idx := step_idx s + 1 |}.

(** [completes w url s k t]: [do_workflow] started in [s], its first [k]
    steps ended normally, one after the other, and [t] is the state after
    the progress report that follows step [k]. *)
Inductive completes (w : World) (repo_url : string) (s : State)
  : nat -> State -> Prop :=
| completes_none :
    completes w repo_url s 0
      (report {| hist := hist s; stdin := stdin s; step_idx := 0 |})
| completes_next (k : nat) (t t' : State) :
    completes w repo_url s k t ->
    nth_step w repo_url (S k) t = (Normal tt, t') ->
    completes w repo_url s (S k) (count_step t').

Definition critical_msg (e : exn) : string :=
  "Wyjątek krytyczny: " +++ exn_str e +++ nl +++ exn_tb e.

(** How [do_workflow] ends when the step it is in ends with [sig] in
    state [t']: a [return] of the step leaves the function, an exception
    is reported by the handler, and a loop that never ends keeps the
    function from returning. *)
Definition aborted {R} (sig : signal unit unit) (t' : State)
  : option (signal R unit * State) :=
  match sig with
  | Normal _ => None
  | Return _ => Some (Normal tt, t')
  | Continue => Some (Raise stray_continue, t')
  | Raise e => Some (Normal tt, extend t' [ELogError (critical_msg e)])
  | Diverge => Some (Diverge, t')
  end.

(** What each step does to the outside world, besides writing to the
    console and the log file. *)
Inductive step_event (w : World) (repo_url : string) : nat -> event -> Prop :=
| ev_console (n : nat) (e : event) :
    is_console e = true -> step_event w repo_url n e
| ev_makedirs r : step_event w repo_url 1 (EMakedirs WORKDIR r)
| ev_which_git b : step_event w repo_url 2 (EWhich "git" b)
| ev_download r : step_event w repo_url 2 (EUrlRetrieve git_url (temp_path w) r)
| ev_installer r : step_event w repo_url 2 (ESubprocessRun (installer_cmd w) r)
| ev_remove r : step_event w repo_url 2 (ERemove (temp_path w) r)
| ev_exists b : step_event w repo_url 3 (EExists (target_dir w repo_url) b)
| ev_rmtree r : step_event w repo_url 3 (ERmtree (target_dir w repo_url) r)
| ev_clone o :
    step_event w repo_url 3 (EPopen (clone_cmd repo_url) (Some WORKDIR) false o)
| ev_manifest_req b : step_event w repo_url 4 (EIsFile (req_path w repo_url) b)
| ev_manifest_pkg b : step_event w repo_url 4 (EIsFile (pkg_path w repo_url) b)
| ev_which_python b : step_event w repo_url 4 (EWhich "python" b)
| ev_which_npm b : step_event w repo_url 4 (EWhich "npm" b)
| ev_pip o :
    step_event w repo_url 4
      (EPopen (pip_cmd w) (Some (target_dir w repo_url)) false o)
| ev_npm_install o :
    step_event w repo_url 4
      (EPopen ["npm"; "install"] (Some (target_dir w repo_url)) false o)
| ev_isfile p b : step_event w repo_url 5 (EIsFile p b)
| ev_glob p l : step_event w repo_url 5 (EGlob p l)
| ev_input p l : step_event w repo_url 5 (EInput p l)
| ev_python entry o :
    step_event w repo_url 5
      (EPopen [sys_executable w; entry] (Some (target_dir w repo_url)) false o)
| ev_npm_start o :
    step_event w repo_url 5
      (EPopen ["npm"; "start"] (Some (target_dir w repo_url)) true o).

Definition ends_with (evs : list event) (e : event) : Prop :=
  exists pre, evs = pre ++ [e].

(** How step [n] can end, and what its last event then is: only steps 1
    to 4 leave the function, each after reporting an error; only step 1
    lets an exception through; only step 5 may never end. *)
Definition step_ending (n : nat) (sig : signal unit unit) (evs : list event) : Prop :=
  match sig with
  | Normal _ => True
  | Return _ => n < 5 /\ exists msg, ends_with evs (ELogError msg)
  | Continue => False
  | Raise _ => n = 1
  | Diverge => n = 5 /\ ends_with evs (EPrint "Nieprawidłowy wybór.")
  end.

(** What a step leaves behind. *)
Definition step_summary (w : World) (repo_url : string) (n : nat)
  (s : State) (sig : signal unit unit) (s' : State) : Prop :=
  step_idx s' = step_idx s
  /\ exists evs,
       hist s' = hist s ++ evs
       /\ Forall (step_event w repo_url n) evs
       /\ step_ending n sig evs.

(** An event of [do_workflow]: a progress report or an event of one of
    its five steps. *)
Definition workflow_event (w : World) (repo_url : string) (e : event) : Prop :=
  is_progress e = true
  \/ exists n, 1 <= n <= 5 /\ step_event w repo_url n e.

(** What [do_workflow] may do to the machine.  Console output, look-ups
    and reading standard input are free.  So are [log] and [log_error],
    which stand for a line on the console and for [write_logfile] (lines
    24-30), which makes the logs folder and appends to the log file of the
    run.  Everything else is bound: which folder is made, what is removed,
    what is downloaded and where to, and which commands are run, where,
    and whether through the shell. *)
Definition within_scope (w : World) (repo_url : string) (e : event) : Prop :=
  match e with
  | EPrint _ | EProgress _ _ | ELog _ | ELogError _ => True
  | EWhich _ _ | EExists _ _ | EIsFile _ _ | EGlob _ _ | EInput _ _ => True
  | EMakedirs path _ => path = WORKDIR
  | ERmtree path _ => path = target_dir w repo_url
  | ERemove path _ => path = temp_path w
  | EUrlRetrieve url path _ => url = git_url /\ path = temp_path w
  | ESubprocessRun cmd _ => cmd = installer_cmd w
  | EPopen cmd cwd shell _ =>
      (cmd = clone_cmd repo_url /\ cwd = Some WORKDIR /\ shell = false)
      \/ (cwd = Some (target_dir w repo_url)
          /\ ((cmd = pip_cmd w /\ shell = false)
              \/ (cmd = ["npm"; "install"] /\ shell = false)
              \/ ((exists entry, cmd = [sys_executable w; entry]) /\ shell = false)
              \/ (cmd = ["npm"; "start"] /\ shell = true)))
  end.

(** *** Whether the operation of a step succeeded, going by its events *)

Definition made_folder (e : event) : bool :=
  match e with EMakedirs path None => (path =? WORKDIR)%string | _ => false end.

(** Git was found on the path, or its installer was removed, which
    [install_git] does only after the installer has exited with zero. *)
Definition git_available (e : event) : bool :=
  match e with
  | EWhich cmd true => (cmd =? "git")%string
  | ERemove _ None => true
  | _ => false
  end.

Definition removal_refused (e : event) : bool :=
  match e with ERmtree _ (Some _) => true | _ => false end.

(** A process was launched and the last one exited with zero. *)
Definition last_exit_zero (evs : list event) : bool :=
  match rev (launched evs) with
  | o :: _ => exits_zero o
  | [] => false
  end.

(** The work folder was made (step 1); Git is there (step 2); no stale
    folder was left in the way and the last attempt to clone exited with
    zero (step 3); the last attempt of the dependency installer (step 4),
    or of the project (step 5), exited with zero. *)
Definition operation_ok (n : nat) (evs : list event) : bool :=
  match n with
  | 1 => existsb made_folder evs
  | 2 => existsb git_available evs
  | 3 => negb (existsb removal_refused evs) && last_exit_zero evs
  | _ => last_exit_zero evs
  end.

(** The label that [progress()] prints when the counter is at [idx]. *)
Definition step_label (idx : nat) : string :=
  if (0 <? idx)%nat then nth (idx - 1) WORKFLOW_STEPS EmptyString else EmptyString.

(** The progress reports among some events: the counter and the label. *)
Fixpoint reports_of (evs : list event) : list (nat * string) :=
  match evs with
  | [] => []
  | EProgress idx label :: rest => (idx, label) :: reports_of rest
  | _ :: rest => reports_of rest
  end.

(** [steps_in_order w url k evs]: [evs] is the first report of progress,
    with the counter at zero, followed for each of the steps 1 to [k], in
    this order, by the events of the step and the report of progress with
    the counter at the number of the step.  The operation of each of the
    steps 1 to 4 has succeeded; nothing is asked of step 5. *)
Inductive steps_in_order (w : World) (repo_url : string)
  : nat -> list event -> Prop :=
| before_step_1 : steps_in_order w repo_url 0 [EProgress 0 EmptyString]
| after_step (k : nat) (evs step_evs : list event) :
    steps_in_order w repo_url k evs ->
    Forall (step_event w repo_url (S k)) step_evs ->
    (S k < 5 -> operation_ok (S k) step_evs = true) ->
    steps_in_order w repo_url (S k)
      (evs ++ step_evs ++ [EProgress (S k) (nth k WORKFLOW_STEPS EmptyString)]).

(** How a run that stops in step [n] goes on from the last report of
    progress: with events of step [n] alone, no later step being started.
    In steps 1 to 4 the operation of the step has failed, the function
    returns and the last event is the report of an error.  Step 5 stops
    the run only by asking for the start file for ever. *)
Definition halts_in {R} (w : World) (repo_url : string) (n : nat)
  (sig : signal R unit) (tail : list event) : Prop :=
  Forall (step_event w repo_url n) tail
  /\ reports_of tail = []
  /\ if (n <? 5)%nat
     then sig = Normal tt
          /\ operation_ok n tail = false
          /\ exists msg, ends_with tail (ELogError msg)
     else sig = Diverge /\ ends_with tail (EPrint "Nieprawidłowy wybór.").




(** *** More sample worlds *)

(** [w0] with other answers about the folders: what making the work
    folder leads to, whether the target folder is there, and what
    removing it leads to. *)
Definition with_folders (w0 : World) (made : option exn) (there : bool)
  (removed : option exn) : World :=
  {| path_join := path_join w0;
     basename := basename w0;
     py_int := py_int w0;
     sys_executable := sys_executable w0;
     gettempdir := gettempdir w0;
     which := which w0;
     makedirs := fun _ _ => made;
     path_exists := fun _ _ => there;
     isfile := isfile w0;
     glob := glob w0;
     rmtree := fun _ _ => removed;
     urlretrieve := urlretrieve w0;
     subprocess_run := subprocess_run w0;
     popen := popen w0;
     os_remove := os_remove w0 |}.

(** A machine with Git and Python where every command works and the
    clone is a Python project with a single script. *)
Definition healthy : World :=
  scripted {| tools := ["git"; "python"];
              files := ["C:\Hem4V\app\requirements.txt"];
              py_files := ["C:\Hem4V\app\server.py"];
              launches := []; downloads := []; installs := []; removals := [] |}.

(** The same machine when the work folder cannot be made. *)
Definition read_only_disk : World :=
  with_folders healthy (Some (some_error "[WinError 5]")) false None.

(** The same machine when an earlier clone is in the way and cannot be
    removed, and when it can. *)
Definition locked_clone : World :=
  with_folders healthy None true (Some (some_error "[WinError 32]")).

Definition old_clone : World := with_folders healthy None true None.

(** A Python project on a machine without [python] on the path. *)
Definition no_python : World :=
  scripted {| tools := ["git"];
              files := ["C:\Hem4V\app\requirements.txt"];
              py_files := [];
              launches := []; downloads := []; installs := []; removals := [] |}.

(** A Node project whose [npm start] fails. *)
Definition failing_node_app : World :=
  scripted {| tools := ["git"; "npm"];
              files := ["C:\Hem4V\app\package.json"];
              py_files := [];
              launches := [failing_process 1; failing_process 1];
              downloads := []; installs := []; removals := [] |}.

(** A Python project with a single script that exits with status 1 each
    time it is run, the clone and the installation of the dependencies
    having worked. *)
Definition failing_python_app : World :=
  scripted {| tools := ["git"; "python"];
              files := ["C:\Hem4V\app\requirements.txt"];
              py_files := ["C:\Hem4V\app\server.py"];
              launches := [ok_process; ok_process;
                           failing_process 1; failing_process 1];
              downloads := []; installs := []; removals := [] |}.

(** A Python project without any Python file. *)
Definition no_start_file : World :=
  scripted {| tools := ["git"; "python"];
              files := ["C:\Hem4V\app\requirements.txt"];
              py_files := [];
              launches := []; downloads := []; installs := []; removals := [] |}.



(* ================================================================== *)
(** * Properties *)
(* ================================================================== *)

(** ** Strings *)

Lemma append_empty_r (s : string) : s +++ EmptyString = s.
Proof. induction s as [|c s IH]; simpl; [reflexivity | now rewrite IH]. Qed.

Lemma append_assoc (a b c : string) : (a +++ b) +++ c = a +++ (b +++ c).
Proof. induction a as [|x a IH]; simpl; [reflexivity | now rewrite IH]. Qed.

Lemma append_length (a b : string) :
  String.length (a +++ b) = String.length a + String.length b.
Proof. induction a as [|x a IH]; simpl; [reflexivity | now rewrite IH]. Qed.

Lemma append_inv_l (a b c : string) : a +++ b = a +++ c -> b = c.
Proof.
  induction a as [|x a IH]; simpl; intros H; [exact H|].
  injection H as H. now apply IH.
Qed.

Lemma append_eq_empty (a b : string) :
  a +++ b = EmptyString -> a = EmptyString /\ b = EmptyString.
Proof. destruct a; simpl; intros H; [now split | discriminate]. Qed.

Lemma rstrip_split (p : ascii -> bool) (s : string) :
  exists tail, s = rstrip p s +++ tail /\ all_chars p tail = true.
Proof.
  induction s as [|c s (tail & Hs & Htail)]; simpl.
  - exists EmptyString. now split.
  - destruct (rstrip p s) as [|b r] eqn:Hr.
    + simpl in Hs. subst tail. destruct (p c) eqn:Hc.
      * exists (String c s). simpl. rewrite Hc, Htail. now split.
      * exists s. now split.
    + exists tail. split; [|exact Htail]. simpl. simpl in Hs. now rewrite <- Hs.
Qed.

Lemma rstrip_last (p : ascii -> bool) (s q : string) (c : ascii) :
  rstrip p s = q +++ String c EmptyString -> p c = false.
Proof.
  revert q. induction s as [|a s IH]; simpl; intros q H.
  - destruct q; discriminate.
  - destruct (rstrip p s) as [|b r] eqn:Hr.
    + destruct (p a) eqn:Ha.
      * destruct q; discriminate.
      * destruct q as [|x q]; simpl in H.
        -- now injection H as <-.
        -- injection H as _ H. destruct q; discriminate.
    + destruct q as [|x q]; simpl in H.
      * injection H as _ H. discriminate.
      * injection H as _ H. now apply (IH q).
Qed.

Lemma split_not_nil (sep : ascii) (s : string) : split sep s <> [].
Proof.
  destruct s as [|c s]; simpl; [discriminate|].
  destruct (Ascii.eqb c sep); [discriminate|].
  destruct (split sep s); discriminate.
Qed.

Lemma concat_split (sep : ascii) (s : string) :
  String.concat (String sep EmptyString) (split sep s) = s.
Proof.
  induction s as [|c s IH]; [reflexivity|].
  simpl split. destruct (Ascii.eqb_spec c sep) as [->|Hne].
  - pose proof (split_not_nil sep s) as Hnn.
    simpl. destruct (split sep s) as [|hd tl]; [contradiction|].
    simpl. f_equal. exact IH.
  - destruct (split sep s) as [|hd tl] eqn:Hsp.
    + now destruct (split_not_nil sep s).
    + simpl in *. destruct tl; simpl in *; now rewrite <- IH.
Qed.

Lemma split_no_sep (sep : ascii) (s : string) :
  Forall (fun seg => has_char sep seg = false) (split sep s).
Proof.
  induction s as [|c s IH]; simpl.
  - now constructor.
  - destruct (Ascii.eqb_spec c sep) as [->|Hne].
    + now constructor.
    + destruct (split sep s) as [|hd tl].
      * constructor; [|constructor]. simpl.
        now rewrite (proj2 (Ascii.eqb_neq c sep) Hne).
      * inversion IH as [|? ? Hhd Htl]; subst. constructor; [|exact Htl].
        simpl. now rewrite (proj2 (Ascii.eqb_neq c sep) Hne).
Qed.

Lemma concat_last (sep : string) (l : list string) :
  l <> [] ->
  exists pre, String.concat sep l = pre +++ last l EmptyString
              /\ (pre = EmptyString \/ exists q, pre = q +++ sep).
Proof.
  induction l as [|a l IH]; intros Hl; [contradiction|].
  destruct l as [|b l].
  - exists EmptyString. split; [reflexivity | now left].
  - destruct IH as (pre & Heq & Hpre); [discriminate|].
    exists (a +++ sep +++ pre). split.
    + change (String.concat sep (a :: b :: l))
        with (a +++ sep +++ String.concat sep (b :: l)).
      change (last (a :: b :: l) EmptyString) with (last (b :: l) EmptyString).
      rewrite Heq. now rewrite !append_assoc.
    + right. destruct Hpre as [->|(q & ->)].
      * exists a. now rewrite append_empty_r.
      * exists (a +++ sep +++ q). now rewrite !append_assoc.
Qed.

Lemma last_segment (sep : ascii) (s : string) :
  exists pre,
    s = pre +++ last_item (split sep s)
    /\ (pre = EmptyString \/ exists q, pre = q +++ String sep EmptyString)
    /\ has_char sep (last_item (split sep s)) = false.
Proof.
  destruct (concat_last (String sep EmptyString) (split sep s) (split_not_nil sep s))
    as (pre & Heq & Hpre).
  rewrite concat_split in Heq. exists pre. repeat split; try assumption.
  pose proof (split_no_sep sep s) as Hall.
  pose proof (split_not_nil sep s) as Hnn.
  unfold last_item. rewrite Forall_forall in Hall. apply Hall.
  destruct (split sep s) as [|a l]; [contradiction|].
  apply (@exists_last _ (a :: l)) in Hnn as (l' & x & ->).
  rewrite last_last. apply in_or_app. right. now left.
Qed.

Lemma substring_0_app (a b : string) : substring 0 (String.length a) (a +++ b) = a.
Proof. induction a as [|x a IH]; simpl; [now destruct b | now rewrite IH]. Qed.

Lemma substring_skip_app (a b : string) :
  substring (String.length a) (String.length b) (a +++ b) = b.
Proof.
  induction a as [|x a IH]; simpl; [|exact IH].
  rewrite <- (append_empty_r b) at 2. rewrite substring_0_app. reflexivity.
Qed.

Lemma substring_cut (n : nat) (s : string) :
  n <= String.length s ->
  s = substring 0 n s +++ substring n (String.length s - n) s.
Proof.
  revert n. induction s as [|c s IH]; intros n Hn; simpl in *.
  - destruct n; [reflexivity | lia].
  - destruct n as [|n]; simpl.
    + f_equal. rewrite <- (append_empty_r s) at 2.
      rewrite <- (substring_0_app s EmptyString) at 1.
      now rewrite append_empty_r.
    + f_equal. apply IH. lia.
Qed.

Lemma endswith_iff (s suf : string) :
  endswith s suf = true <-> exists t, s = t +++ suf.
Proof.
  unfold endswith. split.
  - intros H. apply andb_true_iff in H as [Hlen Heq].
    apply Nat.leb_le in Hlen. apply String.eqb_eq in Heq.
    exists (substring 0 (String.length s - String.length suf) s).
    pose proof (substring_cut (String.length s - String.length suf) s) as Hcut.
    replace (String.length s - (String.length s - String.length suf))
      with (String.length suf) in Hcut by lia.
    rewrite Heq in Hcut. apply Hcut. lia.
  - intros (t & ->). rewrite append_length. apply andb_true_iff. split.
    + apply Nat.leb_le. lia.
    + replace (String.length t + String.length suf - String.length suf)
        with (String.length t) by lia.
      rewrite substring_skip_app. apply String.eqb_refl.
Qed.

Lemma drop_end_app (t suf : string) :
  drop_end (String.length suf) (t +++ suf) = t.
Proof.
  unfold drop_end. rewrite append_length.
  replace (String.length t + String.length suf - String.length suf)
    with (String.length t) by lia.
  apply substring_0_app.
Qed.

Lemma startswith_iff (s pre : string) :
  startswith s pre = true <-> exists rest, s = pre +++ rest.
Proof.
  unfold startswith. revert s. induction pre as [|c pre IH]; intros s.
  - split; [intros _; now exists s | now destruct s].
  - destruct s as [|a s]; simpl;
      [split; [discriminate | intros (r & H); discriminate]|].
    destruct (ascii_dec c a) as [->|Hne].
    + rewrite IH. split; intros (r & H); exists r; [now rewrite H | now injection H].
    + split; [discriminate | intros (r & H); injection H as H _; congruence].
Qed.

(** ** The local name of a repository *)

(** C5.  [parse_repo_name] strips the trailing slashes of the URL, takes
    what follows the last remaining slash (the final path segment, which
    holds no slash), and removes one trailing [.git] from it when there is
    one: a segment [t.git] gives [t], whatever [t] ends with, and a
    segment without the suffix is returned as it is.  The sample URL gives
    [sample-app].  The function reads nothing but its argument, so a
    repeated call with the same URL gives the same name. *)
Theorem parse_repo_name_final_segment (repo_url : string) :
  exists stripped slashes pre seg,
    repo_url = stripped +++ slashes
    /\ all_chars (Ascii.eqb slash) slashes = true
    /\ (forall q, stripped <> q +++ "/")
    /\ stripped = pre +++ seg
    /\ (pre = "" \/ exists q, pre = q +++ "/")
    /\ has_char slash seg = false
    /\ (forall t, seg = t +++ ".git" -> parse_repo_name repo_url = t)
    /\ ((forall t, seg <> t +++ ".git") -> parse_repo_name repo_url = seg)
    /\ parse_repo_name "https://host/org/sample-app.git" = "sample-app"
    /\ parse_repo_name "https://host/org/sample-app.git.git/" = "sample-app.git"
    /\ (forall url', url' = repo_url -> parse_repo_name url' = parse_repo_name repo_url).
Proof.
  destruct (rstrip_split (Ascii.eqb slash) repo_url) as (slashes & Hurl & Hsl).
  destruct (last_segment slash (rstrip (Ascii.eqb slash) repo_url))
    as (pre & Hseg & Hpre & Hnone).
  exists (rstrip (Ascii.eqb slash) repo_url), slashes, pre,
    (last_item (split slash (rstrip (Ascii.eqb slash) repo_url))).
  repeat split; try assumption; try reflexivity.
  - intros q Hq. apply rstrip_last in Hq. discriminate.
  - intros t Ht. unfold parse_repo_name. cbv zeta.
    rewrite (proj2 (endswith_iff _ ".git")) by now exists t.
    rewrite Ht. apply (drop_end_app t ".git").
  - intros Hno. unfold parse_repo_name. cbv zeta.
    destruct (endswith _ ".git") eqn:He; [|reflexivity].
    apply endswith_iff in He as (t & Ht). now destruct (Hno t).
  - now intros url' ->.
Qed.

(** ** States and events *)

Lemma record_extend (e : event) (s : State) : record e s = extend s [e].
Proof. reflexivity. Qed.

Lemma extend_nil (s : State) : extend s [] = s.
Proof. destruct s. unfold extend. simpl. now rewrite app_nil_r. Qed.

Lemma extend_extend (s : State) (a b : list event) :
  extend (extend s a) b = extend s (a ++ b).
Proof. unfold extend. simpl. now rewrite app_assoc. Qed.

Lemma for_log_lines {R} (f : string -> string) (lines : list string) (s : State) :
  for_ (R:=R) lines (fun line => log (f line)) s
  = (Normal tt, extend s (map (fun line => ELog (f line)) lines)).
Proof.
  revert s. induction lines as [|l lines IH]; intros s; simpl.
  - now rewrite extend_nil.
  - unfold log at 1, emit at 1. rewrite IH, record_extend, extend_extend.
    reflexivity.
Qed.

(** ** The URL check of [main] *)

Lemma check_then_workflow (w : World) (url : string) (s1 : State) :
  ((when (negb (nonempty url) || negb (startswith url "http"))
      (log_error "Podaj poprawny link do repozytorium GitHub (https://...)" ;;
       return_ tt)) ;;
   do_workflow w url) s1
  = if startswith url "http" then do_workflow w (R:=unit) url s1
    else (Return tt, extend s1 [bad_url]).
Proof.
  destruct url as [|c url]; [reflexivity|].
  unfold when, nonempty, negb, orb, bind.
  destruct (startswith (String c url) "http"); [|reflexivity].
  unfold ret. reflexivity.
Qed.

Lemma main_accepts_http_prefix_aux {R} (w : World) (prog text : string)
  (h : history) (rest : list string) (i : nat) :
  let url := strip text in
  let from_argv := {| hist := h; stdin := rest; step_idx := i |} in
  let typed_in := {| hist := h; stdin := text :: rest; step_idx := i |} in
  let prompt := EInput "Podaj link do repozytorium GitHub: " (Some text) in
  main w (R:=R) [prog; text] from_argv
  = (if startswith url "http"
     then call (do_workflow w (R:=unit) url) (extend from_argv [banner])
     else (Normal tt, extend from_argv [banner; bad_url]))
  /\ main w (R:=R) [prog] typed_in
     = (if startswith url "http"
        then call (do_workflow w (R:=unit) url) (extend from_argv [banner; prompt])
        else (Normal tt, extend from_argv [banner; prompt; bad_url])).
Proof.
  intros url from_argv typed_in prompt.
  split.
  - unfold main, call at 1. unfold bind at 1 2.
    change (print _ from_argv) with (@Normal unit unit tt, extend from_argv [banner]).
    cbv iota beta. change (1 <? length [prog; text])%nat with true.
    cbv iota. unfold ret at 1. cbv iota beta.
    change (nth 1 [prog; text] EmptyString) with text. fold url.
    rewrite (check_then_workflow w url).
    destruct (startswith url "http"); [reflexivity|].
    now rewrite extend_extend.
  - unfold main, call at 1. unfold bind at 1 2.
    change (print _ typed_in) with (@Normal unit unit tt, extend typed_in [banner]).
    cbv iota beta. change (1 <? length [prog])%nat with false.
    cbv iota. unfold bind at 1, input_ at 1.
    change (stdin (extend typed_in [banner])) with (text :: rest).
    cbv iota beta. unfold ret at 1. cbv iota beta. fold url.
    match goal with
    | |- context [bind _ _ ?st] =>
        replace st with (extend from_argv [banner; prompt])
          by (unfold extend, typed_in, from_argv, prompt; simpl;
              now rewrite <- app_assoc)
    end.
    rewrite (check_then_workflow w url).
    destruct (startswith url "http"); [reflexivity|].
    now rewrite extend_extend.
Qed.

(** C10.  The check of [main] looks at the text it was given with the
    surrounding white space stripped.  It lets the text through exactly
    when it starts with the four characters [http] (such a text is not
    empty): then [do_workflow] is called with it, and nothing else was done
    before but printing the banner (and reading the line, when the URL was
    typed in).  Otherwise [main] reports the error and returns: no other
    interaction takes place.  [httpfoo] is let through. *)
Theorem main_accepts_http_prefix {R} (w : World) (prog text : string)
  (h : history) (rest : list string) (i : nat) :
  let url := strip text in
  let from_argv := {| hist := h; stdin := rest; step_idx := i |} in
  let typed_in := {| hist := h; stdin := text :: rest; step_idx := i |} in
  let prompt := EInput "Podaj link do repozytorium GitHub: " (Some text) in
  (startswith url "http" = true <-> exists tail, url = "http" +++ tail)
  /\ (startswith url "http" = true -> nonempty url = true)
  /\ main w (R:=R) [prog; text] from_argv
     = (if startswith url "http"
        then call (do_workflow w (R:=unit) url) (extend from_argv [banner])
        else (Normal tt, extend from_argv [banner; bad_url]))
  /\ main w (R:=R) [prog] typed_in
     = (if startswith url "http"
        then call (do_workflow w (R:=unit) url) (extend from_argv [banner; prompt])
        else (Normal tt, extend from_argv [banner; prompt; bad_url]))
  /\ startswith (strip "httpfoo") "http" = true
  /\ startswith (strip "git@github.com:org/app.git") "http" = false.
Proof.
  intros url from_argv typed_in prompt.
  split; [apply startswith_iff|].
  split; [intros H; apply startswith_iff in H as (tail & ->); reflexivity|].
  split; [|split; [|split; reflexivity]].
  - unfold main, call at 1. unfold bind at 1 2.
    change (print _ from_argv) with (@Normal unit unit tt, extend from_argv [banner]).
    cbv iota beta. change (1 <? length [prog; text])%nat with true.
    cbv iota. unfold ret at 1. cbv iota beta.
    change (nth 1 [prog; text] EmptyString) with text. fold url.
    rewrite (check_then_workflow w url).
    destruct (startswith url "http"); [reflexivity|].
    now rewrite extend_extend.
  - unfold main, call at 1. unfold bind at 1 2.
    change (print _ typed_in) with (@Normal unit unit tt, extend typed_in [banner]).
    cbv iota beta. change (1 <? length [prog])%nat with false.
    cbv iota. unfold bind at 1, input_ at 1.
    change (stdin (extend typed_in [banner])) with (text :: rest).
    cbv iota beta. unfold ret at 1. cbv iota beta. fold url.
    match goal with
    | |- context [bind _ _ ?st] =>
        replace st with (extend from_argv [banner; prompt])
          by (unfold extend, typed_in, from_argv, prompt; simpl;
              now rewrite <- app_assoc)
    end.
    rewrite (check_then_workflow w url).
    destruct (startswith url "http"); [reflexivity|].
    now rewrite extend_extend.
Qed.

(** ** Running a command *)

Section RunCmd.

Variable w : World.
Variables (cmd : list string) (cwd : option string) (shell : bool).

Lemma popen_wait_eq {R} (s : State) :
  popen_wait w (R:=R) cmd cwd shell s
  = let o := popen w (hist s) cmd cwd shell in
    (match o with Exited _ rc => Normal rc | Crashed _ e => Raise e end,
     extend s (EPopen cmd cwd shell o :: logged_lines o)).
Proof.
  unfold popen_wait. cbv zeta.
  destruct (popen w (hist s) cmd cwd shell) as [lines rc|lines e];
    unfold bind; rewrite for_log_lines, record_extend, extend_extend;
    reflexivity.
Qed.

Lemma run_cmd_attempt_eq (attempt : nat) (s : State) :
  run_cmd_attempt w cmd cwd shell attempt s
  = let o := popen w (hist s) cmd cwd shell in
    let launch := EPopen cmd cwd shell o :: logged_lines o in
    match o with
    | Exited _ rc =>
        if (rc =? 0)%Z then (Return 0%Z, extend s launch)
        else if (attempt =? MAX_ATTEMPTS)%nat
             then (Return rc,
                   extend s (launch ++ [ELogError ("Błąd! Kod wyjścia: " +++ str_of_Z rc)]))
             else (Continue,
                   extend s (launch ++
                     [ELogError ("Błąd! Kod wyjścia: " +++ str_of_Z rc);
                      ELog ("Ponawiam próbę (" +++ str_of_nat (attempt + 1) +++ "/"
                            +++ str_of_nat MAX_ATTEMPTS +++ ") ...")]))
    | Crashed _ e =>
        (if (attempt =? MAX_ATTEMPTS)%nat then Return (-1)%Z else Normal tt,
         extend s (launch ++
           [ELogError ("Błąd podczas uruchamiania polecenia: " +++ exn_str e +++ nl
                       +++ "Szczegóły błędu:" +++ nl +++ exn_tb e)]))
    end.
Proof.
  unfold run_cmd_attempt, try_except. unfold bind at 1.
  rewrite popen_wait_eq. cbv zeta.
  destruct (popen w (hist s) cmd cwd shell) as [lines rc|lines e].
  - unfold when, bind, return_, log_error, log, emit, continue_, ret.
    destruct (rc =? 0)%Z; simpl; [reflexivity|].
    destruct (attempt =? MAX_ATTEMPTS)%nat; simpl;
      rewrite ?record_extend, ?extend_extend; reflexivity.
  - unfold when, bind, return_, log_error, emit, ret.
    destruct (attempt =? MAX_ATTEMPTS)%nat; simpl;
      rewrite ?record_extend, ?extend_extend; reflexivity.
Qed.

Lemma launched_app (a b : list event) : launched (a ++ b) = launched a ++ launched b.
Proof.
  induction a as [|e a IH]; [reflexivity|].
  destruct e; simpl; rewrite ?IH; reflexivity.
Qed.

Lemma launched_console (l : list event) :
  forallb is_console l = true -> launched l = [].
Proof.
  induction l as [|e l IH]; [reflexivity|].
  simpl. intros H. apply andb_true_iff in H as [He Hl].
  destruct e; try discriminate; now apply IH.
Qed.

Lemma logged_lines_console (o : proc_outcome) :
  forallb is_console (logged_lines o) = true.
Proof.
  destruct o as [lines rc|lines e]; simpl;
    induction lines as [|l lines IH]; simpl; auto.
Qed.

Lemma console_run_cmd_event (l : list event) :
  forallb is_console l = true -> Forall (run_cmd_event cmd cwd shell) l.
Proof.
  intros H. apply Forall_forall. intros e He.
  left. rewrite forallb_forall in H. now apply H.
Qed.

Lemma run_cmd_unfold {R} (s : State) :
  run_cmd w (R:=R) cmd cwd shell s
  = match run_cmd_attempt w cmd cwd shell 1
            (extend s [ELog ("Uruchamiam: " +++ join_space cmd)]) with
    | (Return r, s') => (Normal r, s')
    | (Raise e, s') => (Raise e, s')
    | (Diverge, s') => (Diverge, s')
    | (_, s') =>
        match run_cmd_attempt w cmd cwd shell 2 s' with
        | (Return r, s'') => (Normal r, s'')
        | (Raise e, s'') => (Raise e, s'')
        | (Diverge, s'') => (Diverge, s'')
        | (_, s'') => (Normal (-1)%Z, s'')
        end
    end.
Proof.
  unfold run_cmd, call, bind, for_, range, log, emit, return_. simpl seq.
  rewrite record_extend.
  destruct (run_cmd_attempt w cmd cwd shell 1 _) as [[ | | | | ] s1];
    try reflexivity;
    destruct (run_cmd_attempt w cmd cwd shell 2 s1) as [[ | | | | ] s2];
    reflexivity.
Qed.

(** The two attempts of [run_cmd], spelled out. *)
Lemma run_cmd_cases {R} (s : State) :
  let start := ELog ("Uruchamiam: " +++ join_space cmd) in
  let o1 := popen w (hist s ++ [start]) cmd cwd shell in
  exists logs1,
    forallb is_console logs1 = true
    /\ let evs1 := start :: EPopen cmd cwd shell o1 :: logs1 in
       if exits_zero o1
       then run_cmd w (R:=R) cmd cwd shell s = (Normal 0%Z, extend s evs1)
       else
         let o2 := popen w (hist s ++ evs1) cmd cwd shell in
         exists logs2,
           forallb is_console logs2 = true
           /\ run_cmd w (R:=R) cmd cwd shell s
              = (Normal (status o2),
                 extend s (evs1 ++ EPopen cmd cwd shell o2 :: logs2)).
Proof.
  intros start o1. rewrite run_cmd_unfold, run_cmd_attempt_eq.
  fold start. change (hist (extend s [start])) with (hist s ++ [start]).
  fold o1. cbv zeta. change (1 =? MAX_ATTEMPTS)%nat with false. cbv iota.
  assert (Hsecond : forall logs1 : list event,
    let evs1 := start :: EPopen cmd cwd shell o1 :: logs1 in
    let o2 := popen w (hist s ++ evs1) cmd cwd shell in
    exists logs2,
      forallb is_console logs2 = true
      /\ match run_cmd_attempt w cmd cwd shell 2 (extend s evs1) with
         | (Return r, s'') => (@Normal R Z r, s'')
         | (Raise e, s'') => (Raise e, s'')
         | (Diverge, s'') => (Diverge, s'')
         | (_, s'') => (Normal (-1)%Z, s'')
         end
         = (Normal (status o2), extend s (evs1 ++ EPopen cmd cwd shell o2 :: logs2))).
  { intros logs1 evs1 o2. rewrite run_cmd_attempt_eq. cbv zeta.
    change (hist (extend s evs1)) with (hist s ++ evs1). fold o2.
    change (2 =? MAX_ATTEMPTS)%nat with true. cbv iota.
    destruct o2 as [lines2 rc2|lines2 e2].
    - destruct (rc2 =? 0)%Z eqn:Hrc2.
      + apply Z.eqb_eq in Hrc2. subst rc2.
        exists (logged_lines (Exited lines2 0)).
        split; [apply logged_lines_console|].
        now rewrite extend_extend.
      + eexists (logged_lines (Exited lines2 rc2) ++ [ELogError _]).
        split; [rewrite forallb_app, logged_lines_console; reflexivity|].
        now rewrite extend_extend.
    - eexists (logged_lines (Crashed lines2 e2) ++ [ELogError _]).
      split; [rewrite forallb_app, logged_lines_console; reflexivity|].
      now rewrite extend_extend. }
  destruct o1 as [lines1 rc1|lines1 e1] eqn:Ho1; unfold exits_zero.
  - destruct (rc1 =? 0)%Z eqn:Hrc1.
    + exists (logged_lines (Exited lines1 rc1)).
      split; [apply logged_lines_console|]. cbv zeta.
      now rewrite extend_extend.
    + eexists (logged_lines (Exited lines1 rc1) ++ [ELogError _; ELog _]).
      split; [rewrite forallb_app, logged_lines_console; reflexivity|].
      cbv zeta. rewrite extend_extend. apply Hsecond.
  - eexists (logged_lines (Crashed lines1 e1) ++ [ELogError _]).
    split; [rewrite forallb_app, logged_lines_console; reflexivity|].
    cbv zeta. rewrite extend_extend. apply Hsecond.
Qed.

(** [run_cmd] always returns; it launches the command once when the
    first attempt exits with zero, and twice otherwise. *)
Lemma run_cmd_summary {R} (s : State) :
  exists rc evs,
    run_cmd w (R:=R) cmd cwd shell s = (Normal rc, extend s evs)
    /\ Forall (run_cmd_event cmd cwd shell) evs
    /\ Forall (fun o => exists h, o = popen w h cmd cwd shell) (launched evs)
    /\ ((exists o1, launched evs = [o1] /\ exits_zero o1 = true /\ rc = 0%Z)
        \/ (exists o1 o2, launched evs = [o1; o2] /\ exits_zero o1 = false
                          /\ rc = status o2)).
Proof.
  destruct (run_cmd_cases (R:=R) s) as (logs1 & Hlogs1 & Hrun). cbv zeta in Hrun.
  set (start := ELog ("Uruchamiam: " +++ join_space cmd)) in *.
  set (o1 := popen w (hist s ++ [start]) cmd cwd shell) in *.
  destruct (exits_zero o1) eqn:Hz.
  - exists 0%Z, (start :: EPopen cmd cwd shell o1 :: logs1).
    split; [exact Hrun|]. split; [|split].
    + constructor; [now left|]. constructor; [right; now exists o1|].
      now apply console_run_cmd_event.
    + simpl. rewrite (launched_console logs1 Hlogs1).
      constructor; [now exists (hist s ++ [start]) | constructor].
    + left. exists o1. simpl. now rewrite (launched_console logs1 Hlogs1).
  - destruct Hrun as (logs2 & Hlogs2 & Hrun).
    set (evs1 := start :: EPopen cmd cwd shell o1 :: logs1) in *.
    set (o2 := popen w (hist s ++ evs1) cmd cwd shell) in *.
    exists (status o2), (evs1 ++ EPopen cmd cwd shell o2 :: logs2).
    assert (Hl : launched (evs1 ++ EPopen cmd cwd shell o2 :: logs2) = [o1; o2]).
    { rewrite launched_app. unfold evs1. simpl.
      now rewrite (launched_console logs1 Hlogs1), (launched_console logs2 Hlogs2). }
    split; [exact Hrun|]. split; [|split].
    + apply Forall_app. split.
      * constructor; [now left|]. constructor; [right; now exists o1|].
        now apply console_run_cmd_event.
      * constructor; [right; now exists o2|]. now apply console_run_cmd_event.
    + rewrite Hl. constructor; [now exists (hist s ++ [start])|].
      constructor; [now exists (hist s ++ evs1) | constructor].
    + right. now exists o1, o2.
Qed.

End RunCmd.

(** C2.  [run_cmd] always returns.  Among the events it adds, the launches
    are launches of the given command, at least one and at most
    [MAX_ATTEMPTS] (two) of them; a launch that exits with status zero is
    the last one, and the value is then zero; and when every launch exits
    with a status other than zero, there are [MAX_ATTEMPTS] of them and the
    value is the exit status of the last one. *)
Theorem run_cmd_bounded_retry {R} (w : World) (cmd : list string)
  (cwd : option string) (shell : bool) (s : State) :
  exists rc evs,
    run_cmd w (R:=R) cmd cwd shell s = (Normal rc, extend s evs)
    /\ Forall (run_cmd_event cmd cwd shell) evs
    /\ 1 <= length (launched evs) <= MAX_ATTEMPTS
    /\ (forall pre o post,
          launched evs = pre ++ o :: post -> exits_zero o = true ->
          post = [] /\ rc = 0%Z)
    /\ (forallb exits_nonzero (launched evs) = true ->
        length (launched evs) = MAX_ATTEMPTS
        /\ exists lines,
             last (launched evs) ok_process = Exited lines rc /\ rc <> 0%Z).
Proof.
  destruct (run_cmd_summary w cmd cwd shell (R:=R) s)
    as (rc & evs & Hrun & Hevs & _ & Hcases).
  exists rc, evs. split; [exact Hrun|]. split; [exact Hevs|].
  destruct Hcases as [(o1 & Hl & Hz & Hrc)|(o1 & o2 & Hl & Hz & Hrc)];
    rewrite Hl.
  - split; [simpl; unfold MAX_ATTEMPTS; lia|]. split.
    + intros pre o post Heq _. split; [|exact Hrc].
      destruct pre as [|x [|y pre]]; simpl in Heq; try discriminate.
      now injection Heq.
    + simpl. intros Hall. rewrite andb_true_r in Hall.
      destruct o1 as [lines rc1|]; simpl in *; [|discriminate].
      rewrite Hz in Hall. discriminate.
  - split; [simpl; unfold MAX_ATTEMPTS; lia|]. split.
    + intros pre o post Heq Ho. destruct pre as [|x [|y [|z pre]]]; simpl in Heq.
      * injection Heq as <- _. congruence.
      * injection Heq as _ <- <-. split; [reflexivity|].
        subst rc. destruct o2 as [lines rc2|]; simpl in *; [|discriminate].
        now apply Z.eqb_eq.
      * discriminate.
      * discriminate.
    + simpl. intros Hall. split; [reflexivity|].
      apply andb_true_iff in Hall as [_ Hall]. rewrite andb_true_r in Hall.
      destruct o2 as [lines rc2|]; simpl in *; [|discriminate].
      exists lines. subst rc. split; [reflexivity|].
      intros ->. discriminate.
Qed.

(** C7, as amended.  [run_cmd] treats an attempt in which an exception
    was raised (by the launch, by reading the output or by the wait) like
    one that exited with a status other than zero: the first launch is the
    one the world answers after the opening line, and after a first
    attempt of either kind the command is launched once more, the last of
    the [MAX_ATTEMPTS] attempts.  The value is the one of the last attempt:
    its exit status when it ran to its end, [-1] when it raised.  So the
    value is [-1] exactly when the last attempt raised or ran to its end
    with the return code [-1]. *)
Theorem run_cmd_sentinel {R} (w : World) (cmd : list string)
  (cwd : option string) (shell : bool) (s : State) :
  let start := ELog ("Uruchamiam: " +++ join_space cmd) in
  let o1 := popen w (hist s ++ [start]) cmd cwd shell in
  exists rc evs final,
    run_cmd w (R:=R) cmd cwd shell s = (Normal rc, extend s evs)
    /\ (exists rest, launched evs = o1 :: rest)
    /\ Forall (fun o => exists h, o = popen w h cmd cwd shell) (launched evs)
    /\ last (launched evs) ok_process = final
    /\ (crashed o1 = true \/ exits_nonzero o1 = true ->
        length (launched evs) = MAX_ATTEMPTS)
    /\ (exits_zero o1 = true -> launched evs = [o1])
    /\ rc = status final
    /\ (crashed final = true -> rc = (-1)%Z)
    /\ (rc = (-1)%Z <->
        crashed final = true \/ exists lines, final = Exited lines (-1)%Z).
Proof.
  intros start o1.
  destruct (run_cmd_cases w cmd cwd shell (R:=R) s) as (logs1 & Hlogs1 & Hrun).
  cbv zeta in Hrun. fold start in Hrun. fold o1 in Hrun.
  assert (Hstatus : forall final rc,
             rc = status final ->
             (crashed final = true -> rc = (-1)%Z)
             /\ (rc = (-1)%Z <->
                 crashed final = true \/ exists lines, final = Exited lines (-1)%Z)).
  { intros final rc ->. destruct final as [lines rc'|lines e]; simpl.
    - split; [discriminate|]. split.
      + intros ->. right. now exists lines.
      + intros [Hc|(l & Heq)]; [discriminate | now injection Heq].
    - split; [reflexivity|]. split; [now left | reflexivity]. }
  destruct (exits_zero o1) eqn:Hz.
  - exists 0%Z, (start :: EPopen cmd cwd shell o1 :: logs1), o1.
    assert (Hl : launched (start :: EPopen cmd cwd shell o1 :: logs1) = [o1])
      by (simpl; now rewrite (launched_console logs1 Hlogs1)).
    assert (Hrc : 0%Z = status o1).
    { destruct o1 as [lines rc1|]; simpl in *; [|discriminate].
      symmetry. now apply Z.eqb_eq. }
    split; [exact Hrun|]. rewrite Hl.
    split; [now exists []|].
    split; [constructor; [now exists (hist s ++ [start]) | constructor]|].
    split; [reflexivity|]. split.
    { intros [Hc|Hn]; destruct o1 as [lines rc1|]; simpl in *;
        try discriminate. rewrite Hz in Hn. discriminate. }
    split; [reflexivity|]. split; [exact Hrc|]. now apply Hstatus.
  - destruct Hrun as (logs2 & Hlogs2 & Hrun).
    set (evs1 := start :: EPopen cmd cwd shell o1 :: logs1) in *.
    set (o2 := popen w (hist s ++ evs1) cmd cwd shell) in *.
    exists (status o2), (evs1 ++ EPopen cmd cwd shell o2 :: logs2), o2.
    assert (Hl : launched (evs1 ++ EPopen cmd cwd shell o2 :: logs2) = [o1; o2]).
    { rewrite launched_app. unfold evs1. simpl.
      now rewrite (launched_console logs1 Hlogs1), (launched_console logs2 Hlogs2). }
    split; [exact Hrun|]. rewrite Hl.
    split; [now exists [o2]|].
    split.
    { constructor; [now exists (hist s ++ [start])|].
      constructor; [now exists (hist s ++ evs1) | constructor]. }
    split; [reflexivity|]. split; [reflexivity|].
    split; [discriminate|]. split; [reflexivity|]. now apply Hstatus.
Qed.

(** C7, as stated, fails: the value [-1] does not tell a process that
    could not be launched from one that ran.  In [ended_by_signal] nothing
    raises, both attempts run to their end with the return code [-1], and
    the value is [-1], the same as in [cannot_launch], where no process
    ever started; and in [breaks_while_reading] the value is [-1] although
    the process was launched and its output was logged. *)
Lemma run_cmd_minus_one_is_not_reserved :
  fst (sample_clone ended_by_signal) = Normal (-1)%Z
  /\ launched (hist (snd (sample_clone ended_by_signal)))
     = [Exited [] (-1); Exited [] (-1)]
  /\ existsb crashed (launched (hist (snd (sample_clone ended_by_signal)))) = false
  /\ fst (sample_clone cannot_launch) = Normal (-1)%Z
  /\ forallb crashed (launched (hist (snd (sample_clone cannot_launch)))) = true
  /\ fst (sample_clone breaks_while_reading) = Normal (-1)%Z
  /\ In (ELog "Cloning into app...") (hist (snd (sample_clone breaks_while_reading))).
Proof.
  vm_compute. repeat split; auto 8.
Qed.

(** ** Installing Git *)

Section InstallGit.

Variable w : World.

Lemma install_git_is_from_1 {R} : install_git w (R:=R) = install_git_from w 1.
Proof. reflexivity. Qed.

(** One turn of the loop, spelled out: the download, the installer and
    the removal are asked in turn, each after the events before it. *)
Lemma install_git_attempt_eq (attempt : nat) (s : State) :
  install_git_attempt w git_url (temp_path w) attempt s
  = match urlretrieve w (hist (extend s [ELog (trying_msg attempt)]))
            git_url (temp_path w) with
    | Some e =>
        (give_up_or_go_on attempt,
         extend s [ELog (trying_msg attempt);
                   EUrlRetrieve git_url (temp_path w) (Some e);
                   ELogError (exception_msg e)])
    | None =>
        match subprocess_run w (hist (extend s (fetched w attempt)))
                (installer_cmd w) with
        | inr e =>
            (give_up_or_go_on attempt,
             extend s (fetched w attempt ++
                       [ESubprocessRun (installer_cmd w) (inr e);
                        ELogError (exception_msg e)]))
        | inl proc =>
            if (returncode proc =? 0)%Z then
              match os_remove w
                      (hist (extend s (fetched w attempt ++
                         [ESubprocessRun (installer_cmd w) (inl proc);
                          ELog "Git został zainstalowany."])))
                      (temp_path w) with
              | Some e =>
                  (give_up_or_go_on attempt,
                   extend s (fetched w attempt ++
                             [ESubprocessRun (installer_cmd w) (inl proc);
                              ELog "Git został zainstalowany.";
                              ERemove (temp_path w) (Some e);
                              ELogError (exception_msg e)]))
              | None =>
                  (Return true,
                   extend s (fetched w attempt ++
                             [ESubprocessRun (installer_cmd w) (inl proc);
                              ELog "Git został zainstalowany.";
                              ERemove (temp_path w) None]))
              end
            else
              (if (attempt =? MAX_ATTEMPTS)%nat then Return false else Continue,
               extend s (fetched w attempt ++
                         [ESubprocessRun (installer_cmd w) (inl proc);
                          ELogError (exit_code_msg proc)]))
        end
    end.
Proof.
  unfold install_git_attempt, try_except, bind, log, log_error, emit, when,
    urllib_urlretrieve, subprocess_run_, os_remove_, act, return_, continue_, ret.
  fold (trying_msg attempt) (downloaded_msg w) (installer_cmd w).
  unfold fetched, give_up_or_go_on. cbv zeta. cbn [app].
  rewrite !record_extend, ?extend_extend. cbn [app].
  destruct (urlretrieve w _ git_url (temp_path w)) as [e|].
  - fold (exception_msg e).
    destruct (attempt =? MAX_ATTEMPTS)%nat;
      rewrite ?record_extend, ?extend_extend; reflexivity.
  - rewrite ?record_extend, ?extend_extend. cbn [app].
    destruct (subprocess_run w _ (installer_cmd w)) as [proc|e].
    + destruct (returncode proc =? 0)%Z; cbn [negb].
      * rewrite ?record_extend, ?extend_extend. cbn [app].
        destruct (os_remove w _ (temp_path w)) as [e|].
        -- fold (exception_msg e).
           destruct (attempt =? MAX_ATTEMPTS)%nat;
             rewrite ?record_extend, ?extend_extend; reflexivity.
        -- rewrite ?record_extend, ?extend_extend. reflexivity.
      * fold (exit_code_msg proc).
        destruct (attempt =? MAX_ATTEMPTS)%nat;
          rewrite ?record_extend, ?extend_extend; reflexivity.
    + fold (exception_msg e).
      destruct (attempt =? MAX_ATTEMPTS)%nat;
        rewrite ?record_extend, ?extend_extend; reflexivity.
Qed.

(** One turn of the loop follows one of the five shapes. *)
Lemma install_git_attempt_shape (attempt : nat) (s : State) :
  exists sig evs,
    install_git_attempt w git_url (temp_path w) attempt s = (sig, extend s evs)
    /\ attempt_shape w attempt sig evs.
Proof.
  rewrite install_git_attempt_eq.
  destruct (urlretrieve w _ git_url (temp_path w)) as [e|].
  { eexists. eexists. split; [reflexivity | apply download_failed]. }
  destruct (subprocess_run w _ (installer_cmd w)) as [proc|e].
  2: { eexists. eexists. split; [reflexivity | apply installer_raised]. }
  destruct (returncode proc =? 0)%Z eqn:Hrc.
  - apply Z.eqb_eq in Hrc.
    destruct (os_remove w _ (temp_path w)) as [e|].
    + eexists. eexists. split; [reflexivity | now apply removal_failed].
    + eexists. eexists. split; [reflexivity | now apply installed].
  - apply Z.eqb_neq in Hrc.
    eexists. eexists. split; [reflexivity | now apply installer_failed].
Qed.

Lemma install_git_unfold {R} (s : State) :
  install_git w (R:=R) s
  = match install_git_attempt w git_url (temp_path w) 1 s with
    | (Return b, s') => (Normal b, s')
    | (Raise e, s') => (Raise e, s')
    | (Diverge, s') => (Diverge, s')
    | (_, s') =>
        match install_git_attempt w git_url (temp_path w) 2 s' with
        | (Return b, s'') => (Normal b, s'')
        | (Raise e, s'') => (Raise e, s'')
        | (Diverge, s'') => (Diverge, s'')
        | (_, s'') => (Normal false, s'')
        end
    end.
Proof.
  rewrite install_git_is_from_1.
  unfold install_git_from, call, bind, range, return_. simpl seq. cbn [for_].
  destruct (install_git_attempt w git_url (temp_path w) 1 s) as [[ | | | | ] s1];
    try reflexivity;
    destruct (install_git_attempt w git_url (temp_path w) 2 s1) as [[ | | | | ] s2];
    reflexivity.
Qed.

Lemma attempt_shape_signal (attempt : nat) (sig : signal bool unit) (evs : list event) :
  attempt_shape w attempt sig evs ->
  (exists b, sig = Return b) \/ sig = Normal tt \/ sig = Continue.
Proof.
  intros H. destruct H; unfold give_up_or_go_on;
    destruct (attempt =? MAX_ATTEMPTS)%nat; eauto.
Qed.

Lemma last_attempt_returns (sig : signal bool unit) (evs : list event) :
  attempt_shape w MAX_ATTEMPTS sig evs -> exists b, sig = Return b.
Proof.
  intros H. destruct H; cbv [give_up_or_go_on MAX_ATTEMPTS Nat.eqb]; eauto.
Qed.

Lemma first_attempt_returns (b : bool) (evs : list event) :
  attempt_shape w 1 (Return b) evs -> b = true.
Proof.
  intros H. inversion H; subst; try discriminate; reflexivity.
Qed.

(** [install_git] always returns, and its events have the shape of one or
    two attempts. *)
Lemma install_git_summary {R} (s : State) :
  exists b evs,
    install_git w (R:=R) s = (Normal b, extend s evs) /\ install_shape w b evs.
Proof.
  rewrite install_git_unfold.
  destruct (install_git_attempt_shape 1 s) as (sig1 & evs1 & Hrun1 & Hshape1).
  rewrite Hrun1.
  destruct (install_git_attempt_shape 2 (extend s evs1))
    as (sig2 & evs2 & Hrun2 & Hshape2).
  destruct (last_attempt_returns _ _ Hshape2) as (b2 & ->).
  rewrite extend_extend in Hrun2.
  destruct (attempt_shape_signal _ _ _ Hshape1) as [(b1 & ->)|[->| ->]].
  - apply first_attempt_returns in Hshape1 as Hb. subst b1.
    exists true, evs1. split; [reflexivity | now apply first_attempt].
  - rewrite Hrun2. exists b2, (evs1 ++ evs2). split; [reflexivity|].
    now apply (second_attempt w (Normal tt)).
  - rewrite Hrun2. exists b2, (evs1 ++ evs2). split; [reflexivity|].
    now apply (second_attempt w Continue).
Qed.

End InstallGit.

Lemma install_git_from_last {R} (w : World) (s : State) :
  install_git_from w (R:=R) MAX_ATTEMPTS s
  = match install_git_attempt w git_url (temp_path w) MAX_ATTEMPTS s with
    | (Return b, s') => (Normal b, s')
    | (Raise e, s') => (Raise e, s')
    | (Diverge, s') => (Diverge, s')
    | (_, s') => (Normal false, s')
    end.
Proof.
  unfold install_git_from, call, bind, range, return_. simpl seq. cbn [for_].
  destruct (install_git_attempt w git_url (temp_path w) MAX_ATTEMPTS s)
    as [[ | | | | ] s1]; reflexivity.
Qed.

(** C9.  Take an attempt of [install_git] in which the download works, the
    installer exits with zero and the removal of the temporary file
    raises.  The attempt ends like any failed one: the exception is
    reported after the line that says Git was installed, and the loop
    gives up when this was the last attempt and goes on otherwise.  So on
    the last attempt [install_git] returns [False], and on the first one it
    goes through the second attempt in full, which starts with a new
    download. *)
Theorem install_git_removal_failure {R} (w : World) (attempt : nat) (s : State)
  (proc : completed) (e : exn) :
  urlretrieve w (hist (extend s [ELog (trying_msg attempt)])) git_url (temp_path w)
    = None ->
  subprocess_run w (hist (extend s (fetched w attempt))) (installer_cmd w)
    = inl proc ->
  returncode proc = 0%Z ->
  let installed_evs :=
    fetched w attempt ++
    [ESubprocessRun (installer_cmd w) (inl proc); ELog "Git został zainstalowany."] in
  os_remove w (hist (extend s installed_evs)) (temp_path w) = Some e ->
  let s' :=
    extend s (installed_evs ++
              [ERemove (temp_path w) (Some e); ELogError (exception_msg e)]) in
  install_git_attempt w git_url (temp_path w) attempt s
    = (if (attempt =? MAX_ATTEMPTS)%nat then Return false else Normal tt, s')
  /\ (attempt = MAX_ATTEMPTS ->
      install_git_from w (R:=R) attempt s = (Normal false, s'))
  /\ (attempt = 1 ->
      install_git w (R:=R) s = install_git_from w 2 s'
      /\ exists b r evs,
           install_git_from w (R:=R) 2 s'
           = (Normal b,
              extend s' (ELog (trying_msg 2)
                         :: EUrlRetrieve git_url (temp_path w) r :: evs))).
Proof.
  intros Hdl Hrun Hrc installed_evs Hrm s'.
  assert (Hattempt :
    install_git_attempt w git_url (temp_path w) attempt s
    = (if (attempt =? MAX_ATTEMPTS)%nat then Return false else Normal tt, s')).
  { rewrite install_git_attempt_eq, Hdl, Hrun, Hrc. cbn [Z.eqb].
    fold installed_evs. rewrite Hrm. unfold s', installed_evs.
    rewrite <- app_assoc. reflexivity. }
  split; [exact Hattempt|]. split.
  - intros ->. rewrite install_git_from_last, Hattempt. reflexivity.
  - intros ->. split.
    + rewrite install_git_unfold, Hattempt. cbn [Nat.eqb MAX_ATTEMPTS].
      now rewrite install_git_from_last.
    + rewrite (install_git_from_last w s').
      destruct (install_git_attempt_shape w 2 s') as (sig & evs & Heq & Hshape).
      change 2 with MAX_ATTEMPTS in Heq at 1. rewrite Heq.
      destruct (last_attempt_returns w _ _ Hshape) as (b & ->).
      exists b. inversion Hshape; subst; eexists; eexists; reflexivity.
Qed.

Lemma install_git_removal_failure_witness :
  urlretrieve file_in_use (hist (extend (start []) [ELog (trying_msg 1)]))
    git_url (temp_path file_in_use) = None
  /\ subprocess_run file_in_use (hist (extend (start []) (fetched file_in_use 1)))
       (installer_cmd file_in_use)
     = inl {| returncode := 0; stdout := ""; stderr := "" |}
  /\ exists s',
       install_git_attempt file_in_use git_url (temp_path file_in_use) 1 (start [])
       = (Normal tt, s')
       /\ In (ERemove (temp_path file_in_use) (Some (some_error "[WinError 32]")))
            (hist s')
       /\ install_git file_in_use (R:=unit) (start [])
          = install_git_from file_in_use 2 s'
       /\ fst (install_git file_in_use (R:=unit) (start [])) = Normal true
       /\ downloads_of (hist (snd (install_git file_in_use (R:=unit) (start []))))
          = [None; None]
       /\ installs_of (hist (snd (install_git file_in_use (R:=unit) (start []))))
          = [ok_install; ok_install]
       /\ fst (install_git file_stays_in_use (R:=unit) (start [])) = Normal false
       /\ installs_of (hist (snd (install_git file_stays_in_use (R:=unit) (start []))))
          = [ok_install; ok_install].
Proof.
  split; [reflexivity|]. split; [reflexivity|].
  destruct (install_git_removal_failure (R:=unit) file_in_use 1 (start [])
              {| returncode := 0; stdout := ""; stderr := "" |}
              (some_error "[WinError 32]")
              eq_refl eq_refl eq_refl eq_refl) as (Hattempt & _ & Hfirst).
  eexists. split; [exact Hattempt|]. split; [|split].
  - cbn. do 6 right. now left.
  - exact (proj1 (Hfirst eq_refl)).
  - repeat split; reflexivity.
Defined.

(** ** [ensure_git] when Git is missing *)

Lemma downloads_of_app (a b : list event) :
  downloads_of (a ++ b) = downloads_of a ++ downloads_of b.
Proof.
  induction a as [|e a IH]; [reflexivity|].
  destruct e; simpl; rewrite ?IH; reflexivity.
Qed.

Lemma installs_of_app (a b : list event) :
  installs_of (a ++ b) = installs_of a ++ installs_of b.
Proof.
  induction a as [|e a IH]; [reflexivity|].
  destruct e; simpl; rewrite ?IH; reflexivity.
Qed.

Lemma removals_of_app (a b : list event) :
  removals_of (a ++ b) = removals_of a ++ removals_of b.
Proof.
  induction a as [|e a IH]; [reflexivity|].
  destruct e; simpl; rewrite ?IH; reflexivity.
Qed.

Lemma last_app_nonempty {A} (a b : list A) (d : A) :
  b <> [] -> last (a ++ b) d = last b d.
Proof.
  intros Hb. induction a as [|x a IH]; [reflexivity|].
  simpl app. destruct (a ++ b) eqn:Hab.
  - apply app_eq_nil in Hab as [_ ->]. contradiction.
  - rewrite <- IH. reflexivity.
Qed.

(** What the events of one attempt look like, whichever way it went. *)
Lemma attempt_shape_facts (w : World) (attempt : nat) (sig : signal bool unit)
  (evs : list event) :
  attempt_shape w attempt sig evs ->
  Forall (install_git_event w) evs
  /\ length (downloads_of evs) = 1
  /\ length (installs_of evs) = length (filter succeeded (downloads_of evs))
  /\ length (removals_of evs) = length (filter exited_zero (installs_of evs))
  /\ launched evs = []
  /\ evs <> []
  /\ (sig = Return true <-> last evs (EPrint "") = ERemove (temp_path w) None)
  /\ (sig = Return true ->
      exists pre proc,
        evs = pre ++ [ESubprocessRun (installer_cmd w) (inl proc);
                      ELog "Git został zainstalowany.";
                      ERemove (temp_path w) None]
        /\ returncode proc = 0%Z).
Proof.
  assert (Hc : forall e, is_console e = true -> install_git_event w e)
    by (intros e He; now left).
  assert (Hd : forall r, install_git_event w (EUrlRetrieve git_url (temp_path w) r))
    by (intros r; right; left; now exists r).
  assert (Hi : forall r, install_git_event w (ESubprocessRun (installer_cmd w) r))
    by (intros r; right; right; left; now exists r).
  assert (Hr : forall r, install_git_event w (ERemove (temp_path w) r))
    by (intros r; right; right; right; now exists r).
  assert (Hrc0 : forall proc : completed,
             returncode proc = 0%Z -> exited_zero (inl proc) = true)
    by (intros proc H0; now apply Z.eqb_eq).
  assert (Hrc1 : forall proc : completed,
             returncode proc <> 0%Z -> exited_zero (inl proc) = false)
    by (intros proc H0; now apply Z.eqb_neq).
  intros H.
  destruct H as [e|e|proc Hrc|proc e Hrc|proc Hrc]; unfold fetched; cbn [app];
    (split;
     [repeat (apply Forall_cons;
              [first [apply Hd | apply Hi | apply Hr | apply Hc; reflexivity]|]);
      apply Forall_nil|]);
    cbn [downloads_of installs_of removals_of launched filter succeeded length];
    rewrite ?(Hrc0 _ Hrc), ?(Hrc1 _ Hrc);
    (split; [reflexivity|]); (split; [reflexivity|]); (split; [reflexivity|]);
    (split; [reflexivity|]); (split; [discriminate|]); cbn [last].
  - unfold give_up_or_go_on.
    destruct (attempt =? MAX_ATTEMPTS)%nat;
      (split; [split; discriminate | discriminate]).
  - unfold give_up_or_go_on.
    destruct (attempt =? MAX_ATTEMPTS)%nat;
      (split; [split; discriminate | discriminate]).
  - destruct (attempt =? MAX_ATTEMPTS)%nat;
      (split; [split; discriminate | discriminate]).
  - unfold give_up_or_go_on.
    destruct (attempt =? MAX_ATTEMPTS)%nat;
      (split; [split; discriminate | discriminate]).
  - split; [split; reflexivity|]. intros _.
    exists (fetched w attempt), proc. split; [reflexivity | exact Hrc].
Qed.

(** [ensure_git] always returns: at once when Git is on the path, after
    [install_git] otherwise. *)
Lemma ensure_git_summary {R} (w : World) (s : State) :
  exists b evs,
    ensure_git w (R:=R) s
    = (Normal b, extend s (EWhich "git" (which w (hist s) "git") :: evs))
    /\ if which w (hist s) "git"
       then b = true /\ evs = [ELog "Git jest zainstalowany."]
       else install_shape w b evs.
Proof.
  unfold ensure_git, call at 1, bind at 1, check_exe, call at 1, bind at 1,
    shutil_which, ask, return_.
  rewrite record_extend.
  destruct (which w (hist s) "git") eqn:Hgit.
  - exists true, [ELog "Git jest zainstalowany."]. split; [|now split].
    unfold bind, log, emit. now rewrite record_extend, extend_extend.
  - destruct (install_git_summary w (R:=bool) (extend s [EWhich "git" false]))
      as (b & evs & Hrun & Hshape).
    exists b, evs. split; [|exact Hshape].
    unfold bind. rewrite Hrun, extend_extend. reflexivity.
Qed.

(** Each attempt starts with a download, and its outcome is the answer
    of the world at that point. *)
Lemma attempt_starts (w : World) (attempt : nat) (s : State) :
  exists sig rest,
    install_git_attempt w git_url (temp_path w) attempt s
    = (sig,
       extend s
         (ELog (trying_msg attempt)
          :: EUrlRetrieve git_url (temp_path w)
               (urlretrieve w (hist s ++ [ELog (trying_msg attempt)])
                  git_url (temp_path w))
          :: rest)).
Proof.
  rewrite install_git_attempt_eq.
  change (hist (extend s [ELog (trying_msg attempt)]))
    with (hist s ++ [ELog (trying_msg attempt)]).
  destruct (urlretrieve w (hist s ++ [ELog (trying_msg attempt)])
              git_url (temp_path w)).
  - eexists. eexists. reflexivity.
  - destruct (subprocess_run w _ _) as [proc|e].
    + destruct (returncode proc =? 0)%Z.
      * destruct (os_remove w _ _); eexists; eexists; reflexivity.
      * eexists. eexists. reflexivity.
    + eexists. eexists. reflexivity.
Qed.

Lemma ensure_git_first_download {R} (w : World) (s : State) :
  which w (hist s) "git" = false ->
  exists sig s' rest,
    ensure_git w (R:=R) s = (sig, s')
    /\ hist s'
       = hist s
         ++ EWhich "git" false
            :: ELog (trying_msg 1)
            :: EUrlRetrieve git_url (temp_path w)
                 (urlretrieve w (hist s ++ [EWhich "git" false; ELog (trying_msg 1)])
                    git_url (temp_path w))
            :: rest.
Proof.
  intros Hgit.
  unfold ensure_git, call at 1, bind at 1, check_exe, call at 1, bind at 1,
    shutil_which, ask, return_.
  rewrite record_extend, Hgit. unfold bind. rewrite install_git_unfold.
  destruct (attempt_starts w 1 (extend s [EWhich "git" false]))
    as (sig1 & rest1 & H1).
  change (hist (extend s [EWhich "git" false]) ++ [ELog (trying_msg 1)])
    with ((hist s ++ [EWhich "git" false]) ++ [ELog (trying_msg 1)]) in H1.
  rewrite <- app_assoc in H1. cbn [app] in H1.
  rewrite H1, extend_extend.
  match goal with
  | |- context [install_git_attempt w git_url (temp_path w) 2 ?st] =>
      destruct (install_git_attempt_shape w 2 st) as (sig2 & evs2 & H2 & _)
  end.
  destruct sig1 as [[]|b1| |e1| ]; rewrite ?H2;
    try (destruct sig2 as [[]|b2| |e2| ]);
    eexists; eexists; eexists;
    (split; [reflexivity|]);
    cbn [hist extend app]; rewrite <- ?app_assoc; reflexivity.
Qed.

(** C3, as amended.  When Git is not on the path, [ensure_git] makes one
    or two combined attempts, [MAX_ATTEMPTS] at most.  Each attempt downloads the
    installer to the temporary place and, when the download worked, runs
    it once, directly and with the silent flags; no command goes through
    [run_cmd].  After each run that exits with zero the temporary file is
    removed.  A second attempt is made whenever the first did not install
    Git, whatever went wrong in it.  The value is [True] exactly when the
    last event is the removal of the temporary file without an error,
    which then follows a run of the installer that exited with zero.  The
    first thing done is a download, whose outcome is the answer of the
    world at that point. *)
Theorem ensure_git_combined_attempts {R} (w : World) (s : State) :
  which w (hist s) "git" = false ->
  exists b evs,
    ensure_git w (R:=R) s = (Normal b, extend s (EWhich "git" false :: evs))
    /\ Forall (install_git_event w) evs
    /\ launched evs = []
    /\ 1 <= length (downloads_of evs) <= MAX_ATTEMPTS
    /\ length (installs_of evs) = length (filter succeeded (downloads_of evs))
    /\ length (removals_of evs) = length (filter exited_zero (installs_of evs))
    /\ (length (downloads_of evs) < MAX_ATTEMPTS -> b = true)
    /\ (b = true <-> last evs (EPrint "") = ERemove (temp_path w) None)
    /\ (b = true ->
        exists pre proc,
          evs = pre ++ [ESubprocessRun (installer_cmd w) (inl proc);
                        ELog "Git został zainstalowany.";
                        ERemove (temp_path w) None]
          /\ returncode proc = 0%Z)
    /\ install_shape w b evs
    /\ (exists rest,
          evs = ELog (trying_msg 1)
                :: EUrlRetrieve git_url (temp_path w)
                     (urlretrieve w
                        (hist s ++ [EWhich "git" false; ELog (trying_msg 1)])
                        git_url (temp_path w))
                :: rest).
Proof.
  intros Hgit.
  destruct (ensure_git_summary w (R:=R) s) as (b & evs & Hrun & Hshape).
  rewrite Hgit in Hrun, Hshape. exists b, evs. split; [exact Hrun|].
  assert (Hfirst : exists rest,
            evs = ELog (trying_msg 1)
                  :: EUrlRetrieve git_url (temp_path w)
                       (urlretrieve w
                          (hist s ++ [EWhich "git" false; ELog (trying_msg 1)])
                          git_url (temp_path w))
                  :: rest).
  { destruct (ensure_git_first_download (R:=R) w s Hgit)
      as (sig & s' & rest & Hrun' & Hhist).
    rewrite Hrun in Hrun'. injection Hrun' as _ <-.
    cbn [hist extend] in Hhist. apply app_inv_head in Hhist.
    injection Hhist as ->. now exists rest. }
  assert (Hshape' := Hshape).
  destruct Hshape as [evs H1|sig evs1 evs2 b H1 Hsig H2].
  - destruct (attempt_shape_facts w _ _ _ H1)
      as (Hev & Hd & Hi & Hr & Hl & _ & Hlast & Hpre).
    split; [exact Hev|]. split; [exact Hl|]. rewrite Hd.
    split; [unfold MAX_ATTEMPTS; lia|]. split; [exact Hi|]. split; [exact Hr|].
    split; [reflexivity|]. split; [|split; [|now split]].
    + split; [intros _; now apply Hlast | reflexivity].
    + intros _. now apply Hpre.
  - destruct (attempt_shape_facts w _ _ _ H1)
      as (Hev1 & Hd1 & Hi1 & Hr1 & Hl1 & _ & _ & _).
    destruct (attempt_shape_facts w _ _ _ H2)
      as (Hev2 & Hd2 & Hi2 & Hr2 & Hl2 & Hne2 & Hlast2 & Hpre2).
    split; [now apply Forall_app|].
    split; [now rewrite launched_app, Hl1, Hl2|].
    rewrite downloads_of_app, installs_of_app, removals_of_app,
      !filter_app, !length_app, Hd1, Hd2.
    split; [unfold MAX_ATTEMPTS; lia|]. split; [lia|]. split; [lia|].
    split; [unfold MAX_ATTEMPTS; lia|].
    rewrite (last_app_nonempty evs1 evs2 _ Hne2).
    split; [|split; [|now split]].
    + rewrite <- Hlast2. split; [now intros -> | intros Heq; now injection Heq].
    + intros ->. destruct (Hpre2 eq_refl) as (pre & proc & -> & Hrc).
      exists (evs1 ++ pre), proc. split; [now rewrite app_assoc | exact Hrc].
Qed.

Lemma ensure_git_combined_attempts_witness :
  which flaky_network (hist (start [])) "git" = false
  /\ exists b evs,
       ensure_git flaky_network (R:=unit) (start [])
       = (Normal b, extend (start []) (EWhich "git" false :: evs))
       /\ launched evs = []
       /\ length (installs_of evs) = length (filter succeeded (downloads_of evs)).
Proof.
  split; [reflexivity|].
  destruct (ensure_git_combined_attempts (R:=unit) flaky_network (start []) eq_refl)
    as (b & evs & Hrun & _ & Hl & _ & Hi & _).
  exists b, evs. now repeat split.
Defined.

(** C3, as stated, fails.  In [flaky_network] the first download fails and
    the second one works; the installer, run once, exits with status 1.
    [ensure_git] then returns [False]: it has used up its two attempts on
    the downloads and does not run the installer again, while the policy
    of [run_cmd] would launch it a second time (and install Git). *)
Lemma ensure_git_not_as_specified :
  fst (ensure_git flaky_network (R:=unit) (start [])) = Normal false
  /\ installs_of (hist (snd (ensure_git flaky_network (R:=unit) (start []))))
     = [failing_install 1]
  /\ launched (hist (snd (ensure_git flaky_network (R:=unit) (start [])))) = []
  /\ fst (ensure_git_as_specified flaky_network (R:=unit) (start [])) = Normal true
  /\ launched (hist (snd (ensure_git_as_specified flaky_network (R:=unit) (start []))))
     = [failing_process 1; ok_process].
Proof. vm_compute. repeat split. Qed.

(** ** The start file of a Python project *)

Section EntryPoint.

Variable w : World.
Variable pyfiles : list string.

Lemma advance_extend (s : State) (a b : list event) (rest : list string) :
  extend (advance s a rest) b = advance s (a ++ b) rest.
Proof. unfold extend, advance. simpl. now rewrite app_assoc. Qed.

Lemma advance_advance (s : State) (a b : list event) (r1 r2 : list string) :
  advance (advance s a r1) b r2 = advance s (a ++ b) r2.
Proof. unfold advance. simpl. now rewrite app_assoc. Qed.

Lemma extend_advance (s : State) (evs : list event) : extend s evs = advance s evs (stdin s).
Proof. reflexivity. Qed.

(** One turn of the loop that asks for the number of the file. *)
Lemma ask_choice_eq (s : State) :
  ask_choice w pyfiles s
  = match stdin s with
    | [] =>
        (Normal tt,
         extend s [EInput choice_prompt None; EPrint "Nieprawidłowy wybór."])
    | line :: rest =>
        if valid_choice w pyfiles line
        then (Return (Some (nth (Z.to_nat (match py_int w line with
                                           | Some c => c - 1
                                           | None => 0
                                           end)) pyfiles EmptyString)),
              advance s [EInput choice_prompt (Some line)] rest)
        else (Normal tt, advance s (turned_down line) rest)
    end.
Proof.
  unfold ask_choice, try_except, bind, input_, int_, print, emit, when, ret,
    raise, return_, valid_choice, turned_down.
  fold choice_prompt.
  destruct (stdin s) as [|line rest].
  - now rewrite !record_extend, extend_extend.
  - destruct (py_int w line) as [c|].
    + destruct ((1 <=? c)%Z && (c <=? Z.of_nat (length pyfiles))%Z);
        [reflexivity|].
      unfold record, advance. simpl. now rewrite <- app_assoc.
    + unfold record, advance. simpl. now rewrite <- app_assoc.
Qed.

(** The loop returns at the first line that names a file, after it has
    turned down the lines before it. *)
Lemma choice_loop_returns {A} (bad : list string) :
  forall (good : string) (rest : list string) (n : nat) (s : State),
    stdin s = bad ++ good :: rest ->
    forallb (fun line => negb (valid_choice w pyfiles line)) bad = true ->
    valid_choice w pyfiles good = true ->
    length bad < n ->
    choice_loop w (A:=A) pyfiles n s
    = (Return (Some (nth (Z.to_nat (match py_int w good with
                                    | Some c => c - 1
                                    | None => 0
                                    end)) pyfiles EmptyString)),
       advance s (flat_map turned_down bad ++ [EInput choice_prompt (Some good)])
         rest).
Proof.
  induction bad as [|line bad IH]; intros good rest n s Hin Hbad Hgood Hn;
    (destruct n as [|n]; [simpl in Hn; lia|]);
    cbn [choice_loop]; unfold bind; rewrite ask_choice_eq, Hin; simpl app;
    cbv iota beta.
  - rewrite Hgood. reflexivity.
  - simpl in Hbad. apply andb_true_iff in Hbad as [Hline Hbad].
    apply negb_true_iff in Hline. rewrite Hline.
    rewrite (IH good rest n); try assumption; [|reflexivity | simpl in Hn; lia].
    rewrite advance_advance. reflexivity.
Qed.

(** Without such a line the loop never ends. *)
Lemma choice_loop_diverges {A} (n : nat) :
  forall s : State,
    forallb (fun line => negb (valid_choice w pyfiles line)) (stdin s) = true ->
    fst (choice_loop w (A:=A) pyfiles n s) = Diverge.
Proof.
  induction n as [|n IH]; intros s Hbad; [reflexivity|].
  cbn [choice_loop]. unfold bind. rewrite ask_choice_eq.
  destruct (stdin s) as [|line rest] eqn:Hin.
  - apply IH. simpl. now rewrite Hin.
  - simpl in Hbad. apply andb_true_iff in Hbad as [Hline Hrest].
    apply negb_true_iff in Hline. rewrite Hline. now apply IH.
Qed.

Lemma for_print {R X} (f : X -> string) (xs : list X) (s : State) :
  for_ (R:=R) xs (fun x => print (f x)) s
  = (Normal tt, extend s (map (fun x => EPrint (f x)) xs)).
Proof.
  revert s. induction xs as [|x xs IH]; intros s; simpl.
  - now rewrite extend_nil.
  - unfold print at 1, emit at 1. rewrite IH, record_extend, extend_extend.
    reflexivity.
Qed.

End EntryPoint.

(** [find_python_entrypoint], spelled out: the three usual names are
    looked up in turn, then the Python files of the folder are listed. *)
Lemma find_python_entrypoint_eq {R} (w : World) (dir : string) (s : State) :
  let p := path_join w dir in
  let b1 := isfile w (hist s) (p "main.py") in
  let evs1 := [EIsFile (p "main.py") b1] in
  let b2 := isfile w (hist s ++ evs1) (p "app.py") in
  let evs2 := evs1 ++ [EIsFile (p "app.py") b2] in
  let b3 := isfile w (hist s ++ evs2) (p "index.py") in
  let evs3 := evs2 ++ [EIsFile (p "index.py") b3] in
  let found := glob w (hist s ++ evs3) (p "*.py") in
  let evs4 := evs3 ++ [EGlob (p "*.py") found] in
  let pyfiles := map (basename w) found in
  find_python_entrypoint w (R:=R) dir s
  = if b1 then (Normal (Some "main.py"), extend s evs1)
    else if b2 then (Normal (Some "app.py"), extend s evs2)
    else if b3 then (Normal (Some "index.py"), extend s evs3)
    else if (length pyfiles =? 1)%nat
         then (Normal (Some (nth 0 pyfiles EmptyString)), extend s evs4)
    else if (1 <? length pyfiles)%nat
         then call (choice_loop w pyfiles (S (length (stdin s))))
                (extend s (evs4 ++ listing pyfiles))
    else (Normal None, extend s evs4).
Proof.
  intros p b1 evs1 b2 evs2 b3 evs3 found evs4 pyfiles.
  unfold find_python_entrypoint, call at 1. cbv zeta. unfold bind at 1.
  cbn [for_]. unfold bind at 1, os_path_isfile at 1, ask at 1.
  fold p. fold b1. rewrite record_extend. fold evs1.
  destruct b1 eqn:Hb1; [reflexivity|]. cbn [when]. unfold ret at 1.
  unfold bind at 1, os_path_isfile at 1, ask at 1.
  change (hist (extend s evs1)) with (hist s ++ evs1). fold p. fold b2.
  rewrite record_extend, extend_extend. fold evs2.
  destruct b2 eqn:Hb2; [reflexivity|]. cbn [when]. unfold ret at 1.
  unfold bind at 1, os_path_isfile at 1, ask at 1.
  change (hist (extend s evs2)) with (hist s ++ evs2). fold p. fold b3.
  rewrite record_extend, extend_extend. fold evs3.
  destruct b3 eqn:Hb3; [reflexivity|]. cbn [when]. unfold ret at 1.
  unfold bind at 1, glob_glob, ask.
  change (hist (extend s evs3)) with (hist s ++ evs3). fold p. fold found.
  rewrite record_extend, extend_extend. fold evs4. fold pyfiles.
  destruct (length pyfiles =? 1)%nat; [reflexivity|].
  destruct (1 <? length pyfiles)%nat; [|reflexivity].
  unfold bind at 1, print at 1, emit at 1. unfold bind at 1.
  rewrite for_print, record_extend, !extend_extend.
  change (stdin (extend s ?l)) with (stdin s).
  unfold call, listing. reflexivity.
Qed.

(** Step 5 for a Python project whose start file was not found: the error
    is reported and nothing is launched. *)
Lemma step_run_no_entry (w : World) (dir req pkg : string) (s s1 : State)
  (entry_py : option string) :
  isfile w (hist s) req = true ->
  find_python_entrypoint w (R:=unit) dir (extend s [EIsFile req true])
    = (Normal entry_py, s1) ->
  truthy entry_py = false ->
  step_run w dir req pkg s = (Normal tt, extend s1 [ELogError no_entry_msg]).
Proof.
  intros Hreq Hfind Hnone.
  unfold step_run, bind at 1, os_path_isfile at 1, ask.
  rewrite Hreq, record_extend. unfold bind at 1. rewrite Hfind, Hnone.
  reflexivity.
Qed.

(** C4.  [find_python_entrypoint] looks for [main.py], [app.py] and
    [index.py] in this order and returns the first one that is a file,
    without looking further.  When none is, it lists the Python files of
    the folder: a single one is returned, with no question asked (nothing
    is read from standard input); with several, after printing the
    numbered list, it asks for a number, turns down every line that is not
    the number of a listed file and returns the file of the first line
    that is one; it never returns if no such line comes; with none, it
    returns [None], and step 5 of [do_workflow] then reports the error and
    launches nothing. *)
Theorem find_python_entrypoint_resolution {R} (w : World) (dir : string) (s : State) :
  let p := path_join w dir in
  let b1 := isfile w (hist s) (p "main.py") in
  let evs1 := [EIsFile (p "main.py") b1] in
  let b2 := isfile w (hist s ++ evs1) (p "app.py") in
  let evs2 := evs1 ++ [EIsFile (p "app.py") b2] in
  let b3 := isfile w (hist s ++ evs2) (p "index.py") in
  let evs3 := evs2 ++ [EIsFile (p "index.py") b3] in
  let found := glob w (hist s ++ evs3) (p "*.py") in
  let evs4 := evs3 ++ [EGlob (p "*.py") found] in
  let pyfiles := map (basename w) found in
  let resolved := find_python_entrypoint w (R:=R) dir s in
  (b1 = true -> resolved = (Normal (Some "main.py"), extend s evs1))
  /\ (b1 = false -> b2 = true ->
      resolved = (Normal (Some "app.py"), extend s evs2))
  /\ (b1 = false -> b2 = false -> b3 = true ->
      resolved = (Normal (Some "index.py"), extend s evs3))
  /\ (b1 = false -> b2 = false -> b3 = false ->
      (forall f, pyfiles = [f] -> resolved = (Normal (Some f), extend s evs4))
      /\ (pyfiles = [] -> resolved = (Normal None, extend s evs4))
      /\ (1 < length pyfiles ->
          forall bad good choice rest,
            stdin s = bad ++ good :: rest ->
            forallb (fun line => negb (valid_choice w pyfiles line)) bad = true ->
            py_int w good = Some choice ->
            (1 <= choice <= Z.of_nat (length pyfiles))%Z ->
            resolved
            = (Normal (Some (nth (Z.to_nat (choice - 1)) pyfiles EmptyString)),
               advance s
                 (evs4 ++ listing pyfiles ++ flat_map turned_down bad
                  ++ [EInput choice_prompt (Some good)])
                 rest))
      /\ (1 < length pyfiles ->
          forallb (fun line => negb (valid_choice w pyfiles line)) (stdin s) = true ->
          fst resolved = Diverge))
  /\ (forall req pkg s0 s1,
        isfile w (hist s0) req = true ->
        find_python_entrypoint w (R:=unit) dir (extend s0 [EIsFile req true])
          = (Normal None, s1) ->
        step_run w dir req pkg s0 = (Normal tt, extend s1 [ELogError no_entry_msg])).
Proof.
  intros p b1 evs1 b2 evs2 b3 evs3 found evs4 pyfiles resolved.
  pose proof (find_python_entrypoint_eq (R:=R) w dir s) as Heq.
  cbv zeta in Heq. fold p b1 evs1 b2 evs2 b3 evs3 found evs4 pyfiles in Heq.
  fold resolved in Heq.
  split; [intros H1; now rewrite Heq, H1|].
  split; [intros H1 H2; now rewrite Heq, H1, H2|].
  split; [intros H1 H2 H3; now rewrite Heq, H1, H2, H3|].
  split.
  - intros H1 H2 H3. rewrite H1, H2, H3 in Heq.
    split; [|split; [|split]].
    + intros f Hf. rewrite Heq, Hf. reflexivity.
    + intros Hnil. rewrite Heq, Hnil. reflexivity.
    + intros Hlen bad good choice rest Hin Hbad Hint Hrange.
      rewrite Heq.
      destruct (length pyfiles =? 1)%nat eqn:Hone;
        [apply Nat.eqb_eq in Hone; lia|].
      rewrite (proj2 (Nat.ltb_lt _ _) Hlen). unfold call.
      rewrite (choice_loop_returns w pyfiles bad good rest).
      * rewrite Hint. rewrite extend_advance, advance_advance.
        now rewrite <- !app_assoc.
      * exact Hin.
      * exact Hbad.
      * unfold valid_choice. rewrite Hint. apply andb_true_iff.
        split; apply Z.leb_le; lia.
      * rewrite Hin, length_app. simpl. lia.
    + intros Hlen Hbad. rewrite Heq.
      destruct (length pyfiles =? 1)%nat eqn:Hone;
        [apply Nat.eqb_eq in Hone; lia|].
      rewrite (proj2 (Nat.ltb_lt _ _) Hlen). unfold call.
      pose proof (choice_loop_diverges w pyfiles (A:=option string)
                    (S (length (stdin s)))
                    (extend s (evs4 ++ listing pyfiles)) Hbad) as Hdiv.
      destruct (choice_loop w pyfiles (S (length (stdin s)))
                  (extend s (evs4 ++ listing pyfiles)))
        as [sig s']. simpl in Hdiv. now subst sig.
  - intros req pkg s0 s1 Hreq Hfind.
    now apply (step_run_no_entry w dir req pkg s0 s1 None).
Qed.

Lemma find_python_entrypoint_resolution_witness :
  stdin (start ["x"; "7"; "2"; "y"]) = ["x"; "7"] ++ "2" :: ["y"]
  /\ py_int three_scripts "2" = Some 2%Z
  /\ exists s',
       find_python_entrypoint three_scripts (R:=unit) "C:\Hem4V\app"
         (start ["x"; "7"; "2"; "y"])
       = (Normal (Some "train.py"), s')
       /\ stdin s' = ["y"].
Proof.
  split; [reflexivity|]. split; [reflexivity|].
  pose proof (find_python_entrypoint_resolution (R:=unit) three_scripts
                "C:\Hem4V\app" (start ["x"; "7"; "2"; "y"])) as H.
  cbv zeta in H. destruct H as (_ & _ & _ & H & _).
  destruct (H eq_refl eq_refl eq_refl) as (_ & _ & Hask & _).
  eexists. split.
  - apply (Hask ltac:(vm_compute; lia) ["x"; "7"] "2" 2%Z ["y"]);
      [reflexivity | reflexivity | reflexivity | vm_compute; split; discriminate].
  - reflexivity.
Defined.

(** ** The workflow, step by step *)

(** [do_workflow] goes through its steps in order until one of them does
    not end normally; the history then ends with that step (and with the
    report of the handler, after an exception).  After five steps it logs
    the final message. *)
Lemma do_workflow_phases {R} (w : World) (repo_url : string) (s : State) :
  exists k t,
    completes w repo_url s k t
    /\ ((k = 5
         /\ do_workflow w (R:=R) repo_url s = (Normal tt, extend t [ELog "Gotowe!"]))
        \/ (k < 5
            /\ exists sig t',
                 nth_step w repo_url (S k) t = (sig, t')
                 /\ aborted sig t' = Some (do_workflow w (R:=R) repo_url s))).
Proof.
  pose proof (completes_none w repo_url s) as H0.
  set (t0 := report {| hist := hist s; stdin := stdin s; step_idx := 0 |}) in *.
  assert (Hrun : do_workflow w (R:=R) repo_url s
    = match
        match nth_step w repo_url 1 t0 with
        | (Normal _, t1) =>
            match nth_step w repo_url 2 (count_step t1) with
            | (Normal _, t2) =>
                match nth_step w repo_url 3 (count_step t2) with
                | (Normal _, t3) =>
                    match nth_step w repo_url 4 (count_step t3) with
                    | (Normal _, t4) =>
                        match nth_step w repo_url 5 (count_step t4) with
                        | (Normal _, t5) =>
                            (@Normal unit unit tt, extend (count_step t5) [ELog "Gotowe!"])
                        | other => other
                        end
                    | other => other
                    end
                | other => other
                end
            | other => other
            end
        | other => other
        end
      with
      | (Normal r, s') => (Normal r, s')
      | (Return r, s') => (Normal r, s')
      | (Continue, s') => (Raise stray_continue, s')
      | (Raise e, s') => (Normal tt, extend s' [ELogError (critical_msg e)])
      | (Diverge, s') => (Diverge, s')
      end).
  { unfold do_workflow, call, try_except. unfold bind at 1.
    unfold set_step_idx at 1. cbv iota beta.
    unfold bind at 1. unfold progress at 1, emit at 1. fold (report {| hist := hist s; stdin := stdin s; step_idx := 0 |}).
    fold t0. cbv iota beta.
    unfold nth_step, target_dir, req_path, pkg_path.
    unfold bind, incr_step_idx, set_step_idx, progress, emit, log, count_step, report.
    destruct (step_workdir w t0) as [[[]| | | | ] t1]; try reflexivity.
    destruct (step_git w _) as [[[]| | | | ] t2]; try reflexivity.
    destruct (step_clone w repo_url _ _) as [[[]| | | | ] t3]; try reflexivity.
    destruct (step_install w _ _ _ _) as [[[]| | | | ] t4]; try reflexivity.
    destruct (step_run w _ _ _ _) as [[[]| | | | ] t5]; reflexivity. }
  destruct (nth_step w repo_url 1 t0) as [sig1 t1] eqn:H1.
  assert (Hstop : forall k t sig t',
             completes w repo_url s k t -> k < 5 ->
             nth_step w repo_url (S k) t = (sig, t') ->
             aborted sig t' = Some (do_workflow w (R:=R) repo_url s) ->
             exists k t,
               completes w repo_url s k t
               /\ ((k = 5
                    /\ do_workflow w (R:=R) repo_url s
                       = (Normal tt, extend t [ELog "Gotowe!"]))
                   \/ (k < 5
                       /\ exists sig t',
                            nth_step w repo_url (S k) t = (sig, t')
                            /\ aborted sig t' = Some (do_workflow w (R:=R) repo_url s)))).
  { intros k t sig t' Hk Hlt Hstep Hab. exists k, t. split; [exact Hk|].
    right. split; [exact Hlt|]. now exists sig, t'. }
  destruct sig1 as [[]|[]| | | ];
    try (apply (Hstop 0 t0 _ t1 H0 ltac:(lia) H1); rewrite Hrun; reflexivity).
  pose proof (completes_next w repo_url s 0 t0 t1 H0 H1) as C1.
  destruct (nth_step w repo_url 2 (count_step t1)) as [sig2 t2] eqn:H2.
  destruct sig2 as [[]|[]| | | ];
    try (apply (Hstop 1 _ _ t2 C1 ltac:(lia) H2); rewrite Hrun; reflexivity).
  pose proof (completes_next w repo_url s 1 _ t2 C1 H2) as C2.
  destruct (nth_step w repo_url 3 (count_step t2)) as [sig3 t3] eqn:H3.
  destruct sig3 as [[]|[]| | | ];
    try (apply (Hstop 2 _ _ t3 C2 ltac:(lia) H3); rewrite Hrun; reflexivity).
  pose proof (completes_next w repo_url s 2 _ t3 C2 H3) as C3.
  destruct (nth_step w repo_url 4 (count_step t3)) as [sig4 t4] eqn:H4.
  destruct sig4 as [[]|[]| | | ];
    try (apply (Hstop 3 _ _ t4 C3 ltac:(lia) H4); rewrite Hrun; reflexivity).
  pose proof (completes_next w repo_url s 3 _ t4 C3 H4) as C4.
  destruct (nth_step w repo_url 5 (count_step t4)) as [sig5 t5] eqn:H5.
  destruct sig5 as [[]|[]| | | ];
    try (apply (Hstop 4 _ _ t5 C4 ltac:(lia) H5); rewrite Hrun; reflexivity).
  pose proof (completes_next w repo_url s 4 _ t5 C4 H5) as C5.
  exists 5, (count_step t5). split; [exact C5|]. left. split; [reflexivity|].
  rewrite Hrun. reflexivity.
Qed.

(** ** What each step leaves behind *)

Section Steps.

Variable w : World.
Variable repo_url : string.

Lemma summary_extend (n : nat) (s : State) (sig : signal unit unit)
  (evs : list event) :
  Forall (step_event w repo_url n) evs ->
  step_ending n sig evs ->
  step_summary w repo_url n s sig (extend s evs).
Proof. intros Hev Hend. split; [reflexivity|]. now exists evs. Qed.

Lemma ends_with_last (pre : list event) (e : event) : ends_with (pre ++ [e]) e.
Proof. now exists pre. Qed.

Lemma ends_with_cons (x e : event) (evs : list event) :
  ends_with evs e -> ends_with (x :: evs) e.
Proof. intros (pre & ->). now exists (x :: pre). Qed.

Lemma ends_with_app (a evs : list event) (e : event) :
  ends_with evs e -> ends_with (a ++ evs) e.
Proof. intros (pre & ->). exists (a ++ pre). now rewrite app_assoc. Qed.

Lemma console_step_event (n : nat) (l : list event) :
  forallb is_console l = true -> Forall (step_event w repo_url n) l.
Proof.
  intros H. apply Forall_forall. intros e He.
  apply ev_console. rewrite forallb_forall in H. now apply H.
Qed.

Lemma listing_step_events (n : nat) (l : list string) :
  Forall (step_event w repo_url n) (listing l).
Proof.
  apply console_step_event. unfold listing. simpl.
  induction (enumerate l) as [|x xs IHxs]; simpl; auto.
Qed.

Ltac step_event_tac :=
  first [ apply ev_console; reflexivity
        | apply ev_makedirs | apply ev_which_git | apply ev_download
        | apply ev_installer | apply ev_remove | apply ev_exists
        | apply ev_rmtree | apply ev_clone | apply ev_manifest_req
        | apply ev_manifest_pkg | apply ev_which_python | apply ev_which_npm
        | apply ev_pip | apply ev_npm_install | apply ev_isfile | apply ev_glob
        | apply ev_input | apply ev_python | apply ev_npm_start ].

Ltac step_events_tac :=
  repeat first [ assumption
               | apply listing_step_events
               | apply Forall_nil
               | apply Forall_cons; [step_event_tac|]
               | apply Forall_app; split ].

Ltac ends_tac :=
  first [ exists []; reflexivity
        | apply ends_with_last
        | apply ends_with_cons; ends_tac
        | apply ends_with_app; ends_tac ].

Ltac ending_tac :=
  first [ exact I | reflexivity | split; [lia|]; eexists; ends_tac ].

Ltac summary_tac :=
  apply summary_extend; [solve [step_events_tac] | ending_tac].

(** Step 1. *)
Lemma step_workdir_summary (s : State) (sig : signal unit unit) (s' : State) :
  step_workdir w s = (sig, s') -> step_summary w repo_url 1 s sig s'.
Proof.
  unfold step_workdir, bind, log, emit, os_makedirs, act.
  rewrite !record_extend, !extend_extend.
  destruct (makedirs w _ WORKDIR) as [e|]; intros H; injection H as <- <-;
    apply summary_extend; [step_events_tac | reflexivity | step_events_tac | exact I].
Qed.

(** Step 2. *)
Lemma install_git_step_event (e : event) :
  install_git_event w e -> step_event w repo_url 2 e.
Proof.
  intros [H|[(r & ->)|[(r & ->)|(r & ->)]]];
    [now apply ev_console | apply ev_download | apply ev_installer | apply ev_remove].
Qed.

Lemma install_shape_events (b : bool) (evs : list event) :
  install_shape w b evs -> Forall (step_event w repo_url 2) evs.
Proof.
  intros H. apply Forall_forall. intros e He.
  apply install_git_step_event. revert e He. apply Forall_forall.
  destruct H as [evs H1|sig evs1 evs2 b H1 _ H2].
  - apply (attempt_shape_facts w _ _ _ H1).
  - apply Forall_app. split;
      [apply (attempt_shape_facts w _ _ _ H1) | apply (attempt_shape_facts w _ _ _ H2)].
Qed.

Lemma step_git_summary (s : State) (sig : signal unit unit) (s' : State) :
  step_git w s = (sig, s') -> step_summary w repo_url 2 s sig s'.
Proof.
  unfold step_git. unfold bind at 1, log at 1, emit at 1. unfold bind at 1.
  rewrite record_extend.
  destruct (ensure_git_summary w (R:=unit)
              (extend s [ELog "Sprawdzam/zainstaluję Git..."]))
    as (b & evs & Hrun & Hcase).
  rewrite Hrun, extend_extend.
  assert (Hevs : Forall (step_event w repo_url 2) evs).
  { destruct (which w _ "git").
    - destruct Hcase as [_ ->]. step_events_tac.
    - now apply (install_shape_events b). }
  destruct b; unfold when, negb, bind, log_error, emit, return_, ret;
    rewrite ?record_extend, ?extend_extend;
    intros H; injection H as <- <-; summary_tac.
Qed.

Lemma step_ending_app (n : nat) (sig : signal unit unit) (a evs : list event) :
  step_ending n sig evs -> step_ending n sig (a ++ evs).
Proof.
  destruct sig as [[]| | | | ]; simpl; auto.
  - intros (Hn & msg & Hend). split; [exact Hn|]. exists msg.
    now apply ends_with_app.
  - intros (Hn & Hend). split; [exact Hn|]. now apply ends_with_app.
Qed.

Lemma summary_prepend (n : nat) (s s1 : State) (evs0 : list event)
  (sig : signal unit unit) (s' : State) :
  hist s1 = hist s ++ evs0 ->
  step_idx s1 = step_idx s ->
  Forall (step_event w repo_url n) evs0 ->
  step_summary w repo_url n s1 sig s' ->
  step_summary w repo_url n s sig s'.
Proof.
  intros Hh Hi Hev0 (Hidx & evs & Hhist & Hev & Hend).
  split; [congruence|]. exists (evs0 ++ evs). split; [|split].
  - rewrite Hhist, Hh. now rewrite app_assoc.
  - now apply Forall_app.
  - now apply step_ending_app.
Qed.

Lemma summary_after (n : nat) (s : State) (evs0 : list event)
  (sig : signal unit unit) (s' : State) :
  Forall (step_event w repo_url n) evs0 ->
  step_summary w repo_url n (extend s evs0) sig s' ->
  step_summary w repo_url n s sig s'.
Proof. intros Hev0. now apply (summary_prepend n s (extend s evs0) evs0). Qed.

Lemma run_cmd_step (n : nat) (cmd : list string) (cwd : option string)
  (shell : bool) (s : State) :
  (forall o, step_event w repo_url n (EPopen cmd cwd shell o)) ->
  exists rc evs,
    run_cmd w (R:=unit) cmd cwd shell s = (Normal rc, extend s evs)
    /\ Forall (step_event w repo_url n) evs.
Proof.
  intros Hcmd.
  destruct (run_cmd_summary w cmd cwd shell (R:=unit) s) as (rc & evs & Hrun & Hev & _).
  exists rc, evs. split; [exact Hrun|].
  apply (Forall_impl _ (P:=run_cmd_event cmd cwd shell)); [|exact Hev].
  intros e [Hc|(o & ->)]; [now apply ev_console | apply Hcmd].
Qed.

(** Running a command and leaving the function when it fails. *)
Lemma run_checked_summary (n : nat) (cmd : list string) (cwd : option string)
  (shell : bool) (msg : string) (s : State) :
  n < 5 ->
  (forall o, step_event w repo_url n (EPopen cmd cwd shell o)) ->
  exists evs,
    Forall (step_event w repo_url n) evs
    /\ ((exit_code <- run_cmd w cmd cwd shell ;;
         when (negb (exit_code =? 0)%Z) (log_error msg ;; return_ tt)) s
        = (Normal tt, extend s evs)
        \/ (exit_code <- run_cmd w cmd cwd shell ;;
            when (negb (exit_code =? 0)%Z) (log_error msg ;; return_ tt)) s
           = (Return tt, extend s (evs ++ [ELogError msg]))).
Proof.
  intros Hn Hcmd.
  destruct (run_cmd_step n cmd cwd shell s Hcmd) as (rc & evs & Hrun & Hev).
  exists evs. split; [exact Hev|].
  destruct (rc =? 0)%Z eqn:Hrc; [left | right];
    unfold bind at 1; rewrite Hrun, Hrc; [reflexivity|].
  unfold when, negb, bind, log_error, emit, return_.
  now rewrite record_extend, extend_extend.
Qed.

(** Step 3. *)
Lemma step_clone_summary (s : State) (sig : signal unit unit) (s' : State) :
  step_clone w repo_url (target_dir w repo_url) s = (sig, s') ->
  step_summary w repo_url 3 s sig s'.
Proof.
  assert (Htail : forall s0 : State,
    (log "Klonuję repozytorium..." ;;
     exit_code <- run_cmd w ["git"; "clone"; repo_url] (Some WORKDIR) false ;;
     when (negb (exit_code =? 0)%Z)
       (log_error "Błąd podczas klonowania repozytorium!" ;; return_ tt) ;;
     log ("Sklonowano do " +++ target_dir w repo_url)) s0 = (sig, s') ->
    step_summary w repo_url 3 s0 sig s').
  { intros s0. unfold bind at 1, log at 1, emit at 1. rewrite record_extend.
    intros H. apply (summary_after 3 s0 [ELog "Klonuję repozytorium..."]);
      [step_events_tac|].
    revert H. generalize (extend s0 [ELog "Klonuję repozytorium..."]). clear s0.
    intros s0.
    destruct (run_cmd_step 3 (clone_cmd repo_url) (Some WORKDIR) false s0
                (ev_clone w repo_url)) as (rc & evs & Hrun & Hev).
    unfold clone_cmd in Hrun. unfold bind at 1. rewrite Hrun.
    destruct (rc =? 0)%Z;
      unfold when, negb, bind, log_error, log, emit, return_, ret;
      rewrite ?record_extend, ?extend_extend;
      intros H; injection H as <- <-; summary_tac. }
  unfold step_clone. unfold bind at 1, os_path_exists at 1, ask.
  rewrite record_extend.
  destruct (path_exists w (hist s) (target_dir w repo_url)).
  - unfold when at 1. unfold bind at 1. unfold bind at 1, log at 1, emit at 1.
    rewrite record_extend, extend_extend. simpl app.
    unfold try_except, shutil_rmtree, act. rewrite record_extend, extend_extend.
    simpl app.
    destruct (rmtree w _ (target_dir w repo_url)) as [e|].
    + unfold bind, log_error, emit, return_. rewrite record_extend, extend_extend.
      intros H. injection H as <- <-. summary_tac.
    + intros H. apply Htail in H.
      eapply (summary_after 3 s); [|exact H]. step_events_tac.
  - unfold when at 1. unfold bind at 1, ret at 1.
    intros H. apply Htail in H.
    eapply (summary_after 3 s); [|exact H]. step_events_tac.
Qed.

Lemma ensure_python_eq {R} (s : State) :
  ensure_python w (R:=R) s
  = if which w (hist s) "python"
    then (Normal true,
          extend s [EWhich "python" true; ELog "Python jest zainstalowany."])
    else (Normal false,
          extend s [EWhich "python" false;
                    ELogError "Python nie jest zainstalowany! Przerwij i doinstaluj Pythona."]).
Proof.
  unfold ensure_python, call, bind, check_exe, call, bind, shutil_which, ask,
    return_, log, log_error, emit.
  destruct (which w (hist s) "python");
    now rewrite !record_extend, extend_extend.
Qed.

Lemma ensure_npm_eq {R} (s : State) :
  ensure_npm w (R:=R) s
  = if which w (hist s) "npm"
    then (Normal true,
          extend s [EWhich "npm" true; ELog "Node.js (npm) jest zainstalowany."])
    else (Normal false,
          extend s [EWhich "npm" false;
                    ELogError "Node.js / npm nie jest zainstalowany! Przerwij i doinstaluj Node.js."]).
Proof.
  unfold ensure_npm, call, bind, check_exe, call, bind, shutil_which, ask,
    return_, log, log_error, emit.
  destruct (which w (hist s) "npm");
    now rewrite !record_extend, extend_extend.
Qed.

(** Step 4. *)
Lemma step_install_summary (s : State) (sig : signal unit unit) (s' : State) :
  step_install w (target_dir w repo_url) (req_path w repo_url) (pkg_path w repo_url) s
    = (sig, s') ->
  step_summary w repo_url 4 s sig s'.
Proof.
  unfold step_install. unfold bind at 1, os_path_isfile at 1, ask.
  rewrite record_extend.
  destruct (isfile w (hist s) (req_path w repo_url)).
  - (* the Python path *)
    unfold bind at 1, log at 1, emit at 1. rewrite record_extend, extend_extend.
    unfold bind at 1. rewrite ensure_python_eq.
    destruct (which w _ "python"); rewrite extend_extend; simpl app.
    + unfold bind at 1.
      change (when (negb true) (return_ tt) ?st) with (@Normal unit unit tt, st).
      cbv iota beta.
      unfold bind at 1, log at 1, emit at 1. rewrite record_extend, extend_extend.
      simpl app.
      match goal with
      | |- context [bind _ _ (extend s ?l)] =>
          destruct (run_checked_summary 4 (pip_cmd w) (Some (target_dir w repo_url))
                      false "Błąd podczas instalowania zależności pip!"
                      (extend s l) ltac:(lia) (ev_pip w repo_url))
            as (evs & Hev & [Hrun|Hrun])
      end;
        unfold pip_cmd in Hrun; rewrite Hrun, extend_extend;
        intros H; injection H as <- <-; summary_tac.
    + unfold bind, when, negb, return_.
      intros H. injection H as <- <-. summary_tac.
  - unfold bind at 1, os_path_isfile at 1, ask.
    rewrite record_extend, extend_extend. simpl app.
    destruct (isfile w _ (pkg_path w repo_url)).
    + (* the Node path *)
      unfold bind at 1, log at 1, emit at 1. rewrite record_extend, extend_extend.
      unfold bind at 1. rewrite ensure_npm_eq.
      destruct (which w _ "npm"); rewrite extend_extend; simpl app.
      * unfold bind at 1.
      change (when (negb true) (return_ tt) ?st) with (@Normal unit unit tt, st).
      cbv iota beta.
        unfold bind at 1, log at 1, emit at 1. rewrite record_extend, extend_extend.
        simpl app.
        match goal with
        | |- context [bind _ _ (extend s ?l)] =>
            destruct (run_checked_summary 4 ["npm"; "install"]
                        (Some (target_dir w repo_url))
                        false "Błąd podczas npm install!"
                        (extend s l) ltac:(lia) (ev_npm_install w repo_url))
              as (evs & Hev & [Hrun|Hrun])
        end;
          rewrite Hrun, extend_extend;
          intros H; injection H as <- <-; summary_tac.
      * unfold bind, when, negb, return_.
        intros H. injection H as <- <-. summary_tac.
    + (* no manifest *)
      unfold bind, log_error, emit, return_. rewrite record_extend, extend_extend.
      intros H. injection H as <- <-. summary_tac.
Qed.

(** Step 5. *)
Lemma valid_choice_in (pyfiles : list string) (line : string) :
  valid_choice w pyfiles line = true ->
  In (nth (Z.to_nat (match py_int w line with
                     | Some c => c - 1
                     | None => 0
                     end)) pyfiles EmptyString) pyfiles.
Proof.
  unfold valid_choice. destruct (py_int w line) as [c|]; [|discriminate].
  intros H. apply andb_true_iff in H as [H1 H2].
  apply Z.leb_le in H1, H2. apply nth_In. lia.
Qed.

Lemma choice_loop_summary {A} (pyfiles : list string) (n : nat) :
  forall (s : State) (sig : signal (option string) A) (s' : State),
    choice_loop w pyfiles n s = (sig, s') ->
    step_idx s' = step_idx s
    /\ exists evs,
         hist s' = hist s ++ evs
         /\ Forall (step_event w repo_url 5) evs
         /\ ((exists f, sig = Return (Some f) /\ In f pyfiles)
             \/ (sig = Diverge
                 /\ ((n = 0 /\ evs = [])
                     \/ ends_with evs (EPrint "Nieprawidłowy wybór.")))).
Proof.
  induction n as [|n IH]; intros s sig s' H.
  - injection H as <- <-. split; [reflexivity|]. exists []. split.
    + now rewrite app_nil_r.
    + split; [constructor|]. right. split; [reflexivity|]. now left.
  - cbn [choice_loop] in H. unfold bind in H. rewrite ask_choice_eq in H.
    assert (Hnext : forall (s1 : State) (evs1 : list event),
               hist s1 = hist s ++ evs1 ->
               step_idx s1 = step_idx s ->
               Forall (step_event w repo_url 5) evs1 ->
               ends_with evs1 (EPrint "Nieprawidłowy wybór.") ->
               choice_loop w pyfiles n s1 = (sig, s') ->
               step_idx s' = step_idx s
               /\ exists evs,
                    hist s' = hist s ++ evs
                    /\ Forall (step_event w repo_url 5) evs
                    /\ ((exists f, sig = Return (Some f) /\ In f pyfiles)
                        \/ (sig = Diverge
                            /\ ((S n = 0 /\ evs = [])
                                \/ ends_with evs (EPrint "Nieprawidłowy wybór."))))).
    { intros s1 evs1 Hh Hi Hev1 Hend1 Hloop.
      destruct (IH s1 sig s' Hloop) as (Hidx & evs & Hhist & Hev & Hsig).
      split; [congruence|]. exists (evs1 ++ evs). split; [|split].
      - rewrite Hhist, Hh. now rewrite app_assoc.
      - now apply Forall_app.
      - destruct Hsig as [Hret|(-> & Hdiv)]; [now left | right].
        split; [reflexivity|]. right.
        destruct Hdiv as [(_ & ->)|Hdiv].
        + now rewrite app_nil_r.
        + now apply ends_with_app. }
    destruct (stdin s) as [|line rest].
    + apply (Hnext _ [EInput choice_prompt None; EPrint "Nieprawidłowy wybór."]) in H;
        [exact H | reflexivity | reflexivity | step_events_tac | ends_tac].
    + destruct (valid_choice w pyfiles line) eqn:Hvalid.
      * injection H as <- <-. split; [reflexivity|].
        exists [EInput choice_prompt (Some line)].
        split; [reflexivity|]. split; [step_events_tac|]. left.
        eexists. split; [reflexivity|]. now apply valid_choice_in.
      * apply (Hnext _ (turned_down line)) in H;
          [exact H | reflexivity | reflexivity
          | unfold turned_down; step_events_tac
          | unfold turned_down; ends_tac].
Qed.

(** [find_python_entrypoint] returns one of the usual names, a file that
    the folder holds, or nothing; or it never returns. *)
Lemma find_python_entrypoint_summary {R} (s : State) :
  exists (sig : signal R (option string)) (s' : State),
    find_python_entrypoint w (R:=R) (target_dir w repo_url) s = (sig, s')
    /\ step_idx s' = step_idx s
    /\ exists evs,
         hist s' = hist s ++ evs
         /\ Forall (step_event w repo_url 5) evs
         /\ ((exists r, sig = Normal r)
             \/ (sig = Diverge /\ ends_with evs (EPrint "Nieprawidłowy wybór."))).
Proof.
  rewrite find_python_entrypoint_eq. cbv zeta.
  set (p := path_join w (target_dir w repo_url)).
  destruct (isfile w (hist s) (p "main.py")).
  { eexists. eexists. split; [reflexivity|]. split; [reflexivity|].
    eexists. split; [reflexivity|]. split; [step_events_tac | left; eauto]. }
  destruct (isfile w _ (p "app.py")).
  { eexists. eexists. split; [reflexivity|]. split; [reflexivity|].
    eexists. split; [reflexivity|]. split; [step_events_tac | left; eauto]. }
  destruct (isfile w _ (p "index.py")).
  { eexists. eexists. split; [reflexivity|]. split; [reflexivity|].
    eexists. split; [reflexivity|]. split; [step_events_tac | left; eauto]. }
  destruct (length _ =? 1)%nat.
  { eexists. eexists. split; [reflexivity|]. split; [reflexivity|].
    eexists. split; [reflexivity|]. split; [step_events_tac | left; eauto]. }
  destruct (1 <? length _)%nat.
  2: { eexists. eexists. split; [reflexivity|]. split; [reflexivity|].
       eexists. split; [reflexivity|]. split; [step_events_tac | left; eauto]. }
  unfold call.
  match goal with
  | |- context [choice_loop w ?l ?n ?st] =>
      destruct (choice_loop w (A:=option string) l n st) as [sig s'] eqn:Hloop;
      destruct (choice_loop_summary l n st sig s' Hloop)
        as (Hidx & evs & Hhist & Hev & Hsig)
  end.
  destruct Hsig as [(f & -> & _)|(-> & Hdiv)].
  - eexists. eexists. split; [reflexivity|]. split; [exact Hidx|].
    eexists. split; [rewrite Hhist; simpl; rewrite <- app_assoc; reflexivity|].
    split; [|left; eauto].
    apply Forall_app; split; [|exact Hev]. step_events_tac.
  - eexists. eexists. split; [reflexivity|]. split; [exact Hidx|].
    eexists. split; [rewrite Hhist; simpl; rewrite <- app_assoc; reflexivity|].
    split.
    + apply Forall_app; split; [|exact Hev]. step_events_tac.
    + right. split; [reflexivity|].
      destruct Hdiv as [(Hn & _)|Hend]; [discriminate | now apply ends_with_app].
Qed.

Lemma step_run_summary (s : State) (sig : signal unit unit) (s' : State) :
  step_run w (target_dir w repo_url) (req_path w repo_url) (pkg_path w repo_url) s
    = (sig, s') ->
  step_summary w repo_url 5 s sig s'.
Proof.
  unfold step_run. unfold bind at 1, os_path_isfile at 1, ask.
  rewrite record_extend.
  destruct (isfile w (hist s) (req_path w repo_url)).
  - (* a Python project *)
    unfold bind at 1.
    destruct (find_python_entrypoint_summary (R:=unit)
                (extend s [EIsFile (req_path w repo_url) true]))
      as (fsig & s1 & Hfind & Hidx1 & evs1 & Hhist1 & Hev1 & Hsig1).
    rewrite Hfind. cbn [extend step_idx hist] in Hidx1, Hhist1.
    destruct Hsig1 as [(entry_py & ->)|(-> & Hdiv)].
    + destruct (truthy entry_py).
      * unfold bind at 1, log at 1, emit at 1. rewrite record_extend.
        unfold bind at 1.
        match goal with
        | |- context [run_cmd w ?c ?d ?b ?st] =>
            destruct (run_cmd_step 5 c d b st (ev_python w repo_url _))
              as (rc & evs & Hrun & Hev)
        end.
        rewrite Hrun. unfold ret. intros H. injection H as <- <-.
        split; [simpl; congruence|].
        eexists. split; [|split; [|exact I]].
        -- simpl. rewrite Hhist1. simpl. rewrite <- !app_assoc. reflexivity.
        -- simpl. step_events_tac.
      * unfold log_error, emit. rewrite record_extend.
        intros H. injection H as <- <-.
        split; [simpl; congruence|].
        eexists. split; [|split; [|exact I]].
        -- simpl. rewrite Hhist1. simpl. rewrite <- !app_assoc. reflexivity.
        -- simpl. step_events_tac.
    + intros H. injection H as <- <-.
      split; [simpl; congruence|].
      eexists. split; [|split].
      * rewrite Hhist1. simpl. rewrite <- !app_assoc. reflexivity.
      * simpl. step_events_tac.
      * split; [reflexivity|]. now apply ends_with_cons.
  - unfold bind at 1, os_path_isfile at 1, ask.
    rewrite record_extend, extend_extend. simpl app.
    destruct (isfile w _ (pkg_path w repo_url)).
    + (* a Node project *)
      unfold when. unfold bind at 1, log at 1, emit at 1.
      rewrite record_extend, extend_extend. simpl app. unfold bind at 1.
      match goal with
      | |- context [run_cmd w ?c ?d ?b ?st] =>
          destruct (run_cmd_step 5 c d b st (ev_npm_start w repo_url))
            as (rc & evs & Hrun & Hev)
      end.
      rewrite Hrun, extend_extend. unfold ret. intros H. injection H as <- <-.
      summary_tac.
    + unfold when, ret. intros H. injection H as <- <-. summary_tac.
Qed.

(** Every step keeps the step counter, adds only events of its own kind,
    and ends in one of the ways open to it. *)
Lemma nth_step_summary (n : nat) (s : State) (sig : signal unit unit) (s' : State) :
  1 <= n <= 5 ->
  nth_step w repo_url n s = (sig, s') ->
  step_summary w repo_url n s sig s'.
Proof.
  intros Hn.
  destruct n as [|[|[|[|[|[|n]]]]]]; try lia; unfold nth_step.
  - apply step_workdir_summary.
  - apply step_git_summary.
  - apply step_clone_summary.
  - apply step_install_summary.
  - apply step_run_summary.
Qed.

End Steps.

(** ** The workflow as a whole *)

Section Workflow.

Variable w : World.
Variable repo_url : string.

Lemma console_workflow_event (e : event) :
  is_console e = true -> workflow_event w repo_url e.
Proof.
  intros H. right. exists 1. split; [lia | now apply ev_console].
Qed.

Lemma step_workflow_events (n : nat) (evs : list event) :
  1 <= n <= 5 ->
  Forall (step_event w repo_url n) evs -> Forall (workflow_event w repo_url) evs.
Proof.
  intros Hn. apply Forall_impl. intros e He. right. now exists n.
Qed.

(** After [k] completed steps the counter is [k], and the history has
    grown by events of the workflow. *)
Lemma completes_trace (s : State) (k : nat) (t : State) :
  completes w repo_url s k t ->
  k <= 5 ->
  step_idx t = k
  /\ exists evs,
       hist t = hist s ++ evs /\ Forall (workflow_event w repo_url) evs.
Proof.
  induction 1 as [|k t t' Hk IH Hstep]; intros Hle.
  - split; [reflexivity|]. eexists. split; [reflexivity|].
    constructor; [now left | constructor].
  - destruct IH as (Hidx & evs & Hhist & Hev); [lia|].
    destruct (nth_step_summary w repo_url (S k) t (Normal tt) t' ltac:(lia) Hstep)
      as (Hidx' & evs' & Hhist' & Hev' & _).
    split; [unfold count_step, report; simpl; lia|].
    eexists. split.
    + unfold count_step, report, record. simpl. rewrite Hhist', Hhist.
      rewrite <- !app_assoc. reflexivity.
    + apply Forall_app. split; [exact Hev|]. apply Forall_app. split.
      * now apply (step_workflow_events (S k)); [lia|].
      * constructor; [now left | constructor].
Qed.

(** [do_workflow] returns, after the final message or after an error
    report, or never ends because the question about the start file gets
    no valid answer; it lets no exception through. *)
Lemma do_workflow_trace {R} (s : State) :
  exists (sig : signal R unit) (s' : State) (evs : list event),
    do_workflow w (R:=R) repo_url s = (sig, s')
    /\ hist s' = hist s ++ evs
    /\ Forall (workflow_event w repo_url) evs
    /\ ((sig = Normal tt
         /\ (ends_with evs (ELog "Gotowe!")
             \/ exists msg, ends_with evs (ELogError msg)))
        \/ (sig = Diverge /\ ends_with evs (EPrint "Nieprawidłowy wybór."))).
Proof.
  destruct (do_workflow_phases (R:=R) w repo_url s)
    as (k & t & Hk & [(-> & Hrun)|(Hlt & sig & t' & Hstep & Hab)]).
  - destruct (completes_trace s 5 t Hk ltac:(lia)) as (_ & evs & Hhist & Hev).
    exists (Normal tt), (extend t [ELog "Gotowe!"]), (evs ++ [ELog "Gotowe!"]).
    split; [exact Hrun|]. split; [simpl; rewrite Hhist; now rewrite app_assoc|].
    split.
    + apply Forall_app. split; [exact Hev|].
      constructor; [now apply console_workflow_event | constructor].
    + left. split; [reflexivity|]. left. apply ends_with_last.
  - destruct (completes_trace s k t Hk ltac:(lia)) as (_ & evs & Hhist & Hev).
    destruct (nth_step_summary w repo_url (S k) t sig t' ltac:(lia) Hstep)
      as (_ & evs' & Hhist' & Hev' & Hend).
    apply (step_workflow_events (S k)) in Hev'; [|lia].
    destruct sig as [[]|[]| |e| ]; simpl in Hab, Hend;
      try discriminate Hab; try contradiction;
      injection Hab as Hab; rewrite <- Hab.
    + exists (Normal tt), t', (evs ++ evs').
      split; [reflexivity|]. split; [rewrite Hhist', Hhist; now rewrite app_assoc|].
      split; [now apply Forall_app|]. left. split; [reflexivity|]. right.
      destruct Hend as (_ & msg & Hmsg). exists msg. now apply ends_with_app.
    + exists (Normal tt), (extend t' [ELogError (critical_msg e)]),
        (evs ++ evs' ++ [ELogError (critical_msg e)]).
      split; [reflexivity|].
      split; [simpl; rewrite Hhist', Hhist; now rewrite <- !app_assoc|].
      split.
      * apply Forall_app. split; [exact Hev|]. apply Forall_app.
        split; [exact Hev'|].
        constructor; [now apply console_workflow_event | constructor].
      * left. split; [reflexivity|]. right. exists (critical_msg e).
        apply ends_with_app. apply ends_with_app. now exists [].
    + exists Diverge, t', (evs ++ evs').
      split; [reflexivity|]. split; [rewrite Hhist', Hhist; now rewrite app_assoc|].
      split; [now apply Forall_app|]. right. split; [reflexivity|].
      apply ends_with_app. apply Hend.
Qed.

Lemma step_event_within_scope (n : nat) (e : event) :
  step_event w repo_url n e -> within_scope w repo_url e.
Proof.
  intros H. destruct H; simpl; auto.
  all: try (destruct e; try discriminate; exact I).
  all: right; split; [reflexivity|];
    first [ left; split; reflexivity
          | right; left; split; reflexivity
          | right; right; left; split; [eexists; reflexivity | reflexivity]
          | right; right; right; split; reflexivity ].
Qed.

End Workflow.

(** ** Further properties of the script *)

(** X5.  [do_workflow] never stops without a word: whenever it returns,
    the last thing it did was to log the final message or to report an
    error. *)
Theorem do_workflow_never_stops_silently {R} (w : World) (repo_url : string)
  (s s' : State) :
  do_workflow w (R:=R) repo_url s = (Normal tt, s') ->
  exists evs,
    hist s' = hist s ++ evs
    /\ (last evs (EPrint "") = ELog "Gotowe!"
        \/ exists msg, last evs (EPrint "") = ELogError msg).
Proof.
  intros Hret.
  destruct (do_workflow_trace w repo_url (R:=R) s)
    as (sig & s1 & evs & Hrun & Hhist & _ & Hsig).
  rewrite Hret in Hrun. injection Hrun as <- <-.
  exists evs. split; [exact Hhist|].
  destruct Hsig as [(_ & [(pre & ->)|(msg & pre & ->)])|(Hdiv & _)].
  - left. apply last_last.
  - right. exists msg. apply last_last.
  - discriminate.
Qed.

Lemma do_workflow_never_stops_silently_witness :
  do_workflow read_only_disk (R:=unit) "https://host/org/app.git" (start [])
  = (Normal tt,
     snd (do_workflow read_only_disk (R:=unit) "https://host/org/app.git" (start [])))
  /\ exists evs,
       hist (snd (do_workflow read_only_disk (R:=unit)
                    "https://host/org/app.git" (start [])))
       = hist (start []) ++ evs
       /\ (last evs (EPrint "") = ELog "Gotowe!"
           \/ exists msg, last evs (EPrint "") = ELogError msg).
Proof.
  split; [reflexivity|].
  apply (do_workflow_never_stops_silently (R:=unit) read_only_disk
           "https://host/org/app.git" (start [])).
  reflexivity.
Defined.

(** X13.  Whatever the world answers, and leaving aside the console, the
    look-ups and the log file that [log] and [log_error] keep,
    [do_workflow] makes no folder but the work folder, removes no folder
    but the one the clone goes to and no file but the downloaded
    installer, downloads nothing but the Git installer to its temporary
    place, and runs only the installer, the clone, the two dependency
    installers, the start file with the interpreter of the script, and
    [npm start], the last one alone through the shell, each in the folder
    the script gives it. *)
Theorem do_workflow_within_scope {R} (w : World) (repo_url : string) (s : State) :
  exists evs,
    hist (snd (do_workflow w (R:=R) repo_url s)) = hist s ++ evs
    /\ Forall (within_scope w repo_url) evs.
Proof.
  destruct (do_workflow_trace w repo_url (R:=R) s)
    as (sig & s' & evs & Hrun & Hhist & Hev & _).
  exists evs. rewrite Hrun. split; [exact Hhist|].
  apply (Forall_impl _ (P:=workflow_event w repo_url)); [|exact Hev].
  intros e [Hp|(n & _ & Hn)].
  - destruct e; try discriminate; exact I.
  - now apply (step_event_within_scope w repo_url n).
Qed.

(** X1.  [ensure_python] and [ensure_npm] only look the tool up on the
    path and write one line: the value is whether the tool was found, and
    when it was not, the line is an error report.  Nothing is downloaded,
    installed or launched for them. *)
Theorem tools_without_remediation {R} (w : World) (s : State) :
  (exists e,
     ensure_python w (R:=R) s
     = (Normal (which w (hist s) "python"),
        extend s [EWhich "python" (which w (hist s) "python"); e])
     /\ is_console e = true
     /\ (which w (hist s) "python" = false -> exists msg, e = ELogError msg))
  /\ (exists e,
        ensure_npm w (R:=R) s
        = (Normal (which w (hist s) "npm"),
           extend s [EWhich "npm" (which w (hist s) "npm"); e])
        /\ is_console e = true
        /\ (which w (hist s) "npm" = false -> exists msg, e = ELogError msg)).
Proof.
  split.
  - rewrite ensure_python_eq. destruct (which w (hist s) "python");
      eexists; (split; [reflexivity|]); (split; [reflexivity|]);
      [discriminate | intros _; eexists; reflexivity].
  - rewrite ensure_npm_eq. destruct (which w (hist s) "npm");
      eexists; (split; [reflexivity|]); (split; [reflexivity|]);
      [discriminate | intros _; eexists; reflexivity].
Qed.

Lemma attempt_shape_failed (w : World) (attempt : nat) (evs : list event) :
  attempt_shape w attempt (Return false) evs ->
  exists msg, ends_with evs (ELogError msg).
Proof.
  intros H. inversion H; subst; try discriminate; eexists;
    first [ apply (ends_with_last [_; _])
          | apply ends_with_app; apply (ends_with_last [_])
          | apply ends_with_app; apply (ends_with_last [_; _; _]) ].
Qed.

(** X2.  Whenever [ensure_git] returns: if Git is on the path, the value
    is [True] and nothing was done but the look-up and one line of log;
    and if the value is [False], Git was not on the path and the last
    thing done was an error report. *)
Theorem ensure_git_reports_failure {R} (w : World) (s s' : State) (b : bool) :
  ensure_git w (R:=R) s = (Normal b, s') ->
  exists evs,
    s' = extend s (EWhich "git" (which w (hist s) "git") :: evs)
    /\ (which w (hist s) "git" = true ->
        b = true /\ evs = [ELog "Git jest zainstalowany."])
    /\ (b = false ->
        which w (hist s) "git" = false
        /\ exists msg, ends_with evs (ELogError msg)).
Proof.
  intros Hret.
  destruct (ensure_git_summary w (R:=R) s) as (b' & evs & Hrun & Hcase).
  rewrite Hret in Hrun. injection Hrun as <- ->.
  exists evs. split; [reflexivity|].
  destruct (which w (hist s) "git").
  - destruct Hcase as [-> ->]. split; [now split | discriminate].
  - split; [discriminate|]. intros ->. split; [reflexivity|].
    inversion Hcase as [|sig evs1 evs2 b0 H1 Hsig H2]; subst.
    destruct (attempt_shape_failed w 2 evs2 H2) as (msg & Hmsg).
    exists msg. destruct Hmsg as (pre & ->). exists (evs1 ++ pre).
    now rewrite app_assoc.
Qed.

Lemma ensure_git_reports_failure_witness :
  ensure_git flaky_network (R:=unit) (start [])
  = (Normal false, snd (ensure_git flaky_network (R:=unit) (start [])))
  /\ which flaky_network (hist (start [])) "git" = false
  /\ exists evs msg,
       snd (ensure_git flaky_network (R:=unit) (start []))
       = extend (start []) (EWhich "git" false :: evs)
       /\ ends_with evs (ELogError msg).
Proof.
  split; [reflexivity|]. split; [reflexivity|].
  destruct (ensure_git_reports_failure (R:=unit) flaky_network (start [])
              (snd (ensure_git flaky_network (R:=unit) (start []))) false eq_refl)
    as (evs & Heq & _ & Hfalse).
  destruct (Hfalse eq_refl) as (_ & msg & Hmsg).
  exists evs, msg. split; [exact Heq | exact Hmsg].
Defined.

(** X6.  When the work folder cannot be made, the exception reaches the
    handler of [do_workflow]: it is reported as a critical exception, the
    function returns, the step counter is still zero, and neither Git nor
    anything else was looked at. *)
Theorem workdir_failure_is_reported {R} (w : World) (repo_url : string)
  (s : State) (e : exn) :
  let opening :=
    [EProgress 0 ""; ELog ("Tworzę folder roboczy: " +++ WORKDIR)] in
  makedirs w (hist s ++ opening) WORKDIR = Some e ->
  do_workflow w (R:=R) repo_url s
  = (Normal tt,
     {| hist := hist s ++ opening
                ++ [EMakedirs WORKDIR (Some e); ELogError (critical_msg e)];
        stdin := stdin s;
        step_idx := 0 |}).
Proof.
  intros opening Hmk.
  unfold do_workflow, call, try_except. unfold bind at 1, set_step_idx at 1.
  cbv iota beta. unfold bind at 1, progress at 1, emit at 1. cbv iota beta.
  unfold bind at 1, step_workdir at 1. unfold bind at 1, log at 1, emit at 1.
  cbv iota beta. unfold os_makedirs, act, record.
  cbn [hist stdin step_idx Nat.ltb Nat.leb].
  rewrite <- app_assoc. cbn [app]. fold opening. rewrite Hmk.
  unfold log_error, emit, record. cbn [hist stdin step_idx].
  unfold critical_msg. rewrite <- !app_assoc. reflexivity.
Qed.

Lemma workdir_failure_is_reported_witness :
  makedirs read_only_disk
    (hist (start []) ++
     [EProgress 0 ""; ELog ("Tworzę folder roboczy: " +++ WORKDIR)]) WORKDIR
  = Some (some_error "[WinError 5]")
  /\ step_idx (snd (do_workflow read_only_disk (R:=unit)
                      "https://host/org/app.git" (start []))) = 0.
Proof.
  split; [reflexivity|].
  rewrite (workdir_failure_is_reported (R:=unit) read_only_disk
             "https://host/org/app.git" (start []) (some_error "[WinError 5]")
             eq_refl).
  reflexivity.
Defined.

(** X8.  Step 4 stops before any installer is launched when the tool of
    the detected project is not on the path: for a Python project without
    [python] it returns right after the error report of [ensure_python]
    (the interpreter that runs the script is not tried), and for a Node
    project without [npm] right after the one of [ensure_npm]. *)
Theorem missing_tool_stops_install (w : World) (dir req pkg : string) (s : State) :
  (isfile w (hist s) req = true ->
   which w (hist s ++ [EIsFile req true;
                       ELog "Wykryto projekt Python (requirements.txt)."])
     "python" = false ->
   step_install w dir req pkg s
   = (Return tt,
      extend s [EIsFile req true;
                ELog "Wykryto projekt Python (requirements.txt).";
                EWhich "python" false;
                ELogError "Python nie jest zainstalowany! Przerwij i doinstaluj Pythona."]))
  /\ (isfile w (hist s) req = false ->
      isfile w (hist s ++ [EIsFile req false]) pkg = true ->
      which w (hist s ++ [EIsFile req false; EIsFile pkg true;
                          ELog "Wykryto projekt Node.js (package.json)."])
        "npm" = false ->
      step_install w dir req pkg s
      = (Return tt,
         extend s [EIsFile req false; EIsFile pkg true;
                   ELog "Wykryto projekt Node.js (package.json).";
                   EWhich "npm" false;
                   ELogError "Node.js / npm nie jest zainstalowany! Przerwij i doinstaluj Node.js."])).
Proof.
  split.
  - intros Hreq Hpy.
    unfold step_install. unfold bind at 1, os_path_isfile at 1, ask.
    rewrite Hreq, record_extend.
    unfold bind at 1, log at 1, emit at 1. rewrite record_extend, extend_extend.
    unfold bind at 1. rewrite ensure_python_eq.
    cbn [extend hist app]. rewrite Hpy.
    unfold bind, when, negb, return_, extend. cbn [hist stdin step_idx].
    rewrite <- app_assoc. reflexivity.
  - intros Hreq Hpkg Hnpm.
    unfold step_install. unfold bind at 1, os_path_isfile at 1, ask.
    rewrite Hreq, record_extend.
    unfold bind at 1, os_path_isfile at 1, ask.
    cbn [extend hist]. rewrite Hpkg.
    unfold bind at 1, log at 1, emit at 1. unfold bind at 1.
    rewrite ensure_npm_eq. unfold record. cbn [extend hist stdin step_idx].
    rewrite <- !app_assoc. cbn [app]. rewrite Hnpm.
    unfold bind, when, negb, return_, extend. cbn [hist stdin step_idx].
    rewrite <- ?app_assoc. reflexivity.
Qed.

Lemma missing_tool_stops_install_witness :
  isfile no_python (hist (start [])) "C:\Hem4V\app\requirements.txt" = true
  /\ launched (hist (snd (step_install no_python "C:\Hem4V\app"
                            "C:\Hem4V\app\requirements.txt"
                            "C:\Hem4V\app\package.json" (start [])))) = [].
Proof.
  split; [reflexivity|].
  rewrite (proj1 (missing_tool_stops_install no_python "C:\Hem4V\app"
                    "C:\Hem4V\app\requirements.txt"
                    "C:\Hem4V\app\package.json" (start []))
             eq_refl eq_refl).
  reflexivity.
Defined.

(** X9.  For a Node project (no [requirements.txt], a [package.json])
    step 5 logs its line and hands [npm start] to [run_cmd], in the folder
    of the clone and through the shell; it resolves no start file, and it
    ends normally in the state [run_cmd] leaves, whatever the exit
    status. *)
Theorem node_project_start (w : World) (dir req pkg : string) (s : State) :
  isfile w (hist s) req = false ->
  isfile w (hist s ++ [EIsFile req false]) pkg = true ->
  let before :=
    [EIsFile req false; EIsFile pkg true; ELog "Uruchamiam npm start ..."] in
  exists rc evs,
    run_cmd w (R:=unit) ["npm"; "start"] (Some dir) true (extend s before)
    = (Normal rc, extend s (before ++ evs))
    /\ step_run w dir req pkg s = (Normal tt, extend s (before ++ evs))
    /\ Forall (run_cmd_event ["npm"; "start"] (Some dir) true) evs.
Proof.
  intros Hreq Hpkg before.
  destruct (run_cmd_summary w ["npm"; "start"] (Some dir) true (R:=unit)
              (extend s before)) as (rc & evs & Hrun & Hev & _).
  rewrite extend_extend in Hrun.
  exists rc, evs. split; [exact Hrun|]. split; [|exact Hev].
  unfold step_run. unfold bind at 1, os_path_isfile at 1, ask.
  rewrite Hreq, record_extend.
  unfold bind at 1, os_path_isfile at 1, ask.
  cbn [extend hist]. rewrite Hpkg.
  unfold when. unfold bind at 1, log at 1, emit at 1. unfold bind at 1.
  match goal with
  | |- context [run_cmd w _ _ _ ?st] =>
      replace st with (extend s before)
        by (unfold record, extend, before; cbn [hist stdin step_idx];
            rewrite <- !app_assoc; reflexivity)
  end.
  rewrite Hrun. reflexivity.
Qed.

Lemma node_project_start_witness :
  isfile failing_node_app (hist (start [])) "C:\Hem4V\app\requirements.txt" = false
  /\ exists s',
       step_run failing_node_app "C:\Hem4V\app" "C:\Hem4V\app\requirements.txt"
         "C:\Hem4V\app\package.json" (start [])
       = (Normal tt, s').
Proof.
  split; [reflexivity|].
  destruct (node_project_start failing_node_app "C:\Hem4V\app"
              "C:\Hem4V\app\requirements.txt" "C:\Hem4V\app\package.json"
              (start []) eq_refl eq_refl) as (rc & evs & _ & Hstep & _).
  eexists. exact Hstep.
Defined.

Lemma lstrip_all (p : ascii -> bool) (s : string) :
  all_chars p s = true -> lstrip p s = EmptyString.
Proof.
  induction s as [|c s IH]; [reflexivity|]. simpl.
  intros H. apply andb_true_iff in H as [Hc Hs]. rewrite Hc. now apply IH.
Qed.

(** X10.  Two edges of [main].  Without an argument and with standard
    input at its end, [input] raises [EOFError], which [main] lets
    through: only the banner was printed and the question asked.  And a
    text made of white space only (the empty one too) is turned down like
    any text that is not a link. *)
Theorem main_without_a_link {R} (w : World) (prog text : string)
  (h : history) (rest : list string) (i : nat) :
  main w (R:=R) [prog] {| hist := h; stdin := []; step_idx := i |}
  = (Raise eof_error,
     {| hist := h ++ [banner; EInput "Podaj link do repozytorium GitHub: " None];
        stdin := []; step_idx := i |})
  /\ (all_chars py_isspace text = true ->
      main w (R:=R) [prog; text] {| hist := h; stdin := rest; step_idx := i |}
      = (Normal tt,
         {| hist := h ++ [banner; bad_url]; stdin := rest; step_idx := i |})).
Proof.
  split.
  - unfold main, call, bind, print, emit, input_, record. simpl.
    rewrite <- app_assoc. reflexivity.
  - intros Hspace.
    destruct (main_accepts_http_prefix_aux w (R:=R) prog text h rest i) as [Hargv _].
    rewrite Hargv. unfold strip. rewrite (lstrip_all _ _ Hspace). reflexivity.
Qed.

Lemma main_without_a_link_witness :
  all_chars py_isspace "   " = true
  /\ main healthy (R:=unit) ["hem4v.py"; "   "] (start ["https://host/org/app.git"])
     = (Normal tt,
        {| hist := [banner; bad_url];
           stdin := ["https://host/org/app.git"]; step_idx := 0 |}).
Proof.
  split; [reflexivity|].
  apply (proj2 (main_without_a_link (R:=unit) healthy "hem4v.py" "   " []
                  ["https://host/org/app.git"] 0)).
  reflexivity.
Defined.

(** The first thing [run_cmd] does after its opening line is to launch the
    command. *)
Lemma run_cmd_starts {R} (w : World) (cmd : list string) (cwd : option string)
  (shell : bool) (s : State) :
  exists rc o rest,
    run_cmd w (R:=R) cmd cwd shell s
    = (Normal rc,
       extend s (ELog ("Uruchamiam: " +++ join_space cmd)
                 :: EPopen cmd cwd shell o :: rest)).
Proof.
  destruct (run_cmd_cases w cmd cwd shell (R:=R) s) as (logs1 & _ & Hrun).
  cbv zeta in Hrun.
  destruct (exits_zero _).
  - eexists. eexists. eexists. exact Hrun.
  - destruct Hrun as (logs2 & _ & Hrun). eexists. eexists. eexists.
    rewrite Hrun. simpl. reflexivity.
Qed.

Lemma clone_after (w : World) (repo_url : string) (s0 : State) :
  exists sig s' o rest,
    (log "Klonuję repozytorium..." ;;
     exit_code <- run_cmd w ["git"; "clone"; repo_url] (Some WORKDIR) false ;;
     when (negb (exit_code =? 0)%Z)
       (log_error "Błąd podczas klonowania repozytorium!" ;; return_ tt) ;;
     log ("Sklonowano do " +++ target_dir w repo_url)) s0 = (sig, s')
    /\ hist s'
       = hist s0
         ++ [ELog "Klonuję repozytorium...";
             ELog ("Uruchamiam: " +++ join_space (clone_cmd repo_url));
             EPopen (clone_cmd repo_url) (Some WORKDIR) false o]
         ++ rest.
Proof.
  unfold bind at 1, log at 1, emit at 1. rewrite record_extend.
  unfold bind at 1.
  destruct (run_cmd_starts (R:=unit) w (clone_cmd repo_url) (Some WORKDIR) false
              (extend s0 [ELog "Klonuję repozytorium..."]))
    as (rc & o & rest & Hrun).
  unfold clone_cmd in Hrun at 1. rewrite Hrun, extend_extend.
  destruct (rc =? 0)%Z;
    unfold when, negb, bind, log_error, log, emit, return_, ret;
    rewrite ?record_extend, ?extend_extend;
    eexists; eexists; exists o; eexists; (split; [reflexivity|]);
    cbn [extend hist app]; rewrite <- ?app_assoc; reflexivity.
Qed.

(** X7.  Step 3 and a folder left by an earlier clone.  When the target
    folder is not there, nothing is removed and the clone is launched.
    When it is there, it is removed first: if the removal raises, the
    step reports it and returns without launching anything; if it works,
    the clone is launched after it. *)
Theorem stale_folder_is_removed_first (w : World) (repo_url : string) (s : State) :
  let dir := target_dir w repo_url in
  let removing := ELog ("Usuwam istniejący folder " +++ dir +++ " ...") in
  let cloning :=
    fun o => [ELog "Klonuję repozytorium...";
              ELog ("Uruchamiam: " +++ join_space (clone_cmd repo_url));
              EPopen (clone_cmd repo_url) (Some WORKDIR) false o] in
  (path_exists w (hist s) dir = false ->
   exists sig s' o rest,
     step_clone w repo_url dir s = (sig, s')
     /\ hist s' = hist s ++ [EExists dir false] ++ cloning o ++ rest)
  /\ (path_exists w (hist s) dir = true ->
      forall e,
        rmtree w (hist s ++ [EExists dir true; removing]) dir = Some e ->
        step_clone w repo_url dir s
        = (Return tt,
           extend s [EExists dir true; removing; ERmtree dir (Some e);
                     ELogError ("Nie mogę usunąć folderu: " +++ exn_str e)]))
  /\ (path_exists w (hist s) dir = true ->
      rmtree w (hist s ++ [EExists dir true; removing]) dir = None ->
      exists sig s' o rest,
        step_clone w repo_url dir s = (sig, s')
        /\ hist s'
           = hist s ++ [EExists dir true; removing; ERmtree dir None]
             ++ cloning o ++ rest).
Proof.
  intros dir removing cloning.
  split; [|split].
  - intros Hthere.
    unfold step_clone. unfold bind at 1, os_path_exists at 1, ask.
    rewrite Hthere, record_extend. unfold when at 1. unfold bind at 1, ret at 1.
    destruct (clone_after w repo_url (extend s [EExists dir false]))
      as (sig & s' & o & rest & Hrun & Hhist).
    exists sig, s', o, rest. split; [exact Hrun|].
    rewrite Hhist. cbn [extend hist]. rewrite <- !app_assoc. reflexivity.
  - intros Hthere e Hrm.
    unfold step_clone. unfold bind at 1, os_path_exists at 1, ask.
    rewrite Hthere, record_extend. unfold when at 1. unfold bind at 1.
    unfold bind at 1, log at 1, emit at 1. rewrite record_extend, extend_extend.
    cbn [app]. fold removing.
    unfold try_except, shutil_rmtree, act. cbn [extend hist]. rewrite Hrm.
    unfold bind, log_error, emit, return_, record, extend.
    cbn [hist stdin step_idx]. rewrite <- !app_assoc. reflexivity.
  - intros Hthere Hrm.
    unfold step_clone. unfold bind at 1, os_path_exists at 1, ask.
    rewrite Hthere, record_extend. unfold when at 1. unfold bind at 1.
    unfold bind at 1, log at 1, emit at 1. rewrite record_extend, extend_extend.
    cbn [app]. fold removing.
    unfold try_except, shutil_rmtree, act. cbn [extend hist]. rewrite Hrm.
    match goal with
    | |- context [bind _ _ (record ?ev ?st)] =>
        destruct (clone_after w repo_url (record ev st))
          as (sig & s' & o & rest & Hrun & Hhist)
    end.
    exists sig, s', o, rest. split; [exact Hrun|].
    rewrite Hhist. unfold record, extend. cbn [hist].
    rewrite <- !app_assoc. reflexivity.
Qed.

Lemma stale_folder_is_removed_first_witness :
  path_exists locked_clone (hist (start []))
    (target_dir locked_clone "https://host/org/app.git") = true
  /\ launched (hist (snd (step_clone locked_clone "https://host/org/app.git"
                            (target_dir locked_clone "https://host/org/app.git")
                            (start [])))) = [].
Proof.
  split; [reflexivity|].
  destruct (stale_folder_is_removed_first locked_clone "https://host/org/app.git"
              (start [])) as (_ & Hlocked & _).
  rewrite (Hlocked eq_refl (some_error "[WinError 32]") eq_refl).
  reflexivity.
Defined.

(** [run_cmd] attempt by attempt, with everything it logs. *)
Lemma run_cmd_blocks {R} (w : World) (cmd : list string) (cwd : option string)
  (shell : bool) (s : State) :
  let start := ELog ("Uruchamiam: " +++ join_space cmd) in
  let o1 := popen w (hist s ++ [start]) cmd cwd shell in
  let launch1 := EPopen cmd cwd shell o1 :: logged_lines o1 in
  (exits_zero o1 = true
   /\ run_cmd w (R:=R) cmd cwd shell s = (Normal 0%Z, extend s (start :: launch1)))
  \/ (exits_zero o1 = false
      /\ exists msg1 notice,
           forallb is_console notice = true
           /\ let first := start :: launch1 ++ ELogError msg1 :: notice in
              let o2 := popen w (hist s ++ first) cmd cwd shell in
              let launch2 := EPopen cmd cwd shell o2 :: logged_lines o2 in
              exists rep2,
                ((exits_zero o2 = true /\ rep2 = [])
                 \/ (exits_zero o2 = false /\ exists msg2, rep2 = [ELogError msg2]))
                /\ run_cmd w (R:=R) cmd cwd shell s
                   = (Normal (status o2), extend s (first ++ launch2 ++ rep2))).
Proof.
  intros start o1 launch1.
  rewrite run_cmd_unfold, run_cmd_attempt_eq. fold start.
  change (hist (extend s [start])) with (hist s ++ [start]). fold o1.
  cbv zeta. change (1 =? MAX_ATTEMPTS)%nat with false. cbv iota.
  assert (Hsecond : forall (msg1 : string) (notice : list event),
    let first := start :: launch1 ++ ELogError msg1 :: notice in
    let o2 := popen w (hist s ++ first) cmd cwd shell in
    let launch2 := EPopen cmd cwd shell o2 :: logged_lines o2 in
    exists rep2,
      ((exits_zero o2 = true /\ rep2 = [])
       \/ (exits_zero o2 = false /\ exists msg2, rep2 = [ELogError msg2]))
      /\ match run_cmd_attempt w cmd cwd shell 2 (extend s first) with
         | (Return r, s'') => (@Normal R Z r, s'')
         | (Raise e, s'') => (Raise e, s'')
         | (Diverge, s'') => (Diverge, s'')
         | (_, s'') => (Normal (-1)%Z, s'')
         end
         = (Normal (status o2), extend s (first ++ launch2 ++ rep2))).
  { intros msg1 notice first o2 launch2. rewrite run_cmd_attempt_eq. cbv zeta.
    change (hist (extend s first)) with (hist s ++ first). fold o2.
    change (2 =? MAX_ATTEMPTS)%nat with true. cbv iota.
    unfold launch2. destruct o2 as [lines2 rc2|lines2 e2]; unfold exits_zero.
    - destruct (rc2 =? 0)%Z eqn:Hrc2.
      + apply Z.eqb_eq in Hrc2. subst rc2. exists [].
        split; [now left|]. rewrite extend_extend, app_nil_r. reflexivity.
      + eexists. split; [right; split; [reflexivity | eexists; reflexivity]|].
        rewrite extend_extend. reflexivity.
    - eexists. split; [right; split; [reflexivity | eexists; reflexivity]|].
      rewrite extend_extend. reflexivity. }
  destruct o1 as [lines1 rc1|lines1 e1] eqn:Ho1; unfold exits_zero.
  - destruct (rc1 =? 0)%Z eqn:Hrc1.
    + left. split; [reflexivity|]. now rewrite extend_extend.
    + right. split; [reflexivity|]. eexists. eexists.
      split; [|rewrite extend_extend; apply Hsecond]. reflexivity.
  - right. split; [reflexivity|]. eexists. exists [].
    split; [reflexivity|]. rewrite extend_extend. apply Hsecond.
Qed.

Lemma run_cmd_two_blocks {R} (w : World) (cmd : list string)
  (cwd : option string) (shell : bool) (s : State) :
  let start := ELog ("Uruchamiam: " +++ join_space cmd) in
  exists o1,
    (exits_zero o1 = true
     /\ run_cmd w (R:=R) cmd cwd shell s
        = (Normal 0%Z, extend s (start :: EPopen cmd cwd shell o1 :: logged_lines o1)))
    \/ (exits_zero o1 = false
        /\ exists msg1 notice o2 rep2,
             forallb is_console notice = true
             /\ ((exits_zero o2 = true /\ rep2 = [])
                 \/ (exits_zero o2 = false /\ exists msg2, rep2 = [ELogError msg2]))
             /\ run_cmd w (R:=R) cmd cwd shell s
                = (Normal (status o2),
                   extend s
                     ((start :: (EPopen cmd cwd shell o1 :: logged_lines o1)
                                ++ ELogError msg1 :: notice)
                      ++ (EPopen cmd cwd shell o2 :: logged_lines o2) ++ rep2))).
Proof.
  intros start.
  destruct (run_cmd_blocks (R:=R) w cmd cwd shell s)
    as [(Hz & Hrun)|(Hz & msg1 & notice & Hnotice & rep2 & Hrep & Hrun)].
  - eexists. left. split; [exact Hz | exact Hrun].
  - eexists. right. split; [exact Hz|].
    exists msg1, notice. eexists. exists rep2.
    split; [exact Hnotice|]. split; [exact Hrep | exact Hrun].
Qed.

Lemma launched_two_blocks (cmd : list string) (cwd : option string) (shell : bool)
  (start : string) (o1 o2 : proc_outcome) (msg1 : string)
  (notice rep2 : list event) :
  forallb is_console notice = true ->
  launched rep2 = [] ->
  launched ((ELog start :: (EPopen cmd cwd shell o1 :: logged_lines o1)
                          ++ ELogError msg1 :: notice)
            ++ (EPopen cmd cwd shell o2 :: logged_lines o2) ++ rep2)
  = [o1; o2].
Proof.
  intros Hnotice Hrep2.
  assert (Hl : forall o, launched (logged_lines o) = [])
    by (intros o; apply launched_console, logged_lines_console).
  rewrite !launched_app. cbn [launched app]. rewrite !launched_app, !Hl.
  cbn [launched app]. rewrite (launched_console notice Hnotice), Hrep2.
  reflexivity.
Qed.

(** X3.  The value of [run_cmd] is zero exactly when one of its launches
    exited with zero; and when it is not zero, the last thing [run_cmd]
    did was to report an error.  So the callers, which test the value
    against zero, take for a failure exactly the runs that did not
    succeed, and every such run has been reported. *)
Theorem run_cmd_zero_iff_success {R} (w : World) (cmd : list string)
  (cwd : option string) (shell : bool) (s : State) :
  exists rc evs,
    run_cmd w (R:=R) cmd cwd shell s = (Normal rc, extend s evs)
    /\ (rc = 0%Z <-> existsb exits_zero (launched evs) = true)
    /\ (rc <> 0%Z -> exists msg, last evs (EPrint "") = ELogError msg).
Proof.
  assert (Hl : forall o, launched (logged_lines o) = [])
    by (intros o; apply launched_console, logged_lines_console).
  destruct (run_cmd_two_blocks (R:=R) w cmd cwd shell s)
    as (o1 & [(Hz & Hrun)|(Hz & msg1 & notice & o2 & rep2 & Hnotice & Hrep & Hrun)]).
  - eexists. eexists. split; [exact Hrun|]. split.
    + cbn [launched existsb]. rewrite Hz. split; reflexivity.
    + intros Hne. now destruct Hne.
  - eexists. eexists. split; [exact Hrun|].
    assert (Hrep2 : launched rep2 = [])
      by (destruct Hrep as [(_ & ->)|(_ & msg2 & ->)]; reflexivity).
    rewrite (launched_two_blocks cmd cwd shell _ o1 o2 msg1 notice rep2 Hnotice Hrep2).
    split.
    + cbn [existsb]. rewrite Hz. cbn [orb]. rewrite orb_false_r.
      destruct o2 as [lines2 rc2|lines2 e2]; simpl;
        [symmetry; apply Z.eqb_eq | split; discriminate].
    + intros Hne.
      destruct Hrep as [(Hz2 & ->)|(Hz2 & msg2 & ->)].
      * destruct o2 as [lines2 rc2|lines2 e2]; simpl in Hz2, Hne;
          [apply Z.eqb_eq in Hz2; contradiction | discriminate].
      * exists msg2. rewrite app_assoc. apply last_last.
Qed.

Lemma launch_not_in_console (l pre post : list event) (c : list string)
  (d : option string) (b : bool) (o : proc_outcome) :
  launched l = [] -> l <> pre ++ EPopen c d b o :: post.
Proof.
  intros Hl Heq. rewrite Heq, launched_app in Hl. simpl in Hl.
  destruct (launched pre); discriminate.
Qed.

(** Where a list can be cut at a launch, when its first launch is known. *)
Lemma cut_at_launch (a : list event) :
  forall (c : list string) (d : option string) (b : bool) (o : proc_outcome)
         (rest pre : list event) (c' : list string) (d' : option string)
         (b' : bool) (o' : proc_outcome) (post : list event),
    launched a = [] ->
    a ++ EPopen c d b o :: rest = pre ++ EPopen c' d' b' o' :: post ->
    (pre = a /\ c' = c /\ d' = d /\ b' = b /\ o' = o /\ post = rest)
    \/ exists pre', rest = pre' ++ EPopen c' d' b' o' :: post.
Proof.
  induction a as [|x a IH]; intros c d b o rest pre c' d' b' o' post Ha Heq.
  - destruct pre as [|y pre]; simpl in Heq.
    + injection Heq as -> -> -> -> ->. left. now repeat split.
    + injection Heq as _ ->. right. now exists pre.
  - destruct pre as [|y pre]; simpl in Heq.
    + injection Heq as -> _. simpl in Ha. discriminate.
    + injection Heq as <- Heq.
      assert (Ha' : launched a = []) by (destruct x; simpl in Ha; congruence).
      destruct (IH _ _ _ _ _ _ _ _ _ _ _ Ha' Heq)
        as [(-> & Hrest)|Hin]; [left | now right].
      split; [reflexivity | exact Hrest].
Qed.

(** X4.  [run_cmd] first logs the command and launches it at least once.
    Wherever a launch stands among its events, it is a launch of the
    given command and what follows it at once are the lines that this
    process wrote, in their order and without the white space at their
    end (the lines being texts of code points below 256): the output of
    an attempt is in the log before anything else is logged or
    launched. *)
Theorem run_cmd_streams_output {R} (w : World) (cmd : list string)
  (cwd : option string) (shell : bool) (s : State) :
  exists rc evs,
    run_cmd w (R:=R) cmd cwd shell s = (Normal rc, extend s evs)
    /\ hd (EPrint "") evs = ELog ("Uruchamiam: " +++ join_space cmd)
    /\ launched evs <> []
    /\ forall pre c d b o post,
         evs = pre ++ EPopen c d b o :: post ->
         c = cmd /\ d = cwd /\ b = shell
         /\ exists post', post = logged_lines o ++ post'.
Proof.
  assert (Hl : forall o, launched (logged_lines o) = [])
    by (intros o; apply launched_console, logged_lines_console).
  destruct (run_cmd_two_blocks (R:=R) w cmd cwd shell s)
    as (o1 & [(Hz & Hrun)|(Hz & msg1 & notice & o2 & rep2 & Hnotice & Hrep & Hrun)]).
  - eexists. eexists. split; [exact Hrun|]. split; [reflexivity|].
    split; [discriminate|].
    intros pre c d b o post Heq.
    apply (cut_at_launch [ELog ("Uruchamiam: " +++ join_space cmd)]) in Heq;
      [|reflexivity].
    destruct Heq as [(_ & -> & -> & -> & -> & ->)|(pre' & Hin)].
    + repeat split. exists []. now rewrite app_nil_r.
    + now apply launch_not_in_console in Hin.
  - eexists. eexists. split; [exact Hrun|]. split; [reflexivity|].
    split; [discriminate|].
    assert (Hrep2 : launched rep2 = [])
      by (destruct Hrep as [(_ & ->)|(_ & msg2 & ->)]; reflexivity).
    intros pre c d b o post Heq.
    cbn [app] in Heq.
    apply (cut_at_launch [ELog ("Uruchamiam: " +++ join_space cmd)]) in Heq;
      [|reflexivity].
    destruct Heq as [(_ & -> & -> & -> & -> & ->)|(pre' & Hin)].
    + repeat split. eexists. rewrite <- app_assoc. reflexivity.
    + apply cut_at_launch in Hin.
      * destruct Hin as [(_ & -> & -> & -> & -> & ->)|(pre'' & Hin)].
        -- repeat split. now exists rep2.
        -- apply launch_not_in_console in Hin; [contradiction|].
           now rewrite launched_app, Hl, Hrep2.
      * rewrite launched_app, Hl. simpl.
        now apply launched_console.
Qed.

(** ** From a name back to the name *)

Lemma has_char_app (c : ascii) (a b : string) :
  has_char c (a +++ b) = has_char c a || has_char c b.
Proof.
  induction a as [|x a IH]; [reflexivity|]. simpl. rewrite IH.
  now rewrite orb_assoc.
Qed.

Lemma rstrip_all (p : ascii -> bool) (s : string) :
  all_chars p s = true -> rstrip p s = EmptyString.
Proof.
  induction s as [|c s IH]; [reflexivity|]. simpl.
  intros H. apply andb_true_iff in H as [Hc Hs]. rewrite (IH Hs), Hc. reflexivity.
Qed.

Lemma rstrip_app_all (p : ascii -> bool) (x tail : string) :
  all_chars p tail = true -> rstrip p (x +++ tail) = rstrip p x.
Proof.
  intros Htail. induction x as [|c x IH]; simpl.
  - now apply rstrip_all.
  - now rewrite IH.
Qed.

Lemma rstrip_keeps (p : ascii -> bool) (y : string) (c : ascii) :
  p c = false -> rstrip p (y +++ String c EmptyString) = y +++ String c EmptyString.
Proof.
  intros Hc. induction y as [|a y IH]; simpl.
  - now rewrite Hc.
  - rewrite IH. destruct y; reflexivity.
Qed.

Lemma split_without_sep (sep : ascii) (s : string) :
  has_char sep s = false -> split sep s = [s].
Proof.
  induction s as [|c s IH]; [reflexivity|]. simpl.
  intros H. apply orb_false_iff in H as [Hc Hs].
  rewrite Hc, (IH Hs). reflexivity.
Qed.

Lemma split_with_sep (sep : ascii) (s : string) :
  has_char sep s = true -> exists a b l, split sep s = a :: b :: l.
Proof.
  induction s as [|c s IH]; [discriminate|]. simpl. intros H.
  destruct (Ascii.eqb c sep) eqn:Hc.
  - pose proof (split_not_nil sep s) as Hnn.
    destruct (split sep s) as [|b l]; [contradiction|]. now exists EmptyString, b, l.
  - simpl in H. destruct (IH H) as (a & b & l & ->). now exists (String c a), b, l.
Qed.

Lemma last_split_after (sep : ascii) (base seg : string) :
  has_char sep seg = false ->
  last_item (split sep (base +++ String sep seg)) = seg.
Proof.
  intros Hseg. induction base as [|c base IH].
  - simpl. rewrite Ascii.eqb_refl, (split_without_sep sep seg Hseg). reflexivity.
  - simpl. destruct (Ascii.eqb c sep).
    + unfold last_item in *. pose proof (split_not_nil sep (base +++ String sep seg)).
      destruct (split sep (base +++ String sep seg)); [contradiction | exact IH].
    + destruct (split_with_sep sep (base +++ String sep seg)) as (a & b & l & Heq).
      { rewrite has_char_app. simpl. rewrite Ascii.eqb_refl. apply orb_true_r. }
      rewrite Heq in *. exact IH.
Qed.

Lemma ends_with_other_char (c : ascii) (s : string) :
  s <> EmptyString -> has_char c s = false ->
  exists y d, s = y +++ String d EmptyString /\ Ascii.eqb c d = false.
Proof.
  induction s as [|a s IH]; [contradiction|]. intros _ H.
  simpl in H. apply orb_false_iff in H as [Ha Hs].
  destruct s as [|b s].
  - exists EmptyString, a. split; [reflexivity|]. now rewrite Ascii.eqb_sym.
  - destruct (IH ltac:(discriminate) Hs) as (y & d & Heq & Hd).
    exists (String a y), d. split; [simpl; now rewrite Heq | exact Hd].
Qed.

(** X11.  [parse_repo_name] gives back the name a URL was made from: for
    any name without a slash, the URL [base/name.git] gives [name], with or
    without slashes at its end; and so does [base/name] when the name is
    not empty and does not itself end with [.git]. *)
Theorem parse_repo_name_recovers_name (base name slashes : string) :
  has_char slash name = false ->
  all_chars (Ascii.eqb slash) slashes = true ->
  parse_repo_name (base +++ "/" +++ name +++ ".git" +++ slashes) = name
  /\ (name <> EmptyString -> endswith name ".git" = false ->
      parse_repo_name (base +++ "/" +++ name +++ slashes) = name).
Proof.
  intros Hname Hslashes. split.
  - unfold parse_repo_name. cbv zeta.
    replace (base +++ "/" +++ name +++ ".git" +++ slashes)
      with (((base +++ String slash (name +++ ".gi")) +++ "t") +++ slashes)
      by (repeat (rewrite ?append_assoc; cbn [String.append]); reflexivity).
    rewrite (rstrip_app_all _ _ _ Hslashes).
    rewrite rstrip_keeps by reflexivity.
    replace ((base +++ String slash (name +++ ".gi")) +++ "t")
      with (base +++ String slash (name +++ ".git"))
      by (repeat (rewrite ?append_assoc; cbn [String.append]); reflexivity).
    rewrite last_split_after
      by (rewrite has_char_app, Hname; reflexivity).
    rewrite (proj2 (endswith_iff _ ".git")) by now exists name.
    apply (drop_end_app name ".git").
  - intros Hne Hgit.
    destruct (ends_with_other_char slash name Hne Hname) as (y & d & Heq & Hd).
    unfold parse_repo_name. cbv zeta.
    replace (base +++ "/" +++ name +++ slashes)
      with (((base +++ String slash y) +++ String d EmptyString) +++ slashes)
      by (rewrite Heq; repeat (rewrite ?append_assoc; cbn [String.append]);
          reflexivity).
    rewrite (rstrip_app_all _ _ _ Hslashes).
    rewrite rstrip_keeps by exact Hd.
    replace ((base +++ String slash y) +++ String d EmptyString)
      with (base +++ String slash name)
      by (rewrite Heq; repeat (rewrite ?append_assoc; cbn [String.append]);
          reflexivity).
    rewrite (last_split_after slash base name Hname), Hgit. reflexivity.
Qed.

Lemma parse_repo_name_recovers_name_witness :
  has_char slash "sample-app" = false
  /\ parse_repo_name ("https://host/org" +++ "/" +++ "sample-app" +++ ".git" +++ "//")
     = "sample-app".
Proof.
  split; [reflexivity|].
  apply (proj1 (parse_repo_name_recovers_name "https://host/org" "sample-app" "//"
                  eq_refl eq_refl)).
Defined.

(** X12.  A start file returned by [find_python_entrypoint] is one of the
    three usual names or the base name of a path that the listing of the
    folder gave: the function never makes a name up, whatever is typed at
    its question. *)
Theorem entry_point_is_a_found_file {R} (w : World) (dir : string) (s s' : State)
  (f : string) :
  find_python_entrypoint w (R:=R) dir s = (Normal (Some f), s') ->
  In f ["main.py"; "app.py"; "index.py"]
  \/ exists pattern found,
       In (EGlob pattern found) (hist s') /\ In f (map (basename w) found).
Proof.
  rewrite find_python_entrypoint_eq. cbv zeta.
  set (p := path_join w dir).
  destruct (isfile w (hist s) (p "main.py"));
    [intros H; injection H as <- _; left; simpl; auto|].
  destruct (isfile w _ (p "app.py"));
    [intros H; injection H as <- _; left; simpl; auto|].
  destruct (isfile w _ (p "index.py"));
    [intros H; injection H as <- _; left; simpl; auto|].
  set (found := glob w _ (p "*.py")).
  destruct (length (map (basename w) found) =? 1)%nat eqn:Hone.
  { intros H. injection H as <- <-. right. exists (p "*.py"), found. split.
    - simpl. apply in_or_app. right. simpl. auto.
    - apply nth_In. apply Nat.eqb_eq in Hone. lia. }
  destruct (1 <? length (map (basename w) found))%nat; [|discriminate].
  unfold call.
  match goal with
  | |- context [choice_loop w ?l ?n ?st] =>
      destruct (choice_loop w (A:=option string) l n st) as [sig s1] eqn:Hloop;
      destruct (choice_loop_summary w EmptyString l n st sig s1 Hloop)
        as (_ & evs & Hhist & _ & Hsig)
  end.
  destruct Hsig as [(f' & -> & Hin)|(-> & _)]; [|discriminate].
  intros H. injection H as <- <-. right. exists (p "*.py"), found. split.
  - rewrite Hhist. simpl. apply in_or_app. left. apply in_or_app. right.
    simpl. auto.
  - exact Hin.
Qed.

Lemma entry_point_is_a_found_file_witness :
  exists s',
    find_python_entrypoint three_scripts (R:=unit) "C:\Hem4V\app"
      (start ["0"; "4"; "3"])
    = (Normal (Some "report.py"), s')
    /\ (In "report.py" ["main.py"; "app.py"; "index.py"]
        \/ exists pattern found,
             In (EGlob pattern found) (hist s')
             /\ In "report.py" (map (basename three_scripts) found)).
Proof.
  eexists. split; [reflexivity|].
  apply (entry_point_is_a_found_file (R:=unit) three_scripts "C:\Hem4V\app"
           (start ["0"; "4"; "3"])).
  reflexivity.
Defined.

(** ** The order of the steps and the final message *)

Lemma reports_of_app (a b : list event) :
  reports_of (a ++ b) = reports_of a ++ reports_of b.
Proof.
  induction a as [|e a IH]; [reflexivity|].
  destruct e; simpl; rewrite ?IH; reflexivity.
Qed.

Lemma step_events_no_report (w : World) (repo_url : string) (n : nat)
  (evs : list event) :
  Forall (step_event w repo_url n) evs -> reports_of evs = [].
Proof.
  induction 1 as [|e l He _ IH]; [reflexivity|].
  destruct He; simpl; try exact IH.
  destruct e; simpl in *; congruence.
Qed.

Lemma last_exit_zero_before (a b : list event) :
  launched a = [] -> last_exit_zero (a ++ b) = last_exit_zero b.
Proof. intros H. unfold last_exit_zero. now rewrite launched_app, H. Qed.

Lemma last_exit_zero_after (a b : list event) :
  launched b = [] -> last_exit_zero (a ++ b) = last_exit_zero a.
Proof. intros H. unfold last_exit_zero. now rewrite launched_app, H, app_nil_r. Qed.

Lemma run_cmd_events_keep (cmd : list string) (cwd : option string) (shell : bool)
  (evs : list event) :
  Forall (run_cmd_event cmd cwd shell) evs -> existsb removal_refused evs = false.
Proof.
  induction 1 as [|e l He _ IH]; [reflexivity|].
  destruct He as [Hc|(o & ->)]; [|exact IH].
  destruct e; simpl in *; congruence.
Qed.

(** [run_cmd] returns zero exactly when its last launch exited with zero. *)
Lemma run_cmd_verdict {R} (w : World) (cmd : list string) (cwd : option string)
  (shell : bool) (s : State) :
  exists rc evs,
    run_cmd w (R:=R) cmd cwd shell s = (Normal rc, extend s evs)
    /\ existsb removal_refused evs = false
    /\ last_exit_zero evs = (rc =? 0)%Z.
Proof.
  destruct (run_cmd_summary w cmd cwd shell (R:=R) s)
    as (rc & evs & Hrun & Hev & _ & Hl).
  exists rc, evs. split; [exact Hrun|].
  split; [now apply (run_cmd_events_keep cmd cwd shell)|].
  unfold last_exit_zero.
  destruct Hl as [(o1 & -> & Hz & ->)|(o1 & o2 & -> & _ & ->)]; simpl.
  - exact Hz.
  - destruct o2 as [l rc|l e]; reflexivity.
Qed.

Ltac verdict_tac :=
  split; intros ?Hx; first [reflexivity | discriminate].

Section Verdicts.

Variable w : World.
Variable repo_url : string.

Lemma verdict_extend (n : nat) (s : State) (sig : signal unit unit)
  (evs : list event) :
  (operation_ok n evs = true <-> sig = Normal tt) ->
  exists evs0,
    hist (extend s evs) = hist s ++ evs0
    /\ (operation_ok n evs0 = true <-> sig = Normal tt).
Proof. intros H. now exists evs. Qed.

(** Step 1 ends normally exactly when the work folder was made. *)
Lemma step_workdir_verdict (s : State) (sig : signal unit unit) (s' : State) :
  step_workdir w s = (sig, s') ->
  exists evs,
    hist s' = hist s ++ evs
    /\ (operation_ok 1 evs = true <-> sig = Normal tt).
Proof.
  unfold step_workdir, bind, log, emit, os_makedirs, act.
  rewrite !record_extend, !extend_extend.
  destruct (makedirs w _ WORKDIR) as [e|]; intros H; injection H as <- <-;
    apply verdict_extend; cbn; verdict_tac.
Qed.

Lemma attempt_verdict (attempt : nat) (sig : signal bool unit) (evs : list event) :
  attempt_shape w attempt sig evs ->
  existsb git_available evs
  = match sig with Return true => true | _ => false end.
Proof.
  intros H. destruct H; unfold give_up_or_go_on, fetched;
    destruct (attempt =? MAX_ATTEMPTS)%nat; reflexivity.
Qed.

Lemma install_shape_verdict (b : bool) (evs : list event) :
  install_shape w b evs -> existsb git_available evs = b.
Proof.
  intros H. destruct H as [evs H1|sig evs1 evs2 b H1 Hsig H2].
  - now rewrite (attempt_verdict _ _ _ H1).
  - rewrite existsb_app, (attempt_verdict _ _ _ H1), (attempt_verdict _ _ _ H2).
    destruct sig as [[]|[|]| | | ]; try reflexivity; now destruct b.
Qed.

(** Step 2 ends normally exactly when Git is there. *)
Lemma step_git_verdict (s : State) (sig : signal unit unit) (s' : State) :
  step_git w s = (sig, s') ->
  exists evs,
    hist s' = hist s ++ evs
    /\ (operation_ok 2 evs = true <-> sig = Normal tt).
Proof.
  unfold step_git. unfold bind at 1, log at 1, emit at 1. unfold bind at 1.
  rewrite record_extend.
  destruct (ensure_git_summary w (R:=unit)
              (extend s [ELog "Sprawdzam/zainstaluję Git..."]))
    as (b & evs & Hrun & Hcase).
  remember (which w (hist (extend s [ELog "Sprawdzam/zainstaluję Git..."])) "git")
    as wh eqn:Hwh.
  rewrite Hrun, extend_extend.
  assert (Hv : existsb git_available (EWhich "git" wh :: evs) = b).
  { destruct wh.
    - now destruct Hcase as [-> _].
    - simpl. now apply install_shape_verdict. }
  clear Hwh.
  destruct b; unfold when, negb, bind, log_error, emit, return_, ret;
    rewrite ?record_extend, ?extend_extend;
    intros H; injection H as <- <-;
    apply verdict_extend;
    unfold operation_ok;
    change (existsb git_available (ELog ?m :: ?l)) with (existsb git_available l);
    try change (EWhich "git" wh :: evs ++ ?x) with ((EWhich "git" wh :: evs) ++ x);
    rewrite ?existsb_app, Hv; cbn; verdict_tac.
Qed.

(** Step 3 ends normally exactly when no stale folder was left in the way
    and the last attempt to clone exited with zero. *)
Lemma step_clone_verdict (s : State) (sig : signal unit unit) (s' : State) :
  step_clone w repo_url (target_dir w repo_url) s = (sig, s') ->
  exists evs,
    hist s' = hist s ++ evs
    /\ (operation_ok 3 evs = true <-> sig = Normal tt).
Proof.
  assert (Htail : forall pre : list event,
    existsb removal_refused pre = false ->
    launched pre = [] ->
    (log "Klonuję repozytorium..." ;;
     exit_code <- run_cmd w ["git"; "clone"; repo_url] (Some WORKDIR) false ;;
     when (negb (exit_code =? 0)%Z)
       (log_error "Błąd podczas klonowania repozytorium!" ;; return_ tt) ;;
     log ("Sklonowano do " +++ target_dir w repo_url)) (extend s pre) = (sig, s') ->
    exists evs,
      hist s' = hist s ++ evs
      /\ (operation_ok 3 evs = true <-> sig = Normal tt)).
  { intros pre Hpre Hlp. unfold bind at 1, log at 1, emit at 1.
    rewrite record_extend, extend_extend.
    assert (Hl0 : launched (pre ++ [ELog "Klonuję repozytorium..."]) = [])
      by now rewrite launched_app, Hlp.
    assert (Hk0 : existsb removal_refused (pre ++ [ELog "Klonuję repozytorium..."])
                  = false)
      by now rewrite existsb_app, Hpre.
    revert Hl0 Hk0. generalize (pre ++ [ELog "Klonuję repozytorium..."]).
    intros pre0 Hl0 Hk0.
    destruct (run_cmd_verdict (R:=unit) w (clone_cmd repo_url) (Some WORKDIR)
                false (extend s pre0)) as (rc & evs & Hrun & Hkeep & Hlast).
    unfold clone_cmd in Hrun. unfold bind at 1. rewrite Hrun, extend_extend.
    destruct (rc =? 0)%Z;
      unfold when, negb, bind, log_error, log, emit, return_, ret;
      rewrite ?record_extend, ?extend_extend;
      intros H; injection H as <- <-; apply verdict_extend; unfold operation_ok;
      rewrite !existsb_app, Hk0, Hkeep, last_exit_zero_after by reflexivity;
      rewrite last_exit_zero_before by exact Hl0;
      rewrite Hlast; cbn; verdict_tac. }
  unfold step_clone. unfold bind at 1, os_path_exists at 1, ask.
  rewrite record_extend.
  destruct (path_exists w (hist s) (target_dir w repo_url)).
  - unfold when at 1. unfold bind at 1. unfold bind at 1, log at 1, emit at 1.
    rewrite record_extend, extend_extend. simpl app.
    unfold try_except, shutil_rmtree, act. rewrite record_extend, extend_extend.
    simpl app.
    destruct (rmtree w _ (target_dir w repo_url)) as [e|].
    + unfold bind, log_error, emit, return_. rewrite record_extend, extend_extend.
      intros H. injection H as <- <-. apply verdict_extend. cbn. verdict_tac.
    + intros H. eapply Htail in H; [exact H | reflexivity | reflexivity].
  - unfold when at 1. unfold bind at 1, ret at 1.
    intros H. eapply Htail in H; [exact H | reflexivity | reflexivity].
Qed.

(** Running a command and leaving the function when it fails. *)
Lemma run_checked_verdict (cmd : list string) (cwd : option string)
  (shell : bool) (msg : string) (s : State) (pre : list event)
  (sig : signal unit unit) (s' : State) :
  launched pre = [] ->
  (exit_code <- run_cmd w cmd cwd shell ;;
   when (negb (exit_code =? 0)%Z) (log_error msg ;; return_ tt)) (extend s pre)
  = (sig, s') ->
  exists evs,
    hist s' = hist s ++ evs
    /\ (operation_ok 4 evs = true <-> sig = Normal tt).
Proof.
  intros Hl.
  destruct (run_cmd_verdict (R:=unit) w cmd cwd shell (extend s pre))
    as (rc & evs & Hrun & _ & Hlast).
  unfold bind at 1. rewrite Hrun, extend_extend.
  destruct (rc =? 0)%Z;
    unfold when, negb, bind, log_error, emit, return_, ret;
    rewrite ?record_extend, ?extend_extend;
    intros H; injection H as <- <-; apply verdict_extend; unfold operation_ok;
    rewrite ?last_exit_zero_after by reflexivity;
    rewrite last_exit_zero_before by exact Hl;
    rewrite Hlast; verdict_tac.
Qed.

(** Step 4 ends normally exactly when the last attempt of the dependency
    installer exited with zero. *)
Lemma step_install_verdict (s : State) (sig : signal unit unit) (s' : State) :
  step_install w (target_dir w repo_url) (req_path w repo_url) (pkg_path w repo_url) s
    = (sig, s') ->
  exists evs,
    hist s' = hist s ++ evs
    /\ (operation_ok 4 evs = true <-> sig = Normal tt).
Proof.
  unfold step_install. unfold bind at 1, os_path_isfile at 1, ask.
  rewrite record_extend.
  destruct (isfile w (hist s) (req_path w repo_url)).
  - unfold bind at 1, log at 1, emit at 1. rewrite record_extend, extend_extend.
    unfold bind at 1. rewrite ensure_python_eq.
    destruct (which w _ "python"); rewrite extend_extend; simpl app.
    + unfold bind at 1.
      change (when (negb true) (return_ tt) ?st) with (@Normal unit unit tt, st).
      cbv iota beta.
      unfold bind at 1, log at 1, emit at 1. rewrite record_extend, extend_extend.
      simpl app.
      intros H. eapply run_checked_verdict in H; [exact H | reflexivity].
    + unfold bind, when, negb, return_.
      intros H. injection H as <- <-. apply verdict_extend. cbn. verdict_tac.
  - unfold bind at 1, os_path_isfile at 1, ask.
    rewrite record_extend, extend_extend. simpl app.
    destruct (isfile w _ (pkg_path w repo_url)).
    + unfold bind at 1, log at 1, emit at 1. rewrite record_extend, extend_extend.
      unfold bind at 1. rewrite ensure_npm_eq.
      destruct (which w _ "npm"); rewrite extend_extend; simpl app.
      * unfold bind at 1.
        change (when (negb true) (return_ tt) ?st) with (@Normal unit unit tt, st).
        cbv iota beta.
        unfold bind at 1, log at 1, emit at 1. rewrite record_extend, extend_extend.
        simpl app.
        intros H. eapply run_checked_verdict in H; [exact H | reflexivity].
      * unfold bind, when, negb, return_.
        intros H. injection H as <- <-. apply verdict_extend. cbn. verdict_tac.
    + unfold bind, log_error, emit, return_. rewrite record_extend, extend_extend.
      intros H. injection H as <- <-. apply verdict_extend. cbn. verdict_tac.
Qed.

(** Each of the steps 1 to 4 ends normally exactly when its operation
    has succeeded. *)
Lemma nth_step_verdict (n : nat) (s : State) (sig : signal unit unit) (s' : State) :
  1 <= n <= 4 ->
  nth_step w repo_url n s = (sig, s') ->
  exists evs,
    hist s' = hist s ++ evs
    /\ (operation_ok n evs = true <-> sig = Normal tt).
Proof.
  intros Hn.
  destruct n as [|[|[|[|[|n]]]]]; try lia; simpl nth_step.
  - apply step_workdir_verdict.
  - apply step_git_verdict.
  - apply step_clone_verdict.
  - apply step_install_verdict.
Qed.

End Verdicts.

Section Order.

Variable w : World.
Variable repo_url : string.

(** What a step that has ended leaves behind: its events, which are
    events of this step, and for the steps 1 to 4 whether its operation
    has succeeded. *)
Lemma nth_step_outcome (n : nat) (s : State) (sig : signal unit unit) (s' : State) :
  1 <= n <= 5 ->
  nth_step w repo_url n s = (sig, s') ->
  step_idx s' = step_idx s
  /\ exists evs,
       hist s' = hist s ++ evs
       /\ Forall (step_event w repo_url n) evs
       /\ step_ending n sig evs
       /\ (n < 5 -> (operation_ok n evs = true <-> sig = Normal tt)).
Proof.
  intros Hn Hstep.
  destruct (nth_step_summary w repo_url n s sig s' Hn Hstep)
    as (Hidx & evs & Hhist & Hev & Hend).
  split; [exact Hidx|]. exists evs. repeat split; try assumption.
  - intros Hok.
    destruct (nth_step_verdict w repo_url n s sig s' ltac:(lia) Hstep)
      as (evs' & Hhist' & Hiff).
    rewrite Hhist in Hhist'. apply app_inv_head in Hhist'. subst evs'.
    now apply Hiff.
  - intros ->.
    destruct (nth_step_verdict w repo_url n s (Normal tt) s' ltac:(lia) Hstep)
      as (evs' & Hhist' & Hiff).
    rewrite Hhist in Hhist'. apply app_inv_head in Hhist'. subst evs'.
    now apply Hiff.
Qed.

Lemma completes_in_order (s : State) (k : nat) (t : State) :
  completes w repo_url s k t ->
  k <= 5 ->
  step_idx t = k
  /\ exists evs,
       hist t = hist s ++ evs /\ steps_in_order w repo_url k evs.
Proof.
  induction 1 as [|k t t' Hk IH Hstep]; intros Hle.
  - split; [reflexivity|]. eexists. split; [reflexivity | constructor].
  - destruct IH as (Hidx & evs & Hhist & Hord); [lia|].
    destruct (nth_step_outcome (S k) t (Normal tt) t' ltac:(lia) Hstep)
      as (Hidx' & evs' & Hhist' & Hev' & _ & Hok).
    split; [unfold count_step, report; simpl; lia|].
    exists (evs ++ evs' ++ [EProgress (S k) (nth k WORKFLOW_STEPS EmptyString)]).
    split.
    + unfold count_step, report, record. cbn [hist step_idx].
      rewrite Hhist', Hhist, Hidx', Hidx.
      replace (k + 1) with (S k) by lia.
      change (0 <? S k)%nat with true. cbv iota.
      replace (S k - 1) with k by lia.
      now rewrite <- !app_assoc.
    + apply after_step; [exact Hord | exact Hev'|].
      intros Hlt. now apply Hok.
Qed.

(** A run of [do_workflow], cut at the last report of progress. *)
Lemma do_workflow_in_order {R} (s : State) :
  exists (k : nat) (t : State) (evs tail : list event)
         (sig : signal R unit) (s' : State),
    completes w repo_url s k t
    /\ hist t = hist s ++ evs
    /\ steps_in_order w repo_url k evs
    /\ do_workflow w (R:=R) repo_url s = (sig, s')
    /\ hist s' = hist s ++ evs ++ tail
    /\ step_idx s' = k
    /\ ((k = 5 /\ sig = Normal tt /\ tail = [ELog "Gotowe!"])
        \/ (k < 5 /\ halts_in w repo_url (S k) sig tail)).
Proof.
  destruct (do_workflow_phases (R:=R) w repo_url s)
    as (k & t & Hk & [(-> & Hrun)|(Hlt & sig & t' & Hstep & Hab)]).
  - destruct (completes_in_order s 5 t Hk ltac:(lia)) as (Hidx & evs & Hhist & Hord).
    exists 5, t, evs, [ELog "Gotowe!"], (Normal tt), (extend t [ELog "Gotowe!"]).
    repeat split; try assumption.
    + simpl. now rewrite Hhist, app_assoc.
    + left. now repeat split.
  - destruct (completes_in_order s k t Hk ltac:(lia)) as (Hidx & evs & Hhist & Hord).
    destruct (nth_step_outcome (S k) t sig t' ltac:(lia) Hstep)
      as (Hidx' & evs' & Hhist' & Hev' & Hend & Hok).
    assert (Hfail : S k < 5 -> sig <> Normal tt ->
                    operation_ok (S k) evs' = false).
    { intros Hlt' Hsig. destruct (operation_ok (S k) evs') eqn:Hop; [|reflexivity].
      exfalso. apply Hsig. now apply Hok. }
    destruct sig as [[]|[]| |e| ]; simpl in Hab, Hend;
      try discriminate Hab; try contradiction;
      injection Hab as Hab.
    + (* the step has left the function *)
      exists k, t, evs, evs', (Normal tt), t'.
      repeat split; try assumption; try (now rewrite <- Hab).
      * rewrite Hhist', Hhist. now rewrite app_assoc.
      * congruence.
      * right. split; [exact Hlt|]. split; [exact Hev'|].
        split; [now apply (step_events_no_report w repo_url (S k))|].
        destruct Hend as (Hlt' & Hmsg).
        rewrite (proj2 (Nat.ltb_lt _ _) Hlt').
        split; [reflexivity|]. split; [|exact Hmsg].
        apply (Hfail Hlt'). discriminate.
    + (* an exception, which the handler reports *)
      assert (Hev'' : Forall (step_event w repo_url (S k))
                        (evs' ++ [ELogError (critical_msg e)])).
      { apply Forall_app. split; [exact Hev'|].
        constructor; [now apply ev_console | constructor]. }
      exists k, t, evs, (evs' ++ [ELogError (critical_msg e)]), (Normal tt),
        (extend t' [ELogError (critical_msg e)]).
      repeat split; try assumption; try (now rewrite <- Hab).
      * simpl. rewrite Hhist', Hhist. now rewrite <- !app_assoc.
      * simpl. congruence.
      * right. split; [exact Hlt|]. split; [exact Hev''|].
        split; [now apply (step_events_no_report w repo_url (S k))|].
        injection Hend as ->. cbn [Nat.ltb Nat.leb].
        split; [reflexivity|]. split; [|exists (critical_msg e); apply ends_with_last].
        unfold operation_ok. rewrite existsb_app.
        change (existsb made_folder evs') with (operation_ok 1 evs').
        rewrite (Hfail ltac:(lia)); [reflexivity | discriminate].
    + (* the question that is asked for ever *)
      exists k, t, evs, evs', Diverge, t'.
      repeat split; try assumption; try (now rewrite <- Hab).
      * rewrite Hhist', Hhist. now rewrite app_assoc.
      * congruence.
      * right. split; [exact Hlt|]. split; [exact Hev'|].
        split; [now apply (step_events_no_report w repo_url (S k))|].
        destruct Hend as (Hfive & Hmsg). injection Hfive as ->.
        cbn [Nat.ltb Nat.leb]. split; [reflexivity | exact Hmsg].
Qed.

(** The steps that end normally are the same however they are counted. *)
Lemma completes_unique (s : State) (k' : nat) (t' : State) :
  completes w repo_url s k' t' ->
  forall (k : nat) (t : State),
    completes w repo_url s k t ->
    k <= k' ->
    (k = k' /\ t = t')
    \/ (k < k' /\ exists t1, nth_step w repo_url (S k) t = (Normal tt, t1)).
Proof.
  induction 1 as [|k' t' t'' Hk' IH Hstep']; intros k t Hk Hle.
  - left. inversion Hk; subst; [now split | lia].
  - destruct (Nat.eq_dec k (S k')) as [->|Hne].
    + left. split; [reflexivity|].
      inversion Hk as [|k0 u u' Hu Hstep Hk0]; subst.
      destruct (IH k' u Hu (le_n _)) as [(_ & ->)|(Hlt & _)]; [|lia].
      rewrite Hstep' in Hstep. now injection Hstep as ->.
    + right. split; [lia|].
      destruct (IH k t Hk ltac:(lia)) as [(-> & ->)|(_ & Hnext)];
        [now exists t'' | exact Hnext].
Qed.

(** After five steps, the final message. *)
Lemma do_workflow_done {R} (s t : State) :
  completes w repo_url s 5 t ->
  do_workflow w (R:=R) repo_url s = (Normal tt, extend t [ELog "Gotowe!"]).
Proof.
  intros Hk.
  destruct (do_workflow_phases (R:=R) w repo_url s)
    as (k' & t' & Hk' & [(-> & Hrun)|(Hlt & sig & u & Hstep & Hab)]).
  - destruct (completes_unique s 5 t' Hk' 5 t Hk (le_n _)) as [(_ & ->)|(Hlt & _)];
      [exact Hrun | lia].
  - destruct (completes_unique s 5 t Hk k' t' Hk' ltac:(lia))
      as [(-> & _)|(_ & t1 & Hnext)]; [lia|].
    rewrite Hnext in Hstep. injection Hstep as <- <-. discriminate Hab.
Qed.


Lemma steps_in_order_reports (k : nat) (evs : list event) :
  steps_in_order w repo_url k evs ->
  reports_of evs = map (fun idx => (idx, step_label idx)) (seq 0 (S k)).
Proof.
  induction 1 as [|k evs step_evs _ IH Hev _]; [reflexivity|].
  rewrite !reports_of_app, IH, (step_events_no_report w repo_url (S k) _ Hev).
  rewrite (seq_S (S k) 0), map_app. f_equal.
  cbn [map app reports_of Nat.add]. unfold step_label.
  change (0 <? S k)%nat with true. cbv iota.
  now replace (S k - 1) with k by lia.
Qed.

End Order.

(** C8, as amended.  In every run of [do_workflow] the counter starts at
    zero and the reports of progress show it at 0, 1, ..., k, each value
    once and in this order, k being its value at the end.  Between the
    reports with the counter at n - 1 and at n lie the events of step n,
    for the steps in their fixed order (work folder, Git, clone,
    dependencies, run).  After each of the steps 1 to 4 the counter goes up
    only when the operation of the step has succeeded; when it has failed,
    the run stops in this step with the report of an error, the counter
    stays, and no later step is started.  After step 5 the counter goes up
    as soon as the step has come to an end, whether or not the project was
    started and whatever it exited with, and the final message follows;
    the one way for a run to stop in step 5 is the question for the start
    file being asked for ever. *)
Theorem do_workflow_step_order {R} (w : World) (repo_url : string) (s : State) :
  exists (k : nat) (evs tail : list event) (sig : signal R unit) (s' : State),
    do_workflow w (R:=R) repo_url s = (sig, s')
    /\ hist s' = hist s ++ evs ++ tail
    /\ k <= 5
    /\ step_idx s' = k
    /\ reports_of (evs ++ tail)
       = map (fun idx => (idx, step_label idx)) (seq 0 (S k))
    /\ steps_in_order w repo_url k evs
    /\ ((k = 5 /\ sig = Normal tt /\ tail = [ELog "Gotowe!"])
        \/ (k < 5 /\ halts_in w repo_url (S k) sig tail)).
Proof.
  destruct (do_workflow_in_order w repo_url (R:=R) s)
    as (k & t & evs & tail & sig & s' & _ & _ & Hord & Hrun & Hhist & Hidx & Hend).
  exists k, evs, tail, sig, s'.
  split; [exact Hrun|]. split; [exact Hhist|].
  split; [destruct Hend as [(-> & _)|(Hlt & _)]; lia|].
  split; [exact Hidx|]. split; [|split; [exact Hord | exact Hend]].
  rewrite reports_of_app, (steps_in_order_reports w repo_url k evs Hord).
  destruct Hend as [(_ & _ & ->)|(_ & _ & -> & _)]; now rewrite app_nil_r.
Qed.

(** C8, as stated, fails.  In [failing_python_app] the script of the
    project is launched twice and exits with status 1 both times; in
    [no_start_file] no start file is found and nothing is launched after
    the installation of the dependencies.  In both runs the counter goes
    up to 5 all the same and the progress of step 5 is reported. *)
Lemma step_counter_ignores_the_run :
  launched (hist (snd (do_workflow failing_python_app (R:=unit)
                         "https://host/org/app.git" (start []))))
  = [ok_process; ok_process; failing_process 1; failing_process 1]
  /\ step_idx (snd (do_workflow failing_python_app (R:=unit)
                      "https://host/org/app.git" (start []))) = 5
  /\ reports_of (hist (snd (do_workflow failing_python_app (R:=unit)
                              "https://host/org/app.git" (start []))))
     = map (fun idx => (idx, step_label idx)) [0; 1; 2; 3; 4; 5]
  /\ In (ELogError no_entry_msg)
       (hist (snd (do_workflow no_start_file (R:=unit)
                     "https://host/org/app.git" (start []))))
  /\ launched (hist (snd (do_workflow no_start_file (R:=unit)
                            "https://host/org/app.git" (start []))))
     = [ok_process; ok_process]
  /\ step_idx (snd (do_workflow no_start_file (R:=unit)
                      "https://host/org/app.git" (start []))) = 5.
Proof. vm_compute. repeat split; auto 30. Qed.




